(** * OnClaude session engine: option parser, trigger detector, PTY manager
      and WebSocket access layer, embedded from the JavaScript sources.

    - [src/app/lib/option-parser.js] : [OPTION_PATTERNS], [parseOptions]
      and the [PTYManager] class that follows it in the same file;
    - [src/app/lib/watcher.js]       : the [Watcher] class;
    - [src/app/server.js]            : sessions, connection admission,
      message rate limiting, [validateArgs], [handleClientMessage],
      [startClaude], [broadcastOutput] and the listeners of the manager;
    - the [Notifier] class.

    JavaScript strings are sequences of code units; they are modelled by
    [string], whose characters are the code units 0..255.  JavaScript
    numbers that hold integers (lengths, timestamps, counters, priorities)
    are modelled by [Z]. *)

From Stdlib Require Import ZArith Lia Strings.Ascii Strings.String.
From stdpp Require Import base gmap strings list sorting.

Open Scope string_scope.
Open Scope Z_scope.
Open Scope list_scope.

(* ===================================================================== *)
(** ** JavaScript string and number primitives *)
(* ===================================================================== *)

Module JS.

(** [s.charCodeAt(i)] for one character. *)
Definition charCode (c : ascii) : Z := Z.of_N (N_of_ascii c).

Definition in_range (lo hi : Z) (c : ascii) : bool :=
  (lo <=? charCode c) && (charCode c <=? hi).

(** [\d] *)
Definition is_digit : ascii -> bool := in_range 48 57.
(** [[A-Z]] *)
Definition is_upper : ascii -> bool := in_range 65 90.
(** [[a-z]] *)
Definition is_lower : ascii -> bool := in_range 97 122.
(** [[a-z]] under the [i] flag: the ASCII letters of both cases. *)
Definition is_alpha (c : ascii) : bool := is_lower c || is_upper c.

(** [\s], and the characters removed by [trim()]: TAB, LF, VT, FF, CR,
    SPACE and NO-BREAK SPACE are the ones below code unit 256. *)
Definition is_space (c : ascii) : bool :=
  in_range 9 13 c || (charCode c =? 32) || (charCode c =? 160).

Definition ascii_of_Z (z : Z) : ascii := ascii_of_N (Z.to_N z).

(** [toUpperCase] / [toLowerCase] on one character; the parser applies
    them to ASCII letters only. *)
Definition upper_char (c : ascii) : ascii :=
  if is_lower c then ascii_of_Z (charCode c - 32) else c.
Definition lower_char (c : ascii) : ascii :=
  if is_upper c then ascii_of_Z (charCode c + 32) else c.

(** Case-insensitive comparison of a pattern character with an input
    character ([i] flag, no [u] flag: only ASCII letters fold). *)
Definition eq_char_ci (a b : ascii) : bool :=
  Ascii.eqb (upper_char a) (upper_char b).

Fixpoint toUpperCase (s : string) : string :=
  match s with
  | EmptyString => EmptyString
  | String c s' => String (upper_char c) (toUpperCase s')
  end.

Fixpoint toLowerCase (s : string) : string :=
  match s with
  | EmptyString => EmptyString
  | String c s' => String (lower_char c) (toLowerCase s')
  end.

(** [s.length] *)
Definition strlen (s : string) : Z := Z.of_nat (String.length s).

Fixpoint drop (n : nat) (s : string) : string :=
  match n, s with
  | O, _ => s
  | S n', String _ s' => drop n' s'
  | S _, EmptyString => EmptyString
  end.

Fixpoint take (n : nat) (s : string) : string :=
  match n, s with
  | S n', String c s' => String c (take n' s')
  | _, _ => EmptyString
  end.

(** The index at which [x.slice(start)] begins, for [x] of length
    [len]: a negative [start] counts from the end, and the result is
    clamped to [0 .. len]. *)
Definition slice_from (len start : Z) : nat :=
  Z.to_nat (if start <? 0 then Z.max (len + start) 0 else Z.min start len).

(** [s.slice(start)] on a string. *)
Definition str_slice (s : string) (start : Z) : string :=
  drop (slice_from (strlen s) start) s.

(** [arr.slice(start)] on an array, and [buf.slice(start)] on a Buffer. *)
Definition arr_slice {A} (l : list A) (start : Z) : list A :=
  skipn (slice_from (Z.of_nat (length l)) start) l.

(** [x || d] on a number that may be absent: [undefined] and [0] are
    falsy. *)
Definition or_default (x : option Z) (d : Z) : Z :=
  match x with
  | Some v => if v =? 0 then d else v
  | None => d
  end.

Definition nl : string := String (ascii_of_Z 10) EmptyString.
Definition cr : string := String (ascii_of_Z 13) EmptyString.

(** [s.split('\n')]: never empty, [''.split('\n')] is [['']]. *)
Fixpoint split_nl (s : string) : list string :=
  match s with
  | EmptyString => [EmptyString]
  | String c s' =>
      if charCode c =? 10 then EmptyString :: split_nl s'
      else match split_nl s' with
           | l :: ls => String c l :: ls
           | [] => [String c EmptyString]
           end
  end.

(** [arr.join('\n')] *)
Definition join_nl (l : list string) : string := String.concat nl l.

Fixpoint trimStart (s : string) : string :=
  match s with
  | String c s' => if is_space c then trimStart s' else s
  | EmptyString => EmptyString
  end.

(** Removes trailing white space: a character is kept when something
    that is kept follows it, or when it is not white space. *)
Fixpoint trimEnd (s : string) : string :=
  match s with
  | EmptyString => EmptyString
  | String c s' =>
      match trimEnd s' with
      | EmptyString => if is_space c then EmptyString else String c EmptyString
      | t => String c t
      end
  end.

(** [s.trim()] *)
Definition trim (s : string) : string := trimEnd (trimStart s).

(** [s.includes(t)] *)
Fixpoint includes (t s : string) : bool :=
  String.prefix t s ||
  match s with
  | EmptyString => false
  | String _ s' => includes t s'
  end.

(** [parseInt(s)] on a non-empty string of decimal digits.  The parser
    only compares the result with 1 and 20 and with other values in that
    range, where the exact integer and the double agree. *)
Definition parseInt_digits (s : string) : Z :=
  fold_left (fun acc c => 10 * acc + (charCode c - 48)) (list_ascii_of_string s) 0.

(** [ToInt32]: wrap to the signed 32-bit range. *)
Definition toInt32 (z : Z) : Z :=
  let m := z mod 2 ^ 32 in
  if 2 ^ 31 <=? m then m - 2 ^ 32 else m.

(** [a << k] *)
Definition shl32 (a k : Z) : Z := toInt32 (Z.shiftl (toInt32 a) (k mod 32)).

(** [a & b] *)
Definition and32 (a b : Z) : Z := toInt32 (Z.land (toInt32 a) (toInt32 b)).

Definition hex_digit (d : Z) : ascii :=
  if d <? 10 then ascii_of_Z (48 + d) else ascii_of_Z (87 + d).

Fixpoint hex_digits (fuel : nat) (n : Z) (acc : string) : string :=
  match fuel with
  | O => acc
  | S fuel' =>
      let acc' := String (hex_digit (n mod 16)) acc in
      if n / 16 =? 0 then acc' else hex_digits fuel' (n / 16) acc'
  end.

(** [n.toString(16)] for an integer [n]. *)
Definition toString16 (n : Z) : string :=
  if n <? 0
  then String "-" (hex_digits (S (Z.to_nat (Z.log2 (- n)))) (- n) EmptyString)
  else hex_digits (S (Z.to_nat (Z.log2 n))) n EmptyString.

End JS.

(* ===================================================================== *)
(** ** Backtracking regular expressions *)
(* ===================================================================== *)

(** A regular expression is a function from the remaining input to the
    list of its possible matches at the start of that input, in the order
    in which a backtracking matcher tries them: each match is the value
    captured and the input left.  The first element is the match
    JavaScript reports. *)

Module Rx.

Definition t (A : Type) : Type := string -> list (A * string).

Definition ret {A} (a : A) : t A := fun s => [(a, s)].

Definition bind {A B} (r : t A) (f : A -> t B) : t B :=
  fun s => flat_map (fun m => f (fst m) (snd m)) (r s).

Definition seq {A B} (r : t A) (q : t B) : t B := bind r (fun _ => q).

(** [r|q] *)
Definition alt {A} (r q : t A) : t A := fun s => r s ++ q s.

(** [(?:r)?], greedy *)
Definition opt (r : t unit) : t unit := alt r (ret tt).

(** One character of a class. *)
Definition cls (p : ascii -> bool) : t ascii :=
  fun s => match s with
           | String c s' => if p c then [(c, s')] else []
           | EmptyString => []
           end.

(** [[class]+], greedy: the longest run first, then shorter ones. *)
Fixpoint plus (p : ascii -> bool) (s : string) : list (string * string) :=
  match s with
  | String c s' =>
      if p c
      then map (fun m => (String c (fst m), snd m)) (plus p s') ++ [(String c EmptyString, s')]
      else []
  | EmptyString => []
  end.

(** A literal, compared character by character with [eqc]. *)
Fixpoint lit_with (eqc : ascii -> ascii -> bool) (w : string) : t unit :=
  match w with
  | EmptyString => ret tt
  | String a w' =>
      fun s => match s with
               | String c s' => if eqc a c then lit_with eqc w' s' else []
               | EmptyString => []
               end
  end.

Definition lit : string -> t unit := lit_with Ascii.eqb.
(** A literal under the [i] flag. *)
Definition lit_i : string -> t unit := lit_with JS.eq_char_ci.

(** The text consumed by a match of [s] that left [rest]. *)
Definition consumed (s rest : string) : string :=
  JS.take (String.length s - String.length rest)%nat s.

(** [re.exec(s)] without the [g] flag, and [s.match(re)]: the leftmost
    position that has a match, with the matcher's first match there.
    The result is the matched text and the captured value. *)
Fixpoint exec {A} (re : t A) (s : string) : option (string * A) :=
  match re s with
  | (a, rest) :: _ => Some (consumed s rest, a)
  | [] => match s with
          | String _ s' => exec re s'
          | EmptyString => None
          end
  end.

(** Successive matches of a [g] regular expression ([while (m =
    re.exec(s))], and [s.match(re)]): after a match the search resumes
    where the match ended; [skip] counts the characters of the current
    match still to pass over. *)
Fixpoint scan {A} (re : t A) (skip : nat) (s : string) : list (string * A) :=
  match skip with
  | S k => match s with
           | String _ s' => scan re k s'
           | EmptyString => []
           end
  | O =>
      match re s with
      | (a, rest) :: _ =>
          (consumed s rest, a) ::
          match s with
          | String _ s' => scan re (String.length s - String.length rest - 1)%nat s'
          | EmptyString => []
          end
      | [] => match s with
              | String _ s' => scan re O s'
              | EmptyString => []
              end
      end
  end.

Definition execAll {A} (re : t A) (s : string) : list (string * A) := scan re O s.

End Rx.

(* ===================================================================== *)
(** ** Pattern library: [src/app/lib/option-parser.js] *)
(* ===================================================================== *)

Module OptionParser.

(** One choice: [{ label, value }]. *)
Record Choice := mkChoice { label : string; value : string }.

(** The value returned by [parseOptions]. *)
Record ParseResult := mkResult {
  prompt : string;
  options : list Choice;
  patternName : string
}.

(** An entry of [OPTION_PATTERNS].  [regex text] is the result of
    [text.match(pattern.regex)]: [None] for [null], otherwise the array
    of matched texts; [extract] receives that array and the text and
    returns [null] or an array of choices. *)
Record Pattern := mkPattern {
  name : string;
  regex : string -> option (list string);
  extract : list string -> string -> option (list Choice);
  priority : Z
}.

(** [s.match(re)] for a regular expression without the [g] flag and
    without capture groups of interest: the matched text. *)
Definition match1 {A} (re : Rx.t A) (s : string) : option (list string) :=
  match Rx.exec re s with
  | Some (whole, _) => Some [whole]
  | None => None
  end.

(** [s.match(re)] for a [g] regular expression: all matched texts, or
    [null] when there is none. *)
Definition matchG {A} (re : Rx.t A) (s : string) : option (list string) :=
  match Rx.execAll re s with
  | [] => None
  | ms => Some (map fst ms)
  end.

(** [/\(y\/n\)|\[y\/n\]|\[Y\/n\]|\[y\/N\]/i] *)
Definition re_yes_no : Rx.t unit :=
  Rx.alt (Rx.lit_i "(y/n)")
    (Rx.alt (Rx.lit_i "[y/n]") (Rx.alt (Rx.lit_i "[Y/n]") (Rx.lit_i "[y/N]"))).

(** [/\(y\/n\/a(?:lways)?\)/i] *)
Definition re_yes_no_always : Rx.t unit :=
  Rx.seq (Rx.lit_i "(y/n/a") (Rx.seq (Rx.opt (Rx.lit_i "lways")) (Rx.lit_i ")")).

(** [/(\d+)\.\s+([A-Z])/]; the captures are the digits and the letter.
    The pattern's own [regex], [/\d+\.\s+[A-Z]/], is the same expression
    without the groups. *)
Definition re_numbered : Rx.t (string * ascii) :=
  Rx.bind (Rx.plus JS.is_digit) (fun num =>
  Rx.seq (Rx.lit ".") (Rx.seq (Rx.plus JS.is_space)
  (Rx.bind (Rx.cls JS.is_upper) (fun c => Rx.ret (num, c))))).

(** [/press\s+enter|Enter to (?:confirm|select)/i] *)
Definition re_press_enter : Rx.t unit :=
  Rx.alt
    (Rx.seq (Rx.lit_i "press") (Rx.seq (Rx.plus JS.is_space) (Rx.lit_i "enter")))
    (Rx.seq (Rx.lit_i "Enter to ") (Rx.alt (Rx.lit_i "confirm") (Rx.lit_i "select"))).

(** [/\(([a-z])\)([a-z]+)/gi]; the captures are the letter and the rest
    of the word. *)
Definition re_letter_in_parens : Rx.t (ascii * string) :=
  Rx.seq (Rx.lit "(") (Rx.bind (Rx.cls JS.is_alpha) (fun l =>
  Rx.seq (Rx.lit ")") (Rx.bind (Rx.plus JS.is_alpha) (fun rest => Rx.ret (l, rest))))).

(** The [found] map of the numbered extractor: its keys in insertion
    order (the values are all [true]). *)
Definition found_has (found : list string) (num : string) : bool :=
  existsb (String.eqb num) found.

(** One iteration of [for (const line of lines)]. *)
Definition numbered_step (found : list string) (line : string) : list string :=
  match Rx.exec re_numbered line with
  | Some (_, (num, _)) =>
      if negb (found_has found num)
         && (1 <=? JS.parseInt_digits num) && (JS.parseInt_digits num <=? 20)
      then found ++ [num]
      else found
  | None => found
  end.

Definition numbered_found (text : string) : list string :=
  fold_left numbered_step (JS.split_nl text) [].

(** Stable insertion sort, the model of [Array.prototype.sort] with the
    comparator [le a b] standing for [compare(a, b) <= 0]. *)
Fixpoint insert_by {A} (le : A -> A -> bool) (x : A) (l : list A) : list A :=
  match l with
  | [] => [x]
  | y :: ys => if le x y then x :: y :: ys else y :: insert_by le x ys
  end.

Definition sort_by {A} (le : A -> A -> bool) (l : list A) : list A :=
  fold_right (insert_by le) [] l.

(** [(a, b) => parseInt(a) - parseInt(b)] *)
Definition num_le (a b : string) : bool :=
  JS.parseInt_digits a <=? JS.parseInt_digits b.

(** [extract] of [numbered-options]. *)
Definition extract_numbered (text : string) : option (list Choice) :=
  let options :=
    map (fun num => mkChoice num num) (sort_by num_le (numbered_found text)) in
  if 2 <=? Z.of_nat (length options) then Some options else None.

(** [extract] of [letter-in-parens]. *)
Definition extract_letters (text : string) : option (list Choice) :=
  let options :=
    map (fun m : string * (ascii * string) =>
           let letter := JS.lower_char (fst (snd m)) in
           let rest := snd (snd m) in
           mkChoice (String (JS.upper_char letter) rest) (String letter EmptyString))
        (Rx.execAll re_letter_in_parens text) in
  if 2 <=? Z.of_nat (length options) then Some options else None.

Definition OPTION_PATTERNS : list Pattern :=
  [ mkPattern "yes-no" (match1 re_yes_no)
      (fun _ _ => Some [mkChoice "Yes" "y"; mkChoice "No" "n"]) 10;
    mkPattern "yes-no-always" (match1 re_yes_no_always)
      (fun _ _ => Some [mkChoice "Yes" "y"; mkChoice "No" "n"; mkChoice "Always" "a"]) 11;
    mkPattern "numbered-options" (match1 re_numbered)
      (fun _ text => extract_numbered text) 15;
    mkPattern "press-enter" (match1 re_press_enter)
      (fun _ _ => Some [mkChoice "OK" ""]) 9;
    mkPattern "letter-in-parens" (matchG re_letter_in_parens)
      (fun _ text => extract_letters text) 8 ].

(** [(a, b) => b.priority - a.priority] *)
Definition prio_le (a b : Pattern) : bool := priority b <=? priority a.

(** [[...OPTION_PATTERNS].sort((a, b) => b.priority - a.priority)] *)
Definition sort_patterns (ps : list Pattern) : list Pattern := sort_by prio_le ps.

Definition sortedPatterns : list Pattern := sort_patterns OPTION_PATTERNS.

(** The object handed to [addPattern]: each property may be missing
    ([None]). *)
Record PatternArg := mkPatternArg {
  a_name : option string;
  a_regex : option (string -> option (list string));
  a_extract : option (list string -> string -> option (list Choice));
  a_priority : option Z
}.

(** [addPattern(pattern)] on the two module-level arrays
    [OPTION_PATTERNS] and [sortedPatterns]: the arrays after the call
    and the message of the error thrown, if any.  A name that is
    missing or empty is falsy; a priority that is missing or 0 becomes
    5. *)
Definition addPattern (table sorted : list Pattern) (pattern : PatternArg)
  : list Pattern * list Pattern * option string :=
  match a_name pattern, a_regex pattern, a_extract pattern with
  | Some (String c n), Some re, Some ex =>
      let p := mkPattern (String c n) re ex
                 (match a_priority pattern with
                  | Some q => if q =? 0 then 5 else q
                  | None => 5
                  end) in
      (table ++ [p], sort_patterns (table ++ [p]), None)
  | _, _, _ =>
      (table, sorted, Some "Pattern must have name, regex, and extract properties")
  end.

(** The loop [for (const pattern of sortedPatterns)] of [parseOptions]. *)
Fixpoint first_match (ps : list Pattern) (recentLines : string) : option ParseResult :=
  match ps with
  | [] => None
  | p :: ps' =>
      match regex p recentLines with
      | Some m =>
          match extract p m recentLines with
          | Some (o :: os) => Some (mkResult "Select option:" (o :: os) (name p))
          | _ => first_match ps' recentLines
          end
      | None => first_match ps' recentLines
      end
  end.

(** [parseOptions] over the current sorted pattern list. *)
Definition parseOptionsWith (sorted : list Pattern) (text : string) : option ParseResult :=
  match text with
  | EmptyString => None
  | _ =>
      let lines := JS.split_nl (JS.trim text) in
      let recentLines := JS.join_nl (JS.arr_slice lines (-50)) in
      first_match sorted recentLines
  end.

Definition parseOptions : string -> option ParseResult := parseOptionsWith sortedPatterns.

Definition containsTrigger (text : string) : bool :=
  match parseOptions text with Some _ => true | None => false end.

End OptionParser.

(* ===================================================================== *)
(** ** Session manager: class [PTYManager] *)
(* ===================================================================== *)

Module PtyManager.

(** The outcome of a call: a returned value or a thrown [Error] with
    its message. *)
Inductive Completion (A : Type) :=
| Return (a : A)
| Throw (message : string).
Arguments Return {A} a.
Arguments Throw {A} message.

(** What a method does to the outside: calls on the node-pty object and
    events emitted to the listeners of the manager. *)
Inductive Effect :=
| PtyWrite (data : string)
| PtyResize (cols rows : Z)
| PtyKill (signal : string)
| EmitData (data : string)
| EmitExit (exitCode : Z) (signal : option Z)
| EmitSpawn (command : string) (args : list string)
| EmitError (message : string).

(** The fields of a [PTYManager]; [pty] is the node-pty object, known
    by an identifier. *)
Record PTYManager := mkPTY {
  pty : option nat;
  bufferSize : Z;
  buffer : list Byte.byte;
  exitCode : option Z;
  running : bool;
  cols : Z;
  rows : Z
}.

(** [new PTYManager(options)] *)
Definition constructor (o_bufferSize o_cols o_rows : option Z) : PTYManager :=
  {| pty := None;
     bufferSize := JS.or_default o_bufferSize (100 * 1024);
     buffer := [];
     exitCode := None;
     running := false;
     cols := JS.or_default o_cols 120;
     rows := JS.or_default o_rows 40 |}.

Definition set_buffer (m : PTYManager) (b : list Byte.byte) : PTYManager :=
  mkPTY (pty m) (bufferSize m) b (exitCode m) (running m) (cols m) (rows m).

Definition set_running (m : PTYManager) (r : bool) : PTYManager :=
  mkPTY (pty m) (bufferSize m) (buffer m) (exitCode m) r (cols m) (rows m).

(** [spawn(command, args, options)].  [spawned] is what
    [pty.spawn(command, args, spawnOptions)] does: it returns the new
    node-pty object or throws. *)
Definition spawn (m : PTYManager) (command : string) (args : list string)
    (spawned : Completion nat) : PTYManager * list Effect * Completion bool :=
  if running m
  then (m, [], Throw "PTY already running. Call kill() first.")
  else
    match spawned with
    | Return h =>
        (mkPTY (Some h) (bufferSize m) [] None true (cols m) (rows m),
         [EmitSpawn command args], Return true)
    | Throw e => (m, [EmitError e], Throw e)
    end.

(** [write(data)] *)
Definition write (m : PTYManager) (data : string)
  : PTYManager * list Effect * Completion unit :=
  match pty m with
  | Some _ =>
      if running m then (m, [PtyWrite data], Return tt)
      else (m, [], Throw "PTY not running")
  | None => (m, [], Throw "PTY not running")
  end.

(** [resize(cols, rows)] *)
Definition resize (m : PTYManager) (c r : Z) : PTYManager * list Effect :=
  let m' := mkPTY (pty m) (bufferSize m) (buffer m) (exitCode m) (running m) c r in
  match pty m with
  | Some _ => if running m then (m', [PtyResize c r]) else (m', [])
  | None => (m', [])
  end.

(** [kill(signal = 'SIGTERM')] *)
Definition kill (m : PTYManager) (signal : string) : PTYManager * list Effect :=
  match pty m with
  | Some _ =>
      if running m then (set_running m false, [PtyKill signal]) else (m, [])
  | None => (m, [])
  end.

Definition isRunning (m : PTYManager) : bool := running m.

(** [getState()]: running, exitCode, bufferLength, cols, rows. *)
Definition getState (m : PTYManager) : bool * option Z * Z * Z * Z :=
  (running m, exitCode m, Z.of_nat (length (buffer m)), cols m, rows m).

(** [_appendToBuffer(data)], on the bytes [newData = Buffer.from(data)]. *)
Definition _appendToBuffer (m : PTYManager) (newData : list Byte.byte) : PTYManager :=
  let combined := buffer m ++ newData in
  if bufferSize m <? Z.of_nat (length combined)
  then set_buffer m (JS.arr_slice combined (Z.of_nat (length combined) - bufferSize m))
  else set_buffer m combined.

Section Encoding.
(** [Buffer.from(data)]: the UTF-8 bytes of a string. *)
Variable Buffer_from : string -> list Byte.byte.

(** The [onData] callback installed by [spawn]. *)
Definition onData (m : PTYManager) (data : string) : PTYManager * list Effect :=
  (_appendToBuffer m (Buffer_from data), [EmitData data]).

(** The manager after the chunks [chunks] arrived in this order. *)
Definition drain (m : PTYManager) (chunks : list string) : PTYManager :=
  fold_left (fun m' data => fst (onData m' data)) chunks m.
End Encoding.

(** The [onExit] callback installed by [spawn]. *)
Definition onExit (m : PTYManager) (code : Z) (signal : option Z)
  : PTYManager * list Effect :=
  (mkPTY (pty m) (bufferSize m) (buffer m) (Some code) false (cols m) (rows m),
   [EmitExit code signal]).

End PtyManager.

(* ===================================================================== *)
(** ** Trigger detector: class [Watcher], [src/app/lib/watcher.js] *)
(* ===================================================================== *)

Module WatcherLib.
Import OptionParser.

(** The fields of a [Watcher] ([onTrigger] is fixed at construction and
    appears as the callback argument reported by [process]). *)
Record Watcher := mkWatcher {
  maxLines : Z;
  lines : list string;
  lastTrigger : option string;
  lastTriggerTime : Z
}.

(** [new Watcher(options)] *)
Definition constructor (o_maxLines : option Z) : Watcher :=
  {| maxLines := JS.or_default o_maxLines 50;
     lines := [];
     lastTrigger := None;
     lastTriggerTime := 0 |}.

(** The object returned by [process] when a new trigger is detected. *)
Record Trigger := mkTrigger {
  type : string;
  t_prompt : string;
  t_options : list Choice;
  t_patternName : string;
  isNew : bool
}.

(** The object returned by [getLastTrigger]. *)
Record LastTrigger := mkLastTrigger {
  lt_type : string;
  lt_prompt : string;
  lt_options : list Choice;
  lt_patternName : string;
  detectedAt : Z
}.

(** What one call of [process] does: the next state, the argument of
    the [onTrigger] call if there is one, and the value returned. *)
Record Processed := mkProcessed {
  next : Watcher;
  onTrigger : option ParseResult;
  returned : option Trigger
}.

(** One iteration of the loop of [_hashPrompt]. *)
Definition hash_step (hash : Z) (c : ascii) : Z :=
  let hash1 := JS.shl32 hash 5 - hash + JS.charCode c in
  JS.and32 hash1 hash1.

(** [_hashPrompt(prompt)] *)
Definition _hashPrompt (prompt : string) : string :=
  JS.toString16 (fold_left hash_step (list_ascii_of_string prompt) 0).

(** [reset()] *)
Definition reset (w : Watcher) : Watcher :=
  mkWatcher (maxLines w) [] None 0.

(** The loop [for (const line of newLines)] of [process]. *)
Definition push_lines (ls newLines : list string) : list string :=
  fold_left (fun acc line =>
               if 0 <? JS.strlen (JS.trim line) then acc ++ [line] else acc)
            newLines ls.

Section Detector.
(** The [strip-ansi] package. *)
Variable stripAnsiModule : string -> string.
(** The value of [sortedPatterns] of the pattern library when the
    detector runs. *)
Variable patterns : list Pattern.

(** [stripAnsi(text)] *)
Definition stripAnsi (text : string) : string :=
  stripAnsiModule
    (if 100000 <? JS.strlen text then JS.str_slice text (-100000) else text).

(** The rolling window after the lines of [data] are added. *)
Definition window (w : Watcher) (data : string) : list string :=
  let ls := push_lines (lines w) (JS.split_nl (stripAnsi data)) in
  if maxLines w <? Z.of_nat (length ls) then JS.arr_slice ls (- maxLines w) else ls.

(** [process(data)]; [now] is the value of [Date.now()]. *)
Definition process (w : Watcher) (data : string) (now : Z) : Processed :=
  let ls := window w data in
  let w1 := mkWatcher (maxLines w) ls (lastTrigger w) (lastTriggerTime w) in
  match parseOptionsWith patterns (JS.join_nl ls) with
  | Some result =>
      let triggerHash := _hashPrompt (prompt result) in
      if negb (bool_decide (Some triggerHash = lastTrigger w))
      then mkProcessed (mkWatcher (maxLines w) ls (Some triggerHash) now)
             (Some result)
             (Some (mkTrigger "options" (prompt result) (options result)
                      (patternName result) true))
      else mkProcessed w1 None None
  | None => mkProcessed w1 None None
  end.

(** [getBuffer()] *)
Definition getBuffer (w : Watcher) : string := JS.join_nl (lines w).

(** [getLastTrigger()] *)
Definition getLastTrigger (w : Watcher) : option LastTrigger :=
  match lastTrigger w with
  | None => None
  | Some EmptyString => None
  | Some _ =>
      match parseOptionsWith patterns (JS.join_nl (lines w)) with
      | Some result =>
          Some (mkLastTrigger "options" (prompt result) (options result)
                  (patternName result) (lastTriggerTime w))
      | None => None
      end
  end.

(** The detector fed the chunks [chunks] in this order, each with the
    clock value read while it is processed: the final state and the
    values returned, in order. *)
Fixpoint feed (w : Watcher) (chunks : list (string * Z))
  : Watcher * list (option Trigger) :=
  match chunks with
  | [] => (w, [])
  | (data, now) :: rest =>
      let p := process w data now in
      let r := feed (next p) rest in
      (fst r, returned p :: snd r)
  end.
End Detector.

(** The number of [options] events among the values returned. *)
Definition events (rs : list (option Trigger)) : nat :=
  length (List.filter (fun r => match r with Some _ => true | None => false end) rs).

End WatcherLib.

(* ===================================================================== *)
(** ** Argument whitelist: [validateArgs], [src/app/server.js] *)
(* ===================================================================== *)

Module Args.
Import PtyManager.

Definition MAX_ARGS : Z := 10.

(** [DANGEROUS_PATTERNS]: the characters of the class; the double quote
    is code unit 34. *)
Definition dangerous_char (c : ascii) : bool :=
  existsb (Ascii.eqb c) (list_ascii_of_string ";&|`$(){}[]<>\'!#*?~")
  || (JS.charCode c =? 34).

(** [DANGEROUS_PATTERNS.test(s)] *)
Fixpoint is_dangerous (s : string) : bool :=
  match s with
  | EmptyString => false
  | String c s' => dangerous_char c || is_dangerous s'
  end.

Fixpoint every (p : ascii -> bool) (s : string) : bool :=
  match s with
  | EmptyString => true
  | String c s' => p c && every p s'
  end.

(** [/^[a-zA-Z0-9_-]+$/] *)
Definition re_model (v : string) : bool :=
  negb (String.eqb v "")
  && every (fun c => JS.is_lower c || JS.is_upper c || JS.is_digit c
                     || Ascii.eqb c "_" || Ascii.eqb c "-") v.

(** [/^\d{1,3}$/] *)
Definition re_max_turns (v : string) : bool :=
  every JS.is_digit v && (1 <=? JS.strlen v) && (JS.strlen v <=? 3).

(** [/^(json|text|stream)$/] *)
Definition re_output_format (v : string) : bool :=
  String.eqb v "json" || String.eqb v "text" || String.eqb v "stream".

(** [/^(json|text)$/] *)
Definition re_input_format (v : string) : bool :=
  String.eqb v "json" || String.eqb v "text".

(** [ALLOWED_CLAUDE_ARGS]: the own properties of the object, [None]
    for the value [null]. *)
Definition ALLOWED_CLAUDE_ARGS : list (string * option (string -> bool)) :=
  [ ("--model", Some re_model);
    ("--max-turns", Some re_max_turns);
    ("--output-format", Some re_output_format);
    ("--input-format", Some re_input_format);
    ("--verbose", None); ("--print", None); ("--yes", None); ("-y", None);
    ("--no-cache", None); ("--continue", None); ("-c", None);
    ("--resume", None); ("-r", None) ].

(** The property names every object inherits from [Object.prototype];
    the [in] operator finds them too. *)
Definition inherited_names : list string :=
  [ "constructor"; "hasOwnProperty"; "isPrototypeOf"; "propertyIsEnumerable";
    "toLocaleString"; "toString"; "valueOf"; "__proto__";
    "__defineGetter__"; "__defineSetter__"; "__lookupGetter__"; "__lookupSetter__" ].

(** What [flag in ALLOWED_CLAUDE_ARGS] and [ALLOWED_CLAUDE_ARGS[flag]]
    give: no property; a regular expression; [null]; or an inherited
    value, which is neither [null] nor has a [test] method. *)
Inductive Lookup :=
| Absent
| Regex (p : string -> bool)
| Null
| Inherited.

Fixpoint own (table : list (string * option (string -> bool))) (key : string)
  : option (option (string -> bool)) :=
  match table with
  | [] => None
  | (k, v) :: rest => if String.eqb k key then Some v else own rest key
  end.

Definition lookup (key : string) : Lookup :=
  match own ALLOWED_CLAUDE_ARGS key with
  | Some (Some p) => Regex p
  | Some None => Null
  | None => if existsb (String.eqb key) inherited_names then Inherited else Absent
  end.

(** [const [flag, ...valueParts] = arg.split('='); value =
    valueParts.join('=')]: the text before the first equals sign and the
    text after it. *)
Fixpoint split_eq (arg : string) : string * string :=
  match arg with
  | EmptyString => (EmptyString, EmptyString)
  | String c s' =>
      if Ascii.eqb c "=" then (EmptyString, s')
      else (String c (fst (split_eq s')), snd (split_eq s'))
  end.

(** An element of the array handed to [validateArgs], given by what
    [String(element)] does: it returns a string (the element itself when
    it is a string; the decimal text of a number; ["null"]; ...) or
    throws a [TypeError] (an object with an own property [toString]
    cannot be converted).  The conversion of a value built by
    [JSON.parse] has no effect of its own and gives the same outcome
    each time. *)
Definition Element : Type := Completion string.

(** The parameter of [validateArgs]: an array, or a value that is none. *)
Inductive Value :=
| NotArray
| Array (elements : list Element).

(** The [while] loop of [validateArgs] on the elements not yet read.
    Calling the missing [test] method of an inherited value throws a
    [TypeError]. *)
Fixpoint loop (args : list Element) (validated : list string)
  : Completion (list string) :=
  match args with
  | [] => Return validated
  | el :: rest =>
      if MAX_ARGS <=? Z.of_nat (length validated) then Return validated
      else
        match el with
        | Throw e => Throw e
        | Return a =>
            let arg := JS.trim a in
            if String.eqb arg "" then loop rest validated
            else if is_dangerous arg then loop rest validated
            else if JS.includes "=" arg then
              match lookup (fst (split_eq arg)) with
              | Absent => loop rest validated
              | Null => loop rest validated
              | Inherited => Throw "pattern.test is not a function"
              | Regex p =>
                  if p (snd (split_eq arg))
                  then loop rest
                         (validated ++ [fst (split_eq arg) +:+ "=" +:+ snd (split_eq arg)])
                  else loop rest validated
              end
            else if String.prefix "-" arg then
              match lookup arg with
              | Absent => loop rest validated
              | Null => loop rest (validated ++ [arg])
              | Regex p =>
                  match rest with
                  | [] => loop rest (validated ++ [arg])
                  | Throw e :: _ => Throw e
                  | Return n :: rest' =>
                      let nextArg := JS.trim n in
                      if negb (String.prefix "-" nextArg) && negb (is_dangerous nextArg)
                      then if p nextArg
                           then loop rest' (validated ++ [arg; nextArg])
                           else loop rest (validated ++ [arg])
                      else loop rest (validated ++ [arg])
                  end
              | Inherited =>
                  match rest with
                  | [] => loop rest (validated ++ [arg])
                  | Throw e :: _ => Throw e
                  | Return n :: _ =>
                      let nextArg := JS.trim n in
                      if negb (String.prefix "-" nextArg) && negb (is_dangerous nextArg)
                      then Throw "pattern.test is not a function"
                      else loop rest (validated ++ [arg])
                  end
              end
            else loop rest validated
        end
  end.

(** [validateArgs(args)] *)
Definition validateArgs (args : Value) : Completion (list string) :=
  match args with
  | NotArray => Return []
  | Array elements => loop elements []
  end.

(** An array of strings. *)
Definition strings (l : list string) : Value := Array (map Return l).

End Args.

(* ===================================================================== *)
(** ** Notification dispatch: class [Notifier] *)
(* ===================================================================== *)

Module NotifierLib.

Record Stats := mkStats { sent : Z; debounced : Z; failed : Z }.

(** The fields of a [Notifier]. *)
Record Notifier := mkNotifier {
  server : string;
  topic : option string;
  token : option string;
  debounceSeconds : Z;
  clickUrl : option string;
  lastNotificationHash : option string;
  lastNotificationTime : Z;
  stats : Stats
}.

(** Truthiness of a string that may be absent. *)
Definition truthy (o : option string) : bool :=
  match o with
  | Some (String _ _) => true
  | _ => false
  end.

(** [x || null] *)
Definition or_null (o : option string) : option string :=
  if truthy o then o else None.

(** [new Notifier(options)] *)
Definition constructor (o_server o_topic o_token : option string)
    (o_debounceSeconds : option Z) (o_clickUrl : option string) : Notifier :=
  {| server := if truthy o_server then default "" o_server else "https://ntfy.sh";
     topic := o_topic;
     token := or_null o_token;
     debounceSeconds := JS.or_default o_debounceSeconds 30;
     clickUrl := or_null o_clickUrl;
     lastNotificationHash := None;
     lastNotificationTime := 0;
     stats := mkStats 0 0 0 |}.

(** [_truncate(str, maxLength)] *)
Definition _truncate (str : string) (maxLength : Z) : string :=
  if JS.strlen str <=? maxLength then str
  else JS.take (Z.to_nat (maxLength - 3)) str +:+ "...".

(** [_hashString(str)] *)
Definition _hashString (str : string) : string :=
  JS.toString16 (fold_left WatcherLib.hash_step (list_ascii_of_string str) 0).

(** [s.replace(/\/$/, '')]: one trailing slash is removed. *)
Fixpoint strip_trailing_slash (s : string) : string :=
  match s with
  | EmptyString => EmptyString
  | String c EmptyString => if Ascii.eqb c "/" then EmptyString else s
  | String c s' => String c (strip_trailing_slash s')
  end.

(** The request [notify] hands to [fetch], with the two values it keeps
    for the time the response arrives. *)
Record Request := mkRequest {
  url : string;
  body : string;
  headers : list (string * string);
  promptHash : string;
  started : Z
}.

(** What [fetch] and the reading of the response give: [response.ok];
    another status, with its text; or a rejection. *)
Inductive Response :=
| Ok
| NotOk (status : Z) (errorText : string)
| Rejected (message : string).

(** The value [notify] resolves to. *)
Inductive Result :=
| Success
| NoTopic
| Debounced
| HttpError (status : Z) (error : string)
| NetworkError (error : string).

Definition bump_debounced (n : Notifier) : Notifier :=
  mkNotifier (server n) (topic n) (token n) (debounceSeconds n) (clickUrl n)
    (lastNotificationHash n) (lastNotificationTime n)
    (mkStats (sent (stats n)) (debounced (stats n) + 1) (failed (stats n))).

Definition bump_failed (n : Notifier) : Notifier :=
  mkNotifier (server n) (topic n) (token n) (debounceSeconds n) (clickUrl n)
    (lastNotificationHash n) (lastNotificationTime n)
    (mkStats (sent (stats n)) (debounced (stats n)) (failed (stats n) + 1)).

(** [notify({ prompt, title, priority, force })] up to the call of
    [fetch]; [now] is [Date.now()].  The elapsed time in seconds,
    [(now - lastNotificationTime) / 1000], is below [debounceSeconds]
    exactly when the elapsed milliseconds are below a thousand times
    that. *)
Definition notify_begin (n : Notifier) (prompt : string) (title : option string)
    (priority : string) (force : bool) (now : Z) : Notifier * (Result + Request) :=
  if negb (truthy (topic n)) then (n, inl NoTopic)
  else
    let hash := _hashString prompt in
    let timeSinceLastMs := now - lastNotificationTime n in
    if negb force
       && bool_decide (Some hash = lastNotificationHash n)
       && (timeSinceLastMs <? 1000 * debounceSeconds n)
    then (bump_debounced n, inl Debounced)
    else
      (n, inr (mkRequest
                 (strip_trailing_slash (server n) +:+ "/" +:+ default "" (topic n))
                 (_truncate prompt 200)
                 ([("Title", if truthy title then default "" title
                             else "Claude Code - Input Needed");
                   ("Priority", priority);
                   ("Tags", "robot")]
                  ++ (if truthy (clickUrl n) then [("Click", default "" (clickUrl n))] else [])
                  ++ (if truthy (token n)
                      then [("Authorization", "Bearer " +:+ default "" (token n))]
                      else []))
                 hash now)).

(** The rest of [notify], once the response is there. *)
Definition notify_complete (n : Notifier) (req : Request) (resp : Response)
  : Notifier * Result :=
  match resp with
  | Ok =>
      (mkNotifier (server n) (topic n) (token n) (debounceSeconds n) (clickUrl n)
         (Some (promptHash req)) (started req)
         (mkStats (sent (stats n) + 1) (debounced (stats n)) (failed (stats n))),
       Success)
  | NotOk status errorText => (bump_failed n, HttpError status errorText)
  | Rejected message => (bump_failed n, NetworkError message)
  end.

(** [notify] when nothing else runs between the request and its
    response. *)
Definition notify (n : Notifier) (prompt : string) (title : option string)
    (priority : string) (force : bool) (now : Z) (resp : Response)
  : Notifier * Result :=
  match notify_begin n prompt title priority force now with
  | (n1, inl r) => (n1, r)
  | (n1, inr req) => notify_complete n1 req resp
  end.

(** [resetDebounce()] *)
Definition resetDebounce (n : Notifier) : Notifier :=
  mkNotifier (server n) (topic n) (token n) (debounceSeconds n) (clickUrl n)
    None 0 (stats n).

(** [getStats()] *)
Definition getStats (n : Notifier) : Stats := stats n.

End NotifierLib.

(* ===================================================================== *)
(** ** Broadcast / access layer: [src/app/server.js] *)
(* ===================================================================== *)

Module Server.
Import PtyManager WatcherLib.

Definition SESSION_DURATION : Z := 24 * 60 * 60 * 1000.
Definition MAX_VIOLATIONS : Z := 5.
Definition BAN_DURATION : Z := 5 * 60 * 1000.
Definition WS_RATE_LIMIT : Z := 10.
Definition WS_WINDOW : Z := 60 * 1000.
Definition MESSAGE_RATE_LIMIT : Z := 30.
Definition MESSAGE_WINDOW : Z := 1000.

(** The messages [broadcast] sends to the clients. *)
Inductive Message :=
| MsgError (message : string)
| MsgHideOptions
| MsgOutput (data : string)
| MsgOptions (t : Trigger)
| MsgStarted (args : list string) (cwd : option string)
| MsgExit (exitCode : Z) (signal : option Z).

(** The messages a client sends, after [JSON.parse], by their [type].
    [Start]: [args] is [data.args || []]; [cwd] is [None] when
    [data.cwd] is falsy and otherwise what
    [path.normalize(path.resolve('/workspace', data.cwd))] does: it
    returns a path, or throws a [TypeError] for a value that is no
    string.  [Input]: [data.data], a string.  [Resize]: [data.cols] and
    [data.rows], 0 when falsy.  [Unknown]: any other [type], and any
    JSON value that is no object. *)
Inductive ClientMessage :=
| Start (args : Args.Value) (cwd : option (Completion string))
| Input (data : string)
| Resize (cols rows : Z)
| Stop
| GetState
| Unknown.

(** The per-connection fields the server adds to a WebSocket, and the
    close code and reason once [ws.close] was called. *)
Record Socket := mkSocket {
  ip : string;
  violations : Z;
  messageTimestamps : list Z;
  closed : option (Z * string)
}.

(** The module-level state of the server.  [mockMode] is
    [config.mockMode] and [mockInputHandler] tells whether a mock input
    handler is installed.  Four logs record what the server does to the
    outside, oldest first: [broadcasts], the messages handed to
    [broadcast] (each goes to every open client); [ptyCalls], the calls
    made on the node-pty object; [requests], the requests
    [notifier.notify] handed to [fetch]; [pushes], the calls of
    [sendWebPush(title, body)]. *)
Record Srv := mkSrv {
  ptyManager : PTYManager;
  watcher : Watcher;
  notifier : NotifierLib.Notifier;
  sessions : gmap string Z;
  bannedIps : gmap string Z;
  wsConnections : gmap string (list Z);
  themeSent : bool;
  mockMode : bool;
  mockInputHandler : bool;
  broadcasts : list Message;
  ptyCalls : list Effect;
  requests : list NotifierLib.Request;
  pushes : list (string * string)
}.

Definition set_ptyManager (s : Srv) (m : PTYManager) (calls : list Effect) : Srv :=
  mkSrv m (watcher s) (notifier s) (sessions s) (bannedIps s) (wsConnections s)
    (themeSent s) (mockMode s) (mockInputHandler s) (broadcasts s) (ptyCalls s ++ calls)
    (requests s) (pushes s).

Definition set_watcher (s : Srv) (w : Watcher) : Srv :=
  mkSrv (ptyManager s) w (notifier s) (sessions s) (bannedIps s) (wsConnections s)
    (themeSent s) (mockMode s) (mockInputHandler s) (broadcasts s) (ptyCalls s)
    (requests s) (pushes s).

Definition set_notifier (s : Srv) (n : NotifierLib.Notifier) : Srv :=
  mkSrv (ptyManager s) (watcher s) n (sessions s) (bannedIps s) (wsConnections s)
    (themeSent s) (mockMode s) (mockInputHandler s) (broadcasts s) (ptyCalls s)
    (requests s) (pushes s).

Definition set_sessions (s : Srv) (m : gmap string Z) : Srv :=
  mkSrv (ptyManager s) (watcher s) (notifier s) m (bannedIps s) (wsConnections s)
    (themeSent s) (mockMode s) (mockInputHandler s) (broadcasts s) (ptyCalls s)
    (requests s) (pushes s).

Definition set_bannedIps (s : Srv) (m : gmap string Z) : Srv :=
  mkSrv (ptyManager s) (watcher s) (notifier s) (sessions s) m (wsConnections s)
    (themeSent s) (mockMode s) (mockInputHandler s) (broadcasts s) (ptyCalls s)
    (requests s) (pushes s).

Definition set_wsConnections (s : Srv) (m : gmap string (list Z)) : Srv :=
  mkSrv (ptyManager s) (watcher s) (notifier s) (sessions s) (bannedIps s) m
    (themeSent s) (mockMode s) (mockInputHandler s) (broadcasts s) (ptyCalls s)
    (requests s) (pushes s).

Definition set_themeSent (s : Srv) (b : bool) : Srv :=
  mkSrv (ptyManager s) (watcher s) (notifier s) (sessions s) (bannedIps s)
    (wsConnections s) b (mockMode s) (mockInputHandler s) (broadcasts s) (ptyCalls s)
    (requests s) (pushes s).

Definition set_mockInputHandler (s : Srv) (b : bool) : Srv :=
  mkSrv (ptyManager s) (watcher s) (notifier s) (sessions s) (bannedIps s)
    (wsConnections s) (themeSent s) (mockMode s) b (broadcasts s) (ptyCalls s)
    (requests s) (pushes s).

Definition add_request (s : Srv) (req : NotifierLib.Request) : Srv :=
  mkSrv (ptyManager s) (watcher s) (notifier s) (sessions s) (bannedIps s)
    (wsConnections s) (themeSent s) (mockMode s) (mockInputHandler s) (broadcasts s)
    (ptyCalls s) (requests s ++ [req]) (pushes s).

Definition add_push (s : Srv) (title body : string) : Srv :=
  mkSrv (ptyManager s) (watcher s) (notifier s) (sessions s) (bannedIps s)
    (wsConnections s) (themeSent s) (mockMode s) (mockInputHandler s) (broadcasts s)
    (ptyCalls s) (requests s) (pushes s ++ [(title, body)]).

(** [broadcast(message)] *)
Definition broadcast (s : Srv) (msg : Message) : Srv :=
  mkSrv (ptyManager s) (watcher s) (notifier s) (sessions s) (bannedIps s)
    (wsConnections s) (themeSent s) (mockMode s) (mockInputHandler s)
    (broadcasts s ++ [msg]) (ptyCalls s) (requests s) (pushes s).

(** [validateSession(token)]; [now] is [Date.now()]. *)
Definition validateSession (ss : gmap string Z) (token : option string) (now : Z)
  : bool * gmap string Z :=
  match token with
  | None => (false, ss)
  | Some EmptyString => (false, ss)
  | Some tk =>
      match ss !! tk with
      | None => (false, ss)
      | Some created =>
          if SESSION_DURATION <? now - created
          then (false, delete tk ss)
          else (true, ss)
      end
  end.

(** The outcome of a connection attempt. *)
Inductive Admission :=
| Rejected (code : Z) (reason : string)
| Accepted (ws : Socket).

(** The admission checks of [wss.on('connection')].  [ip] is
    [getClientIp(req)], [token] is [getSessionFromRequest(req)];
    [t_ban], [t_session] and [now] are the values of [Date.now()] read by
    the ban check, by [validateSession] and by the rate limiter. *)
Definition on_connection (s : Srv) (ip : string) (token : option string)
    (t_ban t_session now : Z) : Srv * Admission :=
  if match bannedIps s !! ip with
     | Some expiry => t_ban <? expiry
     | None => false
     end
  then (s, Rejected 4403 "Temporarily banned")
  else
    let v := validateSession (sessions s) token t_session in
    let s1 := set_sessions s (snd v) in
    if negb (fst v) then (s1, Rejected 4001 "Unauthorized")
    else
      let connections :=
        List.filter (fun t => now - t <? WS_WINDOW)
                    (default [] (wsConnections s1 !! ip)) in
      if WS_RATE_LIMIT <=? Z.of_nat (length connections)
      then (s1, Rejected 4029 "Rate limited")
      else (set_wsConnections s1 (<[ip := connections ++ [now]]> (wsConnections s1)),
            Accepted (mkSocket ip 0 [] None)).

(** What the [message] handler does with a message: it closes the
    connection, drops the message, or goes on to [JSON.parse] and
    [handleClientMessage]. *)
Inductive Received :=
| Closed (code : Z) (reason : string)
| Dropped
| Dispatched.

(** The checks of [ws.on('message')] that come before [JSON.parse]: the
    first part of the handler, up to [ws.messageTimestamps.push(now)].
    [size] is the byte length of the message; [now] and [t_ban] are the
    values of [Date.now()] read for the window and for the ban.  The
    whole handler is [on_message_parsed] below. *)
Definition on_message (s : Srv) (ws : Socket) (size now t_ban : Z)
  : Srv * Socket * Received :=
  if 65536 <? size
  then (s, mkSocket (ip ws) (violations ws) (messageTimestamps ws)
             (Some (1009, "Message too large")),
        Closed 1009 "Message too large")
  else
    let ts := List.filter (fun t => now - t <? MESSAGE_WINDOW) (messageTimestamps ws) in
    if MESSAGE_RATE_LIMIT <=? Z.of_nat (length ts)
    then
      let v := violations ws + 1 in
      if MAX_VIOLATIONS <=? v
      then (set_bannedIps s (<[ip ws := t_ban + BAN_DURATION]> (bannedIps s)),
            mkSocket (ip ws) v ts
              (Some (4429, "Rate limit exceeded - temporarily banned")),
            Closed 4429 "Rate limit exceeded - temporarily banned")
      else (s, mkSocket (ip ws) v ts (closed ws), Dropped)
    else (s, mkSocket (ip ws) (violations ws) (ts ++ [now]) (closed ws), Dispatched).

(** The sweep that runs every minute: [if (now > expiry) delete]. *)
Definition sweep_bans (s : Srv) (now : Z) : Srv :=
  set_bannedIps s (filter (fun kv => ¬ (snd kv < now)) (bannedIps s)).

(** The environment of one handler call: the values of [Date.now()]
    read by [Watcher.process] and by [Notifier.notify], the error of
    [fs.mkdirSync] if the directory is missing and cannot be created,
    and what [pty.spawn] does. *)
Record Env := mkEnv {
  t_process : Z;
  t_notify : Z;
  mkdirError : option string;
  spawned : Completion nat
}.

(** The working directory [startClaude] computes: [/workspace] unless
    the normalised path is [/workspace] or lies below it. *)
Definition working_directory (cwd : option (Completion string)) : Completion string :=
  match cwd with
  | None => Return "/workspace"
  | Some (Throw e) => Throw e
  | Some (Return normalized) =>
      if String.eqb normalized "/workspace" || String.prefix "/workspace/" normalized
      then Return normalized
      else Return "/workspace"
  end.

(** [.filter(Boolean)] on an array of strings. *)
Definition filter_Boolean (l : list string) : list string :=
  List.filter (fun a => negb (String.eqb a "")) l.

Section Handlers.
(** The [strip-ansi] package; the value of [sortedPatterns]. *)
Variable stripAnsiModule : string -> string.
Variable patterns : list OptionParser.Pattern.
(** [Buffer.from]; [config.claude.opts]. *)
Variable Buffer_from : string -> list Byte.byte.
Variable claude_opts : list string.

(** The [onTrigger] callback the server gives its detector:
    [notifier.notify({ prompt })], which runs up to its call of [fetch],
    then [sendWebPush(title, prompt)]. *)
Definition on_trigger (s : Srv) (result : OptionParser.ParseResult) (now : Z) : Srv :=
  let nb := NotifierLib.notify_begin (notifier s) (OptionParser.prompt result)
              None "high" false now in
  let s1 := set_notifier s (fst nb) in
  let s2 := match snd nb with
            | inr req => add_request s1 req
            | inl _ => s1
            end in
  add_push s2 "Claude Code - Input Needed" (OptionParser.prompt result).

(** [broadcastOutput(data)]; [watcher.process] calls [onTrigger]
    before it returns. *)
Definition broadcastOutput (s : Srv) (data : string) (env : Env) : Srv :=
  let p := process stripAnsiModule patterns (watcher s) data (t_process env) in
  let s0 := set_watcher s (next p) in
  let s1 := match WatcherLib.onTrigger p with
            | Some result => on_trigger s0 result (t_notify env)
            | None => s0
            end in
  let s2 := broadcast s1 (MsgOutput data) in
  match returned p with
  | Some t => broadcast s2 (MsgOptions t)
  | None => s2
  end.

(** [startMockMode()]: the [started] message; the texts of the mock
    sequence come later, from timers. *)
Definition startMockMode (s : Srv) : Srv :=
  broadcast s (MsgStarted ["--mock"] None).

(** [startClaude(extraArgs, customCwd)]: the server when the call ends,
    and whether it ends by returning or by throwing. *)
Definition startClaude (s : Srv) (extraArgs : Args.Value)
    (customCwd : option (Completion string)) (env : Env) : Srv * Completion unit :=
  if isRunning (ptyManager s)
  then (broadcast s (MsgError "Claude Code is already running"), Return tt)
  else
    let s1 := set_watcher s (reset (watcher s)) in
    match Args.validateArgs extraArgs with
    | Throw e => (s1, Throw e)
    | Return validatedArgs =>
        let args := filter_Boolean (claude_opts ++ validatedArgs) in
        match working_directory customCwd with
        | Throw e => (s1, Throw e)
        | Return cwd =>
            match mkdirError env with
            | Some e =>
                (broadcast s1 (MsgError ("Failed to create directory: " +:+ e)),
                 Return tt)
            | None =>
                if mockMode s1 then (startMockMode s1, Return tt)
                else
                  match spawn (ptyManager s1) "claude" args (spawned env) with
                  | (m, _, Return _) =>
                      (broadcast (set_ptyManager s1 m []) (MsgStarted args (Some cwd)),
                       Return tt)
                  | (m, _, Throw e) =>
                      (broadcast (broadcast (set_ptyManager s1 m []) (MsgError e))
                         (MsgError ("Failed to start: " +:+ e)),
                       Return tt)
                  end
            end
        end
    end.

(** [case 'input'] of the original [handleClientMessage]. *)
Definition handle_input (s : Srv) (data : string) : Srv * Completion unit :=
  if isRunning (ptyManager s)
  then
    match write (ptyManager s) data with
    | (m, calls, Return _) =>
        let s1 := set_ptyManager s m calls in
        let s2 :=
          if String.eqb data JS.cr || JS.includes JS.cr data
          then broadcast (set_watcher s1 (reset (watcher s1))) MsgHideOptions
          else s1 in
        (set_notifier s2 (NotifierLib.resetDebounce (notifier s2)), Return tt)
    | (_, _, Throw e) => (s, Throw e)
    end
  else (s, Return tt).

(** The function [handleClientMessage] as declared.  [getState]
    answers on the socket of the sender and leaves the server as it
    is. *)
Definition originalHandleClientMessage (s : Srv) (data : ClientMessage) (env : Env)
  : Srv * Completion unit :=
  match data with
  | Start args cwd => startClaude s args cwd env
  | Input d => handle_input s d
  | Resize c r =>
      if (c =? 0) || (r =? 0) then (s, Return tt)
      else let mr := resize (ptyManager s) c r in
           (set_ptyManager s (fst mr) (snd mr), Return tt)
  | Stop =>
      let mk := kill (ptyManager s) "SIGTERM" in
      (set_ptyManager s (fst mk) (snd mk), Return tt)
  | GetState => (s, Return tt)
  | Unknown => (s, Return tt)
  end.

(** [handleClientMessage(ws, data)] as it stands once the file is
    loaded: the mock-mode wrapper around the declared function.  The
    mock input handler removes itself when it is called. *)
Definition handleClientMessage (s : Srv) (data : ClientMessage) (env : Env)
  : Srv * Completion unit :=
  match data with
  | Input d =>
      if mockMode s && mockInputHandler s
      then (broadcastOutput (set_mockInputHandler s false) d env, Return tt)
      else originalHandleClientMessage s data env
  | _ => originalHandleClientMessage s data env
  end.

(** [ws.on('message')] as a whole: the checks of [on_message], then
    [JSON.parse] and [handleClientMessage] inside [try]; what they
    throw is caught and logged.  [parsed] is [None] when [JSON.parse]
    throws or gives [null]. *)
Definition on_message_parsed (s : Srv) (ws : Socket) (size now t_ban : Z)
    (parsed : option ClientMessage) (env : Env) : Srv * Socket * Received :=
  match on_message s ws size now t_ban with
  | (s1, ws1, Dispatched) =>
      match parsed with
      | Some data => (fst (handleClientMessage s1 data env), ws1, Dispatched)
      | None => (s1, ws1, Dispatched)
      end
  | out => out
  end.

(** Output of the subprocess: the [onData] callback of the manager,
    then the server's listener of the [data] event.  [menu] is
    [data.includes('╌╌╌')], a test on a character outside the 8-bit
    code units of this model. *)
Definition on_data (s : Srv) (data : string) (menu : bool) (env : Env) : Srv :=
  let md := onData Buffer_from (ptyManager s) data in
  let s1 := broadcastOutput (set_ptyManager s (fst md) []) data env in
  if negb (themeSent s1) && menu
  then
    let s2 := set_themeSent s1 true in
    let w := write (ptyManager s2) "1" in
    set_ptyManager s2 (fst (fst w)) (snd (fst w))
  else s1.

(** The timer set by the [data] listener, 100 ms later. *)
Definition on_theme_timer (s : Srv) : Srv :=
  if isRunning (ptyManager s)
  then let w := write (ptyManager s) JS.cr in
       set_ptyManager s (fst (fst w)) (snd (fst w))
  else s.

(** The subprocess exits: the [onExit] callback of the manager, then
    the server's listener of the [exit] event. *)
Definition on_exit (s : Srv) (code : Z) (signal : option Z) : Srv :=
  let me := onExit (ptyManager s) code signal in
  broadcast (set_themeSent (set_ptyManager s (fst me) []) false)
    (MsgExit code signal).

(** A timer of the mock sequence fires: [broadcastOutput(item.text)],
    then [runMockSequence] goes on to the next step, which installs the
    input handler at once when it is a [waitForInput] step ([wait]) and
    sets the next timer otherwise. *)
Definition on_mock_timer (s : Srv) (text : string) (wait : bool) (env : Env) : Srv :=
  let s1 := broadcastOutput s text env in
  if wait then set_mockInputHandler s1 true else s1.

(** [SIGTERM] or [SIGINT] reaches the server: [ptyManager.kill()],
    then the server closes. *)
Definition on_shutdown (s : Srv) : Srv :=
  let mk := kill (ptyManager s) "SIGTERM" in
  set_ptyManager s (fst mk) (snd mk).

(** The response to a request of [notifier.notify] arrives. *)
Definition on_response (s : Srv) (req : NotifierLib.Request)
    (resp : NotifierLib.Response) : Srv :=
  set_notifier s (fst (NotifierLib.notify_complete (notifier s) req resp)).

(** What happens to the server, as far as the session manager, the
    detector and the notifier are concerned: a message reaches
    [handleClientMessage] ([None] when it cannot be parsed); the
    subprocess writes or exits; a timer of the theme selection or of
    the mock sequence fires (the mock sequence exists in mock mode
    only); a notification request is answered; the server is told to
    shut down. *)
Inductive Event :=
| EvMessage (parsed : option ClientMessage) (env : Env)
| EvData (data : string) (menu : bool) (env : Env)
| EvExit (code : Z) (signal : option Z)
| EvThemeTimer
| EvMockTimer (text : string) (wait : bool) (env : Env)
| EvResponse (req : NotifierLib.Request) (resp : NotifierLib.Response)
| EvShutdown.

Definition step (s : Srv) (ev : Event) : Srv :=
  match ev with
  | EvMessage (Some data) env => fst (handleClientMessage s data env)
  | EvMessage None _ => s
  | EvData data menu env => on_data s data menu env
  | EvExit code signal => on_exit s code signal
  | EvThemeTimer => on_theme_timer s
  | EvMockTimer text wait env => if mockMode s then on_mock_timer s text wait env else s
  | EvResponse req resp => on_response s req resp
  | EvShutdown => on_shutdown s
  end.

(** The server after the events [evs], in this order. *)
Definition run (s : Srv) (evs : list Event) : Srv := fold_left step evs s.
End Handlers.

(** The server when the file is loaded: [mock] is [config.mockMode] and
    [n] the notifier built from the configuration. *)
Definition init (mock : bool) (n : NotifierLib.Notifier) : Srv :=
  mkSrv (PtyManager.constructor None (Some 120) (Some 40)) (WatcherLib.constructor None)
    n ∅ ∅ ∅ false mock false [] [] [] [].

End Server.

(* ===================================================================== *)
(** ** Notions used to state the properties *)
(* ===================================================================== *)

Module Props.
Import OptionParser.

(** The bytes of a sequence of output chunks, concatenated. *)
Definition stream (Buffer_from : string -> list Byte.byte) (chunks : list string)
  : list Byte.byte :=
  concat (map Buffer_from chunks).

(** The last [cap] elements of [l] (all of [l] when it is shorter). *)
Definition suffix {A} (cap : Z) (l : list A) : list A :=
  skipn (length l - Z.to_nat cap)%nat l.

(** The numeral the numbered-list matcher finds in a line: the first
    capture of [line.match(/(\d+)\.\s+([A-Z])/)]. *)
Definition line_number (line : string) : option string :=
  match Rx.exec re_numbered line with
  | Some (_, (num, _)) => Some num
  | None => None
  end.

Fixpoint all_chars (p : ascii -> bool) (s : string) : bool :=
  match s with
  | EmptyString => true
  | String c s' => p c && all_chars p s'
  end.

(** The numeral [num] lies in 1..20. *)
Definition in_1_20 (num : string) : Prop :=
  1 <= JS.parseInt_digits num <= 20.

(** [s] begins with an occurrence of the numbered pattern whose
    numeral is [num]: digits, a period, white space, an uppercase
    letter. *)
Definition numbered_at (s num : string) : Prop :=
  exists (ws : string) (c : ascii) (post : string),
    s = num +:+ "." +:+ ws +:+ String c post
    /\ num <> "" /\ all_chars JS.is_digit num = true
    /\ ws <> "" /\ all_chars JS.is_space ws = true
    /\ JS.is_upper c = true.

(** The first occurrence of the numbered pattern in [line], anywhere in
    the line, has the numeral [num]. *)
Definition first_numbered (line num : string) : Prop :=
  exists pre suf : string,
    line = pre +:+ suf /\ numbered_at suf num
    /\ forall pre' suf' num' : string,
         line = pre' +:+ suf' ->
         (String.length pre' < String.length pre)%nat ->
         ~ numbered_at suf' num'.

(** Ascending order of numerals by value. *)
Definition by_value (a b : string) : Prop :=
  JS.parseInt_digits a <= JS.parseInt_digits b.

(** Three windows: numbers that do not begin their lines, numbers with
    no period, and one number written in two ways. *)
Definition window_not_leading : string :=
  "Pick 1. Apply" +:+ JS.nl +:+ "Pick 2. Skip".
Definition window_no_period : string :=
  "1 Apply" +:+ JS.nl +:+ "2 Skip".
Definition window_same_number : string :=
  "1. Apply" +:+ JS.nl +:+ "01. Again".

(** The numbered-list matcher as the specification words it: a line
    counts when it begins with an integer in 1..20 that is followed by
    white space and an uppercase letter; the distinct numbers are
    collected, sorted, and printed. *)
Definition spec_line_number (line : string) : option Z :=
  match Rx.plus JS.is_digit line with
  | (num, rest) :: _ =>
      match Rx.seq (Rx.plus JS.is_space) (Rx.cls JS.is_upper) rest with
      | _ :: _ =>
          let n := JS.parseInt_digits num in
          if (1 <=? n) && (n <=? 20) then Some n else None
      | [] => None
      end
  | [] => None
  end.

Definition spec_numbers (text : string) : list Z :=
  fold_left (fun acc line =>
               match spec_line_number line with
               | Some n => if existsb (Z.eqb n) acc then acc else acc ++ [n]
               | None => acc
               end)
            (JS.split_nl text) [].

(** Decimal text of a number in 1..20. *)
Definition numeral (n : Z) : string :=
  if n <? 10 then String (JS.ascii_of_Z (48 + n)) EmptyString
  else String (JS.ascii_of_Z (48 + n / 10))
         (String (JS.ascii_of_Z (48 + n mod 10)) EmptyString).

Definition spec_numbered (text : string) : option (list Choice) :=
  let ns := sort_by Z.leb (spec_numbers text) in
  if 2 <=? Z.of_nat (length ns)
  then Some (map (fun n => mkChoice (numeral n) (numeral n)) ns)
  else None.

(** The detector, started with an empty window and no held trigger,
    finds a prompt in [text]. *)
Definition detects (stripAnsiModule : string -> string) (patterns : list Pattern)
    (maxLines : Z) (text : string) : Prop :=
  is_Some (parseOptionsWith patterns
             (JS.join_nl (WatcherLib.window stripAnsiModule
                            (WatcherLib.mkWatcher maxLines [] None 0) text))).

(** The fingerprint the detector computes for every parse result. *)
Definition held_hash : string := WatcherLib._hashPrompt "Select option:".

(** Two prompts free of escape sequences: a yes/no question and a
    numbered menu. *)
Definition prompt_yes_no : string := "Proceed? (y/n)".
Definition prompt_menu : string := "1. Apply" +:+ JS.nl +:+ "2. Skip".

(** The same text arriving [n] times, with the clock values [nows]. *)
Definition repeated (text : string) (nows : list Z) : list (string * Z) :=
  map (fun now => (text, now)) nows.

(** The timestamps of [ts] that are still inside the window at [now]. *)
Definition recent (window now : Z) (ts : list Z) : list Z :=
  List.filter (fun t => now - t <? window) ts.

(** The UTF-8 bytes of a string whose code units are all below 128. *)
Definition ascii_bytes (s : string) : list Byte.byte :=
  map byte_of_ascii (list_ascii_of_string s).

(** A manager with a running session: pty 7, 3 bytes buffered. *)
Definition running_manager : PtyManager.PTYManager :=
  PtyManager.mkPTY (Some 7%nat) (100 * 1024) (ascii_bytes "abc") None true 120 40.

(** A server with one known session, created at time 0, and nothing
    else; a connection of address 10.0.0.9 that sent 30 messages at time
    1000 and has 4 violations. *)
Definition idle_server : Server.Srv :=
  Server.mkSrv (PtyManager.constructor None None None) (WatcherLib.constructor None)
    (NotifierLib.constructor None None None None None)
    {[ "tok" := 0 ]} ∅ ∅ false false false [] [] [] [].


(** A server whose session runs and whose detector holds a trigger. *)
Definition awaiting_server : Server.Srv :=
  Server.mkSrv running_manager
    (WatcherLib.mkWatcher 50 [prompt_yes_no] (Some held_hash) 1000)
    (NotifierLib.mkNotifier "https://ntfy.sh" (Some "claude") None 30 None
       (Some held_hash) 1000 (NotifierLib.mkStats 1 0 0))
    ∅ ∅ ∅ false false false [] [] [] [].

(** The session manager together with the subprocesses that exist:
    those [pty.spawn] has created and whose exit has not been notified
    yet.  Subprocesses are numbered in the order of their creation;
    [created] is the number of the last one. *)
Record Host := mkHost {
  manager : PtyManager.PTYManager;
  subprocesses : list nat;
  created : nat
}.

(** What happens to a host: [spawn] is called ([fails] is the error of
    [pty.spawn], if it throws); [kill] is called; subprocess [h] exits
    and the [onExit] callback registered for it runs. *)
Inductive Action :=
| Spawn (command : string) (args : list string) (fails : option string)
| Kill (signal : string)
| Exited (h : nat) (code : Z) (signal : option Z).

(** A subprocess comes into being when [spawn] gets as far as
    [pty.spawn] and that call returns; [kill] sends a signal and
    removes nothing; the exit of a subprocess that does not exist
    cannot be notified. *)
Definition act (w : Host) (a : Action) : Host :=
  match a with
  | Spawn command args fails =>
      let h := S (created w) in
      let r := PtyManager.spawn (manager w) command args
                 (match fails with
                  | Some e => PtyManager.Throw e
                  | None => PtyManager.Return h
                  end) in
      match snd r with
      | PtyManager.Return _ => mkHost (fst (fst r)) (subprocesses w ++ [h]) h
      | PtyManager.Throw _ => mkHost (fst (fst r)) (subprocesses w) (created w)
      end
  | Kill signal =>
      mkHost (fst (PtyManager.kill (manager w) signal)) (subprocesses w) (created w)
  | Exited h code signal =>
      if existsb (Nat.eqb h) (subprocesses w)
      then mkHost (fst (PtyManager.onExit (manager w) code signal))
             (List.filter (fun k => negb (Nat.eqb k h)) (subprocesses w)) (created w)
      else w
  end.

(** The host after the actions [actions], starting with a new manager
    and no subprocess. *)
Definition host_after (actions : list Action) : Host :=
  fold_left act actions (mkHost (PtyManager.constructor None None None) [] 0%nat).

Definition is_kill (a : Action) : bool :=
  match a with Kill _ => true | _ => false end.

(** What holds of the server at all times: a running session has its
    pseudo-terminal object, and in mock mode no pseudo-terminal object
    is ever created, so that no session runs. *)
Definition srv_ok (s : Server.Srv) : Prop :=
  (PtyManager.running (Server.ptyManager s) = true
   -> is_Some (PtyManager.pty (Server.ptyManager s)))
  /\ (Server.mockMode s = true
      -> PtyManager.running (Server.ptyManager s) = false
         /\ PtyManager.pty (Server.ptyManager s) = None).

(** The events that clear a held trigger: an input message with a
    carriage return in its data that arrives while the session runs,
    and a start request that arrives while none runs. *)
Definition clears (s : Server.Srv) (ev : Server.Event) : Prop :=
  match ev with
  | Server.EvMessage (Some (Server.Input data)) _ =>
      PtyManager.isRunning (Server.ptyManager s) = true /\ JS.includes JS.cr data = true
  | Server.EvMessage (Some (Server.Start _ _)) _ =>
      PtyManager.isRunning (Server.ptyManager s) = false
  | _ => False
  end.

(** The tables of the access layer. *)
Definition access_of (s : Server.Srv)
  : gmap string Z * gmap string Z * gmap string (list Z) :=
  (Server.sessions s, Server.bannedIps s, Server.wsConnections s).

(** The environment of a handler call in which the directory exists and
    [pty.spawn] returns the object [h]. *)
Definition fair (now : Z) (h : nat) : Server.Env :=
  Server.mkEnv now now None (PtyManager.Return h).

End Props.

(* ===================================================================== *)
(** ** Sessions and cookies: [src/app/server.js] *)
(* ===================================================================== *)

Module Auth.

(** [createSession()]: [token] is the value drawn from
    [crypto.randomBytes(32).toString('hex')], [now] is [Date.now()]. *)
Definition createSession (ss : gmap string Z) (token : string) (now : Z)
  : gmap string Z * string :=
  (<[token := now]> ss, token).

(** The sweep that runs every five minutes:
    [if (now - session.created > SESSION_DURATION) sessions.delete(token)]. *)
Definition cleanup (ss : gmap string Z) (now : Z) : gmap string Z :=
  filter (fun kv => ¬ (Server.SESSION_DURATION < now - snd kv)) ss.

(** [/session=([^;]+)/]; the capture is the run after the equals sign. *)
Definition re_session : Rx.t string :=
  Rx.seq (Rx.lit "session=") (Rx.plus (fun c => negb (Ascii.eqb c ";"))).

(** [getSessionFromRequest(req)] on the [Cookie] header ([None] when the
    request has none). *)
Definition getSessionFromRequest (cookie : option string) : option string :=
  match Rx.exec re_session (default "" cookie) with
  | Some (_, tok) => Some tok
  | None => None
  end.

(** The [/api/logout] handler on the session table. *)
Definition logout (ss : gmap string Z) (cookie : option string) : gmap string Z :=
  match getSessionFromRequest cookie with
  | Some EmptyString => ss
  | Some tok => delete tok ss
  | None => ss
  end.

(** [requireAuth] and [/api/auth-check]: the table after the check and
    whether the request goes on. *)
Definition requireAuth (ss : gmap string Z) (cookie : option string) (now : Z)
  : bool * gmap string Z :=
  Server.validateSession ss (getSessionFromRequest cookie) now.

(** The part of a string before the first comma: [s.split(',')[0]]. *)
Fixpoint before_comma (s : string) : string :=
  match s with
  | EmptyString => EmptyString
  | String c s' => if Ascii.eqb c "," then EmptyString else String c (before_comma s')
  end.

(** [getClientIp(req)]: [forwarded] is the [x-forwarded-for] header. *)
Definition getClientIp (forwarded : option string) (remoteAddress : string) : string :=
  match forwarded with
  | None => remoteAddress
  | Some EmptyString => remoteAddress
  | Some f => JS.trim (before_comma f)
  end.

End Auth.

(* ===================================================================== *)
(** ** Notions used to state further properties *)
(* ===================================================================== *)

Module Laws.

(** A call on the session manager, or a callback of the pseudo-terminal. *)
Inductive Call :=
| CallSpawn (command : string) (args : list string) (spawned : PtyManager.Completion nat)
| CallWrite (data : string)
| CallResize (cols rows : Z)
| CallKill (signal : string)
| OnData (data : string)
| OnExit (exitCode : Z) (signal : option Z).

(** The manager after one call. *)
Definition step (Buffer_from : string -> list Byte.byte)
    (m : PtyManager.PTYManager) (c : Call) : PtyManager.PTYManager :=
  match c with
  | CallSpawn command args spawned => fst (fst (PtyManager.spawn m command args spawned))
  | CallWrite data => fst (fst (PtyManager.write m data))
  | CallResize cols rows => fst (PtyManager.resize m cols rows)
  | CallKill signal => fst (PtyManager.kill m signal)
  | OnData data => fst (PtyManager.onData Buffer_from m data)
  | OnExit code signal => fst (PtyManager.onExit m code signal)
  end.

(** The manager after a sequence of calls, starting from a new one. *)
Definition after_calls (Buffer_from : string -> list Byte.byte)
    (o_bufferSize o_cols o_rows : option Z) (calls : list Call)
  : PtyManager.PTYManager :=
  fold_left (step Buffer_from) calls
    (PtyManager.constructor o_bufferSize o_cols o_rows).

(** What holds of a manager at all times: a running session has its
    pseudo-terminal, and the buffer is within the capacity. *)
Definition manager_ok (m : PtyManager.PTYManager) : Prop :=
  (PtyManager.running m = true -> is_Some (PtyManager.pty m))
  /\ Z.of_nat (length (PtyManager.buffer m)) <= PtyManager.bufferSize m.

(** The polynomial hash with multiplier 31, not wrapped. *)
Definition poly31 (s : string) : Z :=
  fold_left (fun acc c => 31 * acc + JS.charCode c) (list_ascii_of_string s) 0.

(** A message as the [message] handler sees it: its size and the two
    clock values read. *)
Record Arrival := mkArrival { size : Z; at_time : Z; ban_time : Z }.

(** A connection receiving messages one after the other: the server and
    the socket at the end, and the arrival times of the messages that
    were dispatched, oldest first. *)
Fixpoint receive (s : Server.Srv) (ws : Server.Socket) (msgs : list Arrival)
  : Server.Srv * Server.Socket * list Z :=
  match msgs with
  | [] => (s, ws, [])
  | a :: rest =>
      let out := Server.on_message s ws (size a) (at_time a) (ban_time a) in
      let r := receive (fst (fst out)) (snd (fst out)) rest in
      (fst r,
       match snd out with
       | Server.Dispatched => at_time a :: snd r
       | _ => snd r
       end)
  end.

(** The clock does not go back over the arrivals, starting at [t]. *)
Fixpoint monotone_from (t : Z) (msgs : list Arrival) : Prop :=
  match msgs with
  | [] => True
  | a :: rest => t <= at_time a /\ monotone_from (at_time a) rest
  end.

(** The time of the last arrival ([t] when there is none). *)
Definition last_time (t : Z) (msgs : list Arrival) : Z :=
  fold_left (fun _ a => at_time a) msgs t.

(** The lists [validateArgs] may return.  Each entry is a flag of the
    table on its own (a flag without a value, or a value-taking flag
    whose value is missing or was refused), or a value-taking flag
    followed by a value its pattern accepts, or a [flag=value] form of
    a value-taking flag with an accepted value. *)
Inductive Shape : list string -> Prop :=
| shape_nil : Shape []
| shape_flag (f : string) (l : list string) :
    is_Some (Args.own Args.ALLOWED_CLAUDE_ARGS f) -> Shape l -> Shape (f :: l)
| shape_pair (f v : string) (p : string -> bool) (l : list string) :
    Args.lookup f = Args.Regex p -> p v = true ->
    String.prefix "-" v = false -> Shape l -> Shape (f :: v :: l)
| shape_eq (f v : string) (p : string -> bool) (l : list string) :
    Args.lookup f = Args.Regex p -> p v = true ->
    Shape l -> Shape ((f +:+ "=" +:+ v) :: l).

(** Pattern [a] comes no later than [b] in descending priority. *)
Definition prio_desc (a b : OptionParser.Pattern) : Prop :=
  OptionParser.priority b <= OptionParser.priority a.

(** The patterns of [ps] whose priority is [k], in the order of [ps]. *)
Definition with_priority (k : Z) (ps : list OptionParser.Pattern)
  : list OptionParser.Pattern :=
  List.filter (fun p => OptionParser.priority p =? k) ps.

(** Pattern [p] recognises the text and extracts at least one choice. *)
Definition qualifies (p : OptionParser.Pattern) (recentLines : string) : Prop :=
  exists (m : list string) (o : OptionParser.Choice) (os : list OptionParser.Choice),
    OptionParser.regex p recentLines = Some m
    /\ OptionParser.extract p m recentLines = Some (o :: os).

(** The text [parseOptions] runs the patterns on. *)
Definition recentLines_of (text : string) : string :=
  JS.join_nl (JS.arr_slice (JS.split_nl (JS.trim text)) (-50)).

(** The address is banned at the time the ban check reads. *)
Definition banned_at (s : Server.Srv) (ip : string) (t : Z) : bool :=
  match Server.bannedIps s !! ip with
  | Some expiry => t <? expiry
  | None => false
  end.

(** Arrival times one millisecond apart, from 1000. *)
Definition seq_Z_times (n : nat) : list Z :=
  map (fun k => 1000 + Z.of_nat k) (seq 0 n).

(** An argument [validateArgs] adds on its own: free of dangerous
    characters, and either a [flag=value] form whose value the flag's
    pattern accepts, or an allowed flag. *)
Definition single_push (x : string) : Prop :=
  Args.is_dangerous x = false
  /\ ((exists (f v : string) (p : string -> bool),
         x = f +:+ "=" +:+ v /\ Args.lookup f = Args.Regex p /\ p v = true)
      \/ is_Some (Args.own Args.ALLOWED_CLAUDE_ARGS x)).

(** A flag and the value [validateArgs] adds together with it. *)
Definition pair_push (x y : string) : Prop :=
  Args.is_dangerous x = false /\ Args.is_dangerous y = false
  /\ String.prefix "-" y = false
  /\ exists p : string -> bool, Args.lookup x = Args.Regex p /\ p y = true.

(** Nine flags and a flag with its value. *)
Definition eleven_args : list string :=
  ["-y"; "-y"; "-y"; "-y"; "-y"; "-y"; "-y"; "-y"; "-y"; "--model"; "opus"].

(** The notifier the server builds, with a topic configured. *)
Definition ntfy_notifier : NotifierLib.Notifier :=
  NotifierLib.constructor (Some "https://ntfy.sh") (Some "claude") None (Some 30)
    (Some "https://localhost/").

(** The test of the loop that fills the rolling window. *)
Definition nonblank (line : string) : bool := 0 <? JS.strlen (JS.trim line).

(** A line as the rolling window holds them: not blank, and without a
    line feed. *)
Definition tidy (line : string) : Prop :=
  nonblank line = true
  /\ Props.all_chars (fun c => negb (JS.charCode c =? 10)) line = true.

(** A choice of the parenthesised-letter pattern: the text holds
    ["(c)word"] for a letter [c] and a word of letters; the value is the
    letter in lower case and the label that letter in upper case
    followed by the word. *)
Definition letter_choice (text : string) (o : OptionParser.Choice) : Prop :=
  exists (c : ascii) (word pre post : string),
    text = pre +:+ "(" +:+ String c (")" +:+ word +:+ post)
    /\ JS.is_alpha c = true
    /\ word <> "" /\ Props.all_chars JS.is_alpha word = true
    /\ JS.is_lower (JS.lower_char c) = true
    /\ JS.is_upper (JS.upper_char (JS.lower_char c)) = true
    /\ OptionParser.value o = String (JS.lower_char c) EmptyString
    /\ OptionParser.label o = String (JS.upper_char (JS.lower_char c)) word.

(** A choice of the numbered pattern. *)
Definition numbered_choice (o : OptionParser.Choice) : Prop :=
  OptionParser.label o = OptionParser.value o /\ Props.in_1_20 (OptionParser.value o).

(** The server after [broadcastOutput] was called on each chunk, each
    in its environment, and nothing else happened in between. *)
Definition relay (stripAnsiModule : string -> string)
    (patterns : list OptionParser.Pattern) (s : Server.Srv)
    (chunks : list (string * Server.Env)) : Server.Srv :=
  fold_left (fun s' c => Server.broadcastOutput stripAnsiModule patterns s' (fst c) (snd c))
            chunks s.

(** The chunks with the clock value [process] reads for each. *)
Definition clocked (chunks : list (string * Server.Env)) : list (string * Z) :=
  map (fun c => (fst c, Server.t_process (snd c))) chunks.

(** The triggers among the values [process] returned, in order. *)
Definition triggers (rs : list (option WatcherLib.Trigger)) : list WatcherLib.Trigger :=
  flat_map (fun r => match r with Some t => [t] | None => [] end) rs.

(** The messages of a sequence of chunks: for each chunk its [output]
    message, followed by the [options] message of the trigger [process]
    returned for that chunk, if it returned one. *)
Fixpoint chunk_log (chunks : list string) (rs : list (option WatcherLib.Trigger))
  : list Server.Message :=
  match chunks, rs with
  | data :: chunks', r :: rs' =>
      Server.MsgOutput data
        :: match r with Some t => [Server.MsgOptions t] | None => [] end
        ++ chunk_log chunks' rs'
  | _, _ => []
  end.

(** The notification attempts so far: requests handed to [fetch], and
    calls counted as debounced. *)
Definition attempts (s : Server.Srv) : Z :=
  Z.of_nat (length (Server.requests s))
  + NotifierLib.debounced (NotifierLib.stats (Server.notifier s)).

(** The server state apart from the detector, the notifier and the
    three logs [broadcastOutput] writes. *)
Definition rest_of (s : Server.Srv)
  : PtyManager.PTYManager * gmap string Z * gmap string Z * gmap string (list Z)
    * bool * bool * bool * list PtyManager.Effect :=
  (Server.ptyManager s, Server.sessions s, Server.bannedIps s, Server.wsConnections s,
   Server.themeSent s, Server.mockMode s, Server.mockInputHandler s, Server.ptyCalls s).

(** A detector with two lines in its window. *)
Definition two_line_watcher : WatcherLib.Watcher :=
  WatcherLib.mkWatcher 2 ["Analyzing..."; "Found 3 files"] None 0.

End Laws.

(* ===================================================================== *)
(** ** Pattern library: properties *)
(* ===================================================================== *)

Section ParserFacts.
Import OptionParser.

Lemma first_match_prompt (ps : list Pattern) (recentLines : string) (r : ParseResult) :
  first_match ps recentLines = Some r -> prompt r = "Select option:".
Proof.
  induction ps as [|p ps IH]; simpl; [discriminate|].
  destruct (regex p recentLines) as [m|]; [|exact IH].
  destruct (extract p m recentLines) as [[|o os]|]; try exact IH.
  intros [= <-]. reflexivity.
Qed.

Lemma parseOptionsWith_prompt (ps : list Pattern) (text : string) (r : ParseResult) :
  parseOptionsWith ps text = Some r -> prompt r = "Select option:".
Proof.
  unfold parseOptionsWith. destruct text; [discriminate|].
  apply first_match_prompt.
Qed.

Lemma parseOptionsWith_nonempty (ps : list Pattern) (text : string) (r : ParseResult) :
  parseOptionsWith ps text = Some r -> options r <> [].
Proof.
  unfold parseOptionsWith. destruct text; [discriminate|].
  generalize (JS.join_nl (JS.arr_slice (JS.split_nl (JS.trim (String a text))) (-50))).
  intros recent. induction ps as [|p ps IH]; simpl; [discriminate|].
  destruct (regex p recent) as [m|]; [|exact IH].
  destruct (extract p m recent) as [[|o os]|]; try exact IH.
  intros [= <-]. discriminate.
Qed.
End ParserFacts.

(** C5. [parseOptions] on ["Proceed? (y/n)"] yields the choices Yes/"y" and
    No/"n"; on the two lines ["1. Apply"] and ["2. Skip"] it yields "1"/"1"
    and "2"/"2"; on ["(a)pply (r)eject"] it yields Apply/"a" and
    Reject/"r". *)
Theorem C5_parseOptions_examples :
  option_map OptionParser.options (OptionParser.parseOptions "Proceed? (y/n)")
    = Some [OptionParser.mkChoice "Yes" "y"; OptionParser.mkChoice "No" "n"]
  /\ option_map OptionParser.options
       (OptionParser.parseOptions ("1. Apply" +:+ JS.nl +:+ "2. Skip"))
    = Some [OptionParser.mkChoice "1" "1"; OptionParser.mkChoice "2" "2"]
  /\ option_map OptionParser.options
       (OptionParser.parseOptions
          ("Select an option:" +:+ JS.nl +:+ "1. Apply" +:+ JS.nl +:+ "2. Skip" +:+ JS.nl))
    = Some [OptionParser.mkChoice "1" "1"; OptionParser.mkChoice "2" "2"]
  /\ option_map OptionParser.options (OptionParser.parseOptions "(a)pply (r)eject")
    = Some [OptionParser.mkChoice "Apply" "a"; OptionParser.mkChoice "Reject" "r"].
Proof. repeat split; vm_compute; reflexivity. Qed.

(* ===================================================================== *)
(** ** Trigger detector: properties *)
(* ===================================================================== *)

Section DetectorFacts.
Import OptionParser WatcherLib Props.

Variable stripAnsiModule : string -> string.
Variable patterns : list Pattern.

Local Abbreviation process := (process stripAnsiModule patterns).
Local Abbreviation window := (window stripAnsiModule).
Local Abbreviation feed := (feed stripAnsiModule patterns).

Lemma window_depends (w w' : Watcher) (data : string) :
  maxLines w = maxLines w' -> lines w = lines w' -> window w data = window w' data.
Proof. unfold WatcherLib.window. intros -> ->. reflexivity. Qed.

Lemma process_maxLines (w : Watcher) (data : string) (now : Z) :
  maxLines (next (process w data now)) = maxLines w.
Proof.
  unfold WatcherLib.process.
  destruct (parseOptionsWith patterns _) as [r|]; [|reflexivity].
  destruct (negb _); reflexivity.
Qed.

Lemma process_lines (w : Watcher) (data : string) (now : Z) :
  lines (next (process w data now)) = window w data.
Proof.
  unfold WatcherLib.process.
  destruct (parseOptionsWith patterns _) as [r|]; [|reflexivity].
  destruct (negb _); reflexivity.
Qed.

(** A detector with no held trigger reports every prompt it finds. *)
Lemma process_idle (w : Watcher) (data : string) (now : Z) (r : ParseResult) :
  lastTrigger w = None ->
  parseOptionsWith patterns (JS.join_nl (window w data)) = Some r ->
  returned (process w data now)
    = Some (mkTrigger "options" (prompt r) (options r) (patternName r) true)
  /\ onTrigger (process w data now) = Some r
  /\ lastTrigger (next (process w data now)) = Some held_hash
  /\ lastTriggerTime (next (process w data now)) = now.
Proof.
  intros Hnone Hparse. unfold WatcherLib.process. rewrite Hparse, Hnone.
  rewrite bool_decide_eq_false_2 by discriminate. simpl.
  rewrite (parseOptionsWith_prompt _ _ _ Hparse). repeat split; reflexivity.
Qed.

(** A detector that holds a trigger reports nothing, whatever arrives. *)
Lemma process_awaiting (w : Watcher) (data : string) (now : Z) :
  lastTrigger w = Some held_hash ->
  returned (process w data now) = None
  /\ onTrigger (process w data now) = None
  /\ lastTrigger (next (process w data now)) = Some held_hash.
Proof.
  intros Hheld. unfold WatcherLib.process.
  destruct (parseOptionsWith patterns _) as [r|] eqn:Hparse; [|auto].
  rewrite (parseOptionsWith_prompt _ _ _ Hparse), Hheld.
  rewrite bool_decide_eq_true_2 by reflexivity. simpl. auto.
Qed.

Lemma feed_awaiting (chunks : list (string * Z)) (w : Watcher) :
  lastTrigger w = Some held_hash ->
  events (snd (feed w chunks)) = 0%nat
  /\ lastTrigger (fst (feed w chunks)) = Some held_hash
  /\ maxLines (fst (feed w chunks)) = maxLines w.
Proof.
  revert w. induction chunks as [|[data now] rest IH]; intros w Hheld.
  - simpl. auto.
  - destruct (process_awaiting w data now Hheld) as (Hret & _ & Hnext).
    destruct (IH _ Hnext) as (Hev & Hlast & Hmax).
    cbn [WatcherLib.feed fst snd]. rewrite Hret.
    unfold events in *. cbn [List.filter]. rewrite process_maxLines in Hmax. auto.
Qed.

(** C10. Whenever [parseOptions] returns a result, its prompt is the
    constant ['Select option:'], whatever the pattern table and the
    text; so the trigger returned by the detector, the argument of the
    [onTrigger] notification callback and the trigger of a state
    snapshot all carry that same prompt. *)
Theorem C10_prompt_is_constant :
  (forall (text : string) (r : ParseResult),
      parseOptionsWith patterns text = Some r -> prompt r = "Select option:")
  /\ (forall (w : Watcher) (data : string) (now : Z) (t : Trigger),
      returned (process w data now) = Some t -> t_prompt t = "Select option:")
  /\ (forall (w : Watcher) (data : string) (now : Z) (r : ParseResult),
      onTrigger (process w data now) = Some r -> prompt r = "Select option:")
  /\ (forall (w : Watcher) (lt : LastTrigger),
      getLastTrigger patterns w = Some lt -> lt_prompt lt = "Select option:").
Proof.
  split; [exact (parseOptionsWith_prompt patterns)|].
  split; [|split].
  - intros w data now t. unfold WatcherLib.process.
    destruct (parseOptionsWith patterns _) as [r|] eqn:Hparse; [|discriminate].
    destruct (negb _); [|discriminate].
    intros [= <-]. exact (parseOptionsWith_prompt _ _ _ Hparse).
  - intros w data now r0. unfold WatcherLib.process.
    destruct (parseOptionsWith patterns _) as [r|] eqn:Hparse; [|discriminate].
    destruct (negb _); [|discriminate].
    intros [= <-]. exact (parseOptionsWith_prompt _ _ _ Hparse).
  - intros w lt. unfold getLastTrigger.
    destruct (lastTrigger w) as [[|c h]|]; try discriminate.
    destruct (parseOptionsWith patterns _) as [r|] eqn:Hparse; [|discriminate].
    intros [= <-]. exact (parseOptionsWith_prompt _ _ _ Hparse).
Qed.

(** C3. From a detector with an empty window and no held trigger, a
    text in which the detector finds a prompt, fed over and over,
    produces exactly one [options] event; after [reset()] the same text
    produces an [options] event again. *)
Theorem C3_idempotence (w : Watcher) (text : string)
    (now : Z) (nows : list Z) (now' : Z) :
  lines w = [] -> lastTrigger w = None ->
  detects stripAnsiModule patterns (maxLines w) text ->
  let run := feed w (repeated text (now :: nows)) in
  events (snd run) = 1%nat
  /\ lines (reset (fst run)) = [] /\ lastTrigger (reset (fst run)) = None
  /\ is_Some (returned (process (reset (fst run)) text now')).
Proof.
  intros Hlines Hnone [r Hr] run.
  assert (Hw : parseOptionsWith patterns (JS.join_nl (window w text)) = Some r).
  { rewrite <- Hr. f_equal. f_equal. apply window_depends; [reflexivity|exact Hlines]. }
  destruct (process_idle w text now r Hnone Hw) as (Hret & _ & Hheld & _).
  destruct (feed_awaiting (repeated text nows) _ Hheld) as (Hev & _ & Hmax).
  rewrite process_maxLines in Hmax.
  assert (Hrun : run = (fst (feed (next (process w text now)) (repeated text nows)),
                        returned (process w text now)
                          :: snd (feed (next (process w text now)) (repeated text nows))))
    by reflexivity.
  rewrite Hrun. cbn [fst snd]. split; [|split; [reflexivity|split; [reflexivity|]]].
  - rewrite Hret. unfold events in *. cbn [List.filter length]. rewrite Hev. reflexivity.
  - assert (Hw' : parseOptionsWith patterns
                    (JS.join_nl (window (reset (fst (feed (next (process w text now))
                                                       (repeated text nows)))) text))
                  = Some r).
    { rewrite <- Hr. f_equal. f_equal. apply window_depends; [|reflexivity].
      cbn [reset maxLines]. exact Hmax. }
    destruct (process_idle (reset (fst (feed (next (process w text now))
                                              (repeated text nows))))
                text now' r eq_refl Hw') as (Hret' & _).
    rewrite Hret'. eexists. reflexivity.
Qed.
End DetectorFacts.

Section DetectorExamples.
Import OptionParser WatcherLib Props.

Lemma process_strip_eq (strip strip' : string -> string) (ps : list Pattern)
    (w : Watcher) (data : string) (now : Z) :
  stripAnsi strip data = stripAnsi strip' data ->
  process strip ps w data now = process strip' ps w data now.
Proof.
  intros H. unfold process, window. rewrite H. reflexivity.
Qed.

Lemma split_nl_single (text : string) :
  all_chars (fun c => negb (JS.charCode c =? 10)) text = true ->
  JS.split_nl text = [text].
Proof.
  induction text as [|c text IH]; [reflexivity|].
  cbn [all_chars JS.split_nl]. intros H. apply andb_true_iff in H as [Hc Hrest].
  apply negb_true_iff in Hc. rewrite Hc, (IH Hrest). reflexivity.
Qed.

(** For a text of one line that has no escape sequence and is not blank,
    the detector finds a prompt exactly when the pattern library does. *)
Lemma detects_single_line (strip : string -> string) (ps : list Pattern)
    (maxLines : Z) (text : string) :
  stripAnsi strip text = text ->
  all_chars (fun c => negb (JS.charCode c =? 10)) text = true ->
  0 < JS.strlen (JS.trim text) ->
  1 <= maxLines ->
  detects strip ps maxLines text <-> is_Some (parseOptionsWith ps text).
Proof.
  intros Hstrip Hline Hblank Hmax. unfold detects, window. cbn [lines WatcherLib.maxLines].
  rewrite Hstrip, (split_nl_single text Hline). unfold push_lines. cbn [fold_left].
  apply Z.ltb_lt in Hblank. rewrite Hblank. cbn [app length].
  destruct (maxLines <? Z.of_nat 1) eqn:Hcmp; [apply Z.ltb_lt in Hcmp; lia|].
  unfold JS.join_nl. cbn [String.concat]. reflexivity.
Qed.

(** C10, on the prompt ["Proceed? (y/n)"] and the initial pattern table. *)
Lemma C10_prompt_is_constant_witness :
  option_map prompt (parseOptionsWith sortedPatterns prompt_yes_no)
    = Some "Select option:"
  /\ option_map t_prompt
       (returned (process (fun s => s) sortedPatterns (constructor None)
                    prompt_yes_no 1000))
    = Some "Select option:".
Proof.
  destruct (C10_prompt_is_constant (fun s => s) sortedPatterns) as (H1 & H2 & _).
  split.
  - destruct (parseOptionsWith sortedPatterns prompt_yes_no) as [r|] eqn:E.
    + simpl. f_equal. exact (H1 _ _ E).
    + vm_compute in E. discriminate E.
  - destruct (returned (process (fun s => s) sortedPatterns (constructor None)
                          prompt_yes_no 1000)) as [t|] eqn:E.
    + simpl. f_equal. exact (H2 _ _ _ _ E).
    + vm_compute in E. discriminate E.
Defined.

(** C3, on the prompt ["Proceed? (y/n)"] fed three times to a new
    detector. *)
Lemma C3_idempotence_witness :
  let run := feed (fun s => s) sortedPatterns (constructor None)
               (repeated prompt_yes_no [1000; 2000; 3000]) in
  events (snd run) = 1%nat
  /\ lines (reset (fst run)) = [] /\ lastTrigger (reset (fst run)) = None
  /\ is_Some (returned (process (fun s => s) sortedPatterns (reset (fst run))
                          prompt_yes_no 4000)).
Proof.
  apply (C3_idempotence (fun s => s) sortedPatterns (constructor None)
           prompt_yes_no 1000 [2000; 3000] 4000).
  - reflexivity.
  - reflexivity.
  - vm_compute. eexists. reflexivity.
Defined.

(** C2. A yes/no prompt followed, with no reset in between, by a
    numbered menu: the first produces an [options] event; for the second
    the pattern library returns a different result (the numbered
    choices), yet the detector returns nothing, because the fingerprint
    is taken of the constant prompt text of the two results. *)
Theorem C2_second_prompt_suppressed (strip : string -> string) :
  stripAnsi strip prompt_yes_no = prompt_yes_no ->
  stripAnsi strip prompt_menu = prompt_menu ->
  let p1 := process strip sortedPatterns (constructor None) prompt_yes_no 1000 in
  let p2 := process strip sortedPatterns (next p1) prompt_menu 2000 in
  option_map t_options (returned p1) = Some [mkChoice "Yes" "y"; mkChoice "No" "n"]
  /\ lastTrigger (next p1) = Some held_hash
  /\ option_map options (parseOptions (getBuffer (next p2)))
     = Some [mkChoice "1" "1"; mkChoice "2" "2"]
  /\ returned p2 = None
  /\ onTrigger p2 = None.
Proof.
  intros H1 H2 p1 p2. subst p1 p2.
  rewrite (process_strip_eq strip (fun s => s) _ _ prompt_yes_no) by (rewrite H1; reflexivity).
  rewrite (process_strip_eq strip (fun s => s) _ _ prompt_menu) by (rewrite H2; reflexivity).
  vm_compute. repeat split; reflexivity.
Qed.

Lemma C2_second_prompt_suppressed_witness :
  let p1 := process (fun s => s) sortedPatterns (constructor None) prompt_yes_no 1000 in
  let p2 := process (fun s => s) sortedPatterns (next p1) prompt_menu 2000 in
  option_map t_options (returned p1) = Some [mkChoice "Yes" "y"; mkChoice "No" "n"]
  /\ lastTrigger (next p1) = Some held_hash
  /\ option_map options (parseOptions (getBuffer (next p2)))
     = Some [mkChoice "1" "1"; mkChoice "2" "2"]
  /\ returned p2 = None
  /\ onTrigger p2 = None.
Proof.
  apply (C2_second_prompt_suppressed (fun s => s)); reflexivity.
Defined.
End DetectorExamples.

(* ===================================================================== *)
(** ** Session manager: properties *)
(* ===================================================================== *)

Section BufferFacts.
Import PtyManager Props.

Lemma suffix_length {A} (cap : Z) (l : list A) :
  0 <= cap -> Z.of_nat (length (suffix cap l)) = Z.min cap (Z.of_nat (length l)).
Proof. intros Hcap. unfold suffix. rewrite length_skipn. lia. Qed.

Lemma suffix_short {A} (cap : Z) (l : list A) :
  Z.of_nat (length l) <= cap -> suffix cap l = l.
Proof.
  intros Hlen. unfold suffix.
  replace (length l - Z.to_nat cap)%nat with 0%nat by lia. reflexivity.
Qed.

Lemma suffix_is_suffix {A} (cap : Z) (l : list A) :
  exists old, l = old ++ suffix cap l.
Proof.
  exists (firstn (length l - Z.to_nat cap)%nat l).
  unfold suffix. symmetry. apply firstn_skipn.
Qed.

(** Truncating twice is truncating once. *)
Lemma suffix_app_suffix {A} (cap : Z) (a b : list A) :
  0 <= cap -> suffix cap (suffix cap a ++ b) = suffix cap (a ++ b).
Proof.
  intros Hcap. destruct (Z_le_gt_dec (Z.of_nat (length a)) cap) as [Hle|Hgt].
  - rewrite (suffix_short cap a Hle). reflexivity.
  - pose proof (suffix_length cap a Hcap) as Hlen.
    unfold suffix at 1 3. rewrite !length_app.
    replace (length (suffix cap a) + length b - Z.to_nat cap)%nat
      with (length b) by lia.
    replace (length a + length b - Z.to_nat cap)%nat
      with (length b + (length a - Z.to_nat cap))%nat by lia.
    rewrite <- skipn_skipn. f_equal.
    unfold suffix. rewrite skipn_app.
    replace (length a - Z.to_nat cap - length a)%nat with 0%nat by lia.
    reflexivity.
Qed.

Lemma appendToBuffer_bufferSize (m : PTYManager) (d : list Byte.byte) :
  bufferSize (_appendToBuffer m d) = bufferSize m.
Proof. unfold _appendToBuffer. destruct (_ <? _); reflexivity. Qed.

(** One append keeps the last [bufferSize] bytes of what was held plus
    what arrived. *)
Lemma appendToBuffer_buffer (m : PTYManager) (d : list Byte.byte) :
  0 <= bufferSize m ->
  buffer (_appendToBuffer m d) = suffix (bufferSize m) (buffer m ++ d).
Proof.
  intros Hcap. unfold _appendToBuffer.
  destruct (bufferSize m <? Z.of_nat (length (buffer m ++ d))) eqn:Hcmp; cbn [set_buffer buffer].
  - apply Z.ltb_lt in Hcmp. unfold JS.arr_slice, JS.slice_from, suffix.
    destruct (_ <? 0) eqn:Hneg; [apply Z.ltb_lt in Hneg; lia|].
    f_equal. lia.
  - apply Z.ltb_ge in Hcmp. symmetry. apply suffix_short. exact Hcmp.
Qed.

Variable Buffer_from : string -> list Byte.byte.

Lemma drain_bufferSize (chunks : list string) (m : PTYManager) :
  bufferSize (drain Buffer_from m chunks) = bufferSize m.
Proof.
  revert m. induction chunks as [|c cs IH]; intros m; [reflexivity|].
  cbn [drain fold_left] in *. fold (drain Buffer_from) in *. unfold drain in *.
  rewrite IH. apply appendToBuffer_bufferSize.
Qed.

Lemma drain_buffer (chunks : list string) (m : PTYManager) :
  0 <= bufferSize m ->
  Z.of_nat (length (buffer m)) <= bufferSize m ->
  buffer (drain Buffer_from m chunks)
    = suffix (bufferSize m) (buffer m ++ stream Buffer_from chunks).
Proof.
  revert m. induction chunks as [|c cs IH]; intros m Hcap Hlen.
  - unfold stream. simpl. rewrite app_nil_r. symmetry. apply suffix_short. exact Hlen.
  - unfold drain in *. cbn [fold_left onData fst].
    pose proof (appendToBuffer_bufferSize m (Buffer_from c)) as Hsz.
    pose proof (appendToBuffer_buffer m (Buffer_from c) Hcap) as Hbuf.
    rewrite IH.
    + rewrite Hsz, Hbuf. rewrite suffix_app_suffix by exact Hcap.
      unfold stream. cbn [map concat]. rewrite app_assoc. reflexivity.
    + rewrite Hsz. exact Hcap.
    + rewrite Hsz, Hbuf. rewrite suffix_length by exact Hcap. lia.
Qed.

(** C1. Starting from an empty buffer, after any sequence of chunks:
    while the concatenation of their bytes fits the capacity the buffer
    is that concatenation; once it is longer the buffer is its suffix of
    length equal to the capacity; the buffer is never longer than the
    capacity. *)
Theorem C1_output_buffer (m : PTYManager) (chunks : list string) :
  0 <= bufferSize m -> buffer m = [] ->
  let total := stream Buffer_from chunks in
  let b := buffer (drain Buffer_from m chunks) in
  (Z.of_nat (length total) <= bufferSize m -> b = total)
  /\ (bufferSize m < Z.of_nat (length total) ->
      b = suffix (bufferSize m) total
      /\ (exists old, total = old ++ b)
      /\ Z.of_nat (length b) = bufferSize m)
  /\ Z.of_nat (length b) <= bufferSize m.
Proof.
  intros Hcap Hempty total b.
  assert (Hb : b = suffix (bufferSize m) total).
  { subst b total. rewrite drain_buffer; [|exact Hcap|rewrite Hempty; simpl; lia].
    rewrite Hempty. reflexivity. }
  pose proof (suffix_length (bufferSize m) total Hcap) as Hlen.
  rewrite <- Hb in Hlen.
  split; [|split].
  - intros Hfit. rewrite Hb. apply suffix_short. exact Hfit.
  - intros Hover. split; [exact Hb|]. split; [|lia].
    rewrite Hb. apply suffix_is_suffix.
  - lia.
Qed.
End BufferFacts.

Section ManagerFacts.
Import PtyManager Server Props.

(** C1, with a capacity of 8 bytes and the chunks ["hello"], [" "],
    ["world"]. *)
Lemma C1_output_buffer_witness :
  let m := constructor (Some 8) None None in
  let chunks := ["hello"; " "; "world"] in
  buffer (drain ascii_bytes m chunks) = ascii_bytes "lo world"
  /\ Z.of_nat (length (buffer (drain ascii_bytes m chunks))) = 8.
Proof.
  destruct (C1_output_buffer ascii_bytes (constructor (Some 8) None None)
              ["hello"; " "; "world"]) as (_ & Hover & _).
  - vm_compute. discriminate.
  - reflexivity.
  - destruct Hover as (Hb & _ & Hlen).
    + vm_compute. reflexivity.
    + split; [rewrite Hb; vm_compute; reflexivity | exact Hlen].
Defined.

(** C7, refuted as stated: [kill] on a running session changes the
    running flag. *)
Lemma C7_kill_changes_running :
  ~ (forall (m : PTYManager) (signal : string),
        running (fst (kill m signal)) = running m).
Proof.
  intros H. specialize (H running_manager "SIGTERM").
  vm_compute in H. discriminate H.
Qed.

(** C7, amended. While a session is running, [kill(signal)] signals the
    subprocess and sets the running flag to false at once, leaving the
    other fields as they are; the exit notification that follows finds
    the flag already false and records the exit code.  When no session
    is running [kill] does nothing. *)
Theorem C7_kill_sets_running_false (m : PTYManager) (signal : string) :
  (is_Some (pty m) -> running m = true ->
     kill m signal = (set_running m false, [PtyKill signal])
     /\ running (fst (kill m signal)) = false
     /\ (forall (code : Z) (sig : option Z),
           running (fst (onExit (fst (kill m signal)) code sig)) = false
           /\ exitCode (fst (onExit (fst (kill m signal)) code sig)) = Some code))
  /\ (running m = false -> kill m signal = (m, [])).
Proof.
  split.
  - intros [h Hpty] Hrun. unfold kill. rewrite Hpty, Hrun.
    repeat split; reflexivity.
  - intros Hrun. unfold kill. rewrite Hrun. destruct (pty m); reflexivity.
Qed.

Lemma C7_kill_sets_running_false_witness :
  kill running_manager "SIGTERM"
    = (set_running running_manager false, [PtyKill "SIGTERM"])
  /\ running (fst (kill running_manager "SIGTERM")) = false.
Proof.
  destruct (C7_kill_sets_running_false running_manager "SIGTERM") as (H & _).
  destruct H as (H1 & H2 & _).
  - eexists. reflexivity.
  - reflexivity.
  - split; [exact H1 | exact H2].
Defined.
End ManagerFacts.

(* ===================================================================== *)
(** ** Broadcast / access layer: properties *)
(* ===================================================================== *)

Section AccessFacts.
Import PtyManager WatcherLib Server Props.




End AccessFacts.


(* ===================================================================== *)
(** ** The numbered-list matcher *)
(* ===================================================================== *)

Section RegexFacts.

Lemma append_nil (b : string) : "" +:+ b = b.
Proof. reflexivity. Qed.

Lemma append_cons (x : ascii) (a b : string) : String x a +:+ b = String x (a +:+ b).
Proof. reflexivity. Qed.

Lemma append_assoc (a b c : string) : (a +:+ b) +:+ c = a +:+ (b +:+ c).
Proof.
  induction a as [|x a IH]; [reflexivity|].
  rewrite !append_cons. f_equal. exact IH.
Qed.

Lemma exec_unfold {A} (re : Rx.t A) (s : string) :
  Rx.exec re s =
  match re s with
  | (a, rest) :: _ => Some (Rx.consumed s rest, a)
  | [] => match s with
          | String _ s' => Rx.exec re s'
          | EmptyString => None
          end
  end.
Proof. destruct s; reflexivity. Qed.

(** A match reported by [exec] is the first match at some position,
    and no earlier position has a match. *)
Lemma exec_found {A} (re : Rx.t A) (s whole : string) (a : A) :
  Rx.exec re s = Some (whole, a) ->
  exists (pre suf rest : string) (others : list (A * string)),
    s = pre +:+ suf /\ re suf = (a, rest) :: others
    /\ forall pre' suf' : string,
         s = pre' +:+ suf' -> (String.length pre' < String.length pre)%nat ->
         re suf' = [].
Proof.
  induction s as [|x s IH]; rewrite exec_unfold.
  - destruct (re "") as [|[a0 rest] others] eqn:Hre; [discriminate|].
    intros [= _ <-]. exists "", "", rest, others.
    split; [reflexivity|]. split; [exact Hre|]. simpl. intros; lia.
  - destruct (re (String x s)) as [|[a0 rest] others] eqn:Hre.
    + intros Hex. destruct (IH Hex) as (pre & suf & rest & others & Hs & Hsuf & Hearly).
      exists (String x pre), suf, rest, others.
      split; [rewrite append_cons, <- Hs; reflexivity|]. split; [exact Hsuf|].
      intros [|y pre'] suf' Heq Hlen.
      * rewrite append_nil in Heq. subst suf'. exact Hre.
      * rewrite append_cons in Heq. injection Heq as _ Heq.
        apply (Hearly pre' suf' Heq). simpl in Hlen. lia.
    + intros [= _ <-]. exists "", (String x s), rest, others.
      split; [reflexivity|]. split; [exact Hre|]. simpl. intros; lia.
Qed.

(** Conversely, the first position that has a match is the one [exec]
    reports. *)
Lemma exec_first {A} (re : Rx.t A) (pre suf rest : string) (a : A)
    (others : list (A * string)) :
  re suf = (a, rest) :: others ->
  (forall pre' suf' : string,
      pre +:+ suf = pre' +:+ suf' -> (String.length pre' < String.length pre)%nat ->
      re suf' = []) ->
  exists whole : string, Rx.exec re (pre +:+ suf) = Some (whole, a).
Proof.
  intros Hsuf. induction pre as [|x pre IH]; intros Hearly.
  - rewrite append_nil, exec_unfold, Hsuf. eexists. reflexivity.
  - rewrite exec_unfold.
    rewrite (Hearly "" (String x pre +:+ suf)); [|reflexivity|simpl; lia].
    rewrite append_cons. apply IH. intros pre' suf' Heq Hlen.
    apply (Hearly (String x pre') suf'); [rewrite !append_cons, Heq; reflexivity|simpl; lia].
Qed.

Lemma plus_sound (p : ascii -> bool) (s m rest : string) :
  In (m, rest) (Rx.plus p s) ->
  s = m +:+ rest /\ m <> "" /\ Props.all_chars p m = true.
Proof.
  revert m rest. induction s as [|x s IH]; intros m rest; simpl; [tauto|].
  destruct (p x) eqn:Hpx; [|simpl; tauto].
  rewrite in_app_iff, in_map_iff. intros [([m0 rest0] & Heq & Hin)|[Heq|[]]].
  - simpl in Heq. injection Heq as <- <-.
    destruct (IH _ _ Hin) as (-> & _ & Hall).
    split; [reflexivity|]. split; [discriminate|]. simpl. rewrite Hpx, Hall. reflexivity.
  - injection Heq as <- <-. split; [reflexivity|]. split; [discriminate|].
    simpl. rewrite Hpx. reflexivity.
Qed.

Lemma plus_complete (p : ascii -> bool) (m rest : string) :
  Props.all_chars p m = true -> m <> "" -> In (m, rest) (Rx.plus p (m +:+ rest)).
Proof.
  induction m as [|x m IH]; intros Hall Hne; [congruence|].
  simpl in Hall. apply andb_true_iff in Hall as [Hpx Hall].
  rewrite append_cons. cbn [Rx.plus]. rewrite Hpx. rewrite in_app_iff.
  destruct m as [|y m].
  - right. left. reflexivity.
  - left. apply in_map_iff. exists (String y m, rest).
    split; [reflexivity|]. apply IH; [exact Hall|discriminate].
Qed.

Lemma lit_sound (w s rest : string) (u : unit) :
  In (u, rest) (Rx.lit w s) -> s = w +:+ rest.
Proof.
  unfold Rx.lit. revert s. induction w as [|a w IH]; intros s; simpl.
  - intros [[= _ <-]|[]]. reflexivity.
  - destruct s as [|x s]; [intros []|].
    destruct (Ascii.eqb a x) eqn:Heq; [|intros []].
    apply Ascii.eqb_eq in Heq. subst x. intros Hin. rewrite (IH _ Hin). reflexivity.
Qed.

Lemma lit_complete (w rest : string) : Rx.lit w (w +:+ rest) = [(tt, rest)].
Proof.
  unfold Rx.lit. induction w as [|a w IH]; [reflexivity|].
  rewrite append_cons. cbn [Rx.lit_with]. rewrite Ascii.eqb_refl. exact IH.
Qed.

Lemma cls_spec (p : ascii -> bool) (s rest : string) (c : ascii) :
  In (c, rest) (Rx.cls p s) <-> s = String c rest /\ p c = true.
Proof.
  unfold Rx.cls. destruct s as [|x s]; simpl.
  - split; [intros []|intros [[=] _]].
  - destruct (p x) eqn:Hpx; simpl.
    + split.
      * intros [[= <- <-]|[]]. auto.
      * intros [[= <- <-] _]. auto.
    + split; [intros []|]. intros [[= <- <-] Hc]. congruence.
Qed.

Lemma bind_spec {A B} (r : Rx.t A) (f : A -> Rx.t B) (s : string) (b : B) (rest : string) :
  In (b, rest) (Rx.bind r f s) <->
  exists (a : A) (mid : string), In (a, mid) (r s) /\ In (b, rest) (f a mid).
Proof.
  unfold Rx.bind. rewrite in_flat_map. split.
  - intros ([a mid] & Hin & Hf). exists a, mid. auto.
  - intros (a & mid & Hin & Hf). exists (a, mid). auto.
Qed.
End RegexFacts.

Section NumberedFacts.
Import OptionParser Props.

(** Every match of the numbered pattern at the start of [s] is an
    occurrence in the sense of [numbered_at]. *)
Lemma re_numbered_sound (s num rest : string) (c : ascii) :
  In ((num, c), rest) (re_numbered s) -> numbered_at s num.
Proof.
  unfold re_numbered. rewrite bind_spec.
  intros (num0 & s1 & Hnum & Hrest). unfold Rx.seq in Hrest.
  apply bind_spec in Hrest as (u & s2 & Hdot & Hrest).
  apply bind_spec in Hrest as (ws & s3 & Hws & Hrest).
  apply bind_spec in Hrest as (c0 & s4 & Hc & Hret).
  destruct Hret as [[= <- <- <-]|[]].
  apply plus_sound in Hnum as (-> & Hne & Hdigits).
  apply lit_sound in Hdot as ->.
  apply plus_sound in Hws as (-> & Hwne & Hspaces).
  apply cls_spec in Hc as (-> & Hupper).
  exists ws, c0, s4. repeat split; assumption.
Qed.

(** An occurrence at the start of [s] is found by the pattern. *)
Lemma re_numbered_complete (s num : string) :
  numbered_at s num -> re_numbered s <> [].
Proof.
  intros (ws & c & post & -> & Hne & Hdigits & Hwne & Hspaces & Hupper).
  assert (Hin : In ((num, c), post)
                   (re_numbered (num +:+ "." +:+ ws +:+ String c post))).
  { unfold re_numbered. apply bind_spec. exists num, ("." +:+ ws +:+ String c post).
    split; [apply plus_complete; assumption|].
    unfold Rx.seq. apply bind_spec. exists tt, (ws +:+ String c post).
    split; [rewrite lit_complete; left; reflexivity|].
    apply bind_spec. exists ws, (String c post).
    split; [apply plus_complete; assumption|].
    apply bind_spec. exists c, post.
    split; [apply cls_spec; auto|]. left. reflexivity. }
  intros Hnil. rewrite Hnil in Hin. destruct Hin.
Qed.

Lemma digits_then_period (n1 n2 r1 r2 : string) :
  all_chars JS.is_digit n1 = true -> all_chars JS.is_digit n2 = true ->
  n1 +:+ "." +:+ r1 = n2 +:+ "." +:+ r2 -> n1 = n2.
Proof.
  revert n2. induction n1 as [|x n1 IH]; intros [|y n2] H1 H2 Heq.
  - reflexivity.
  - rewrite append_nil, !append_cons in Heq. injection Heq as <- _.
    simpl in H2. discriminate H2.
  - rewrite append_nil, !append_cons in Heq. injection Heq as -> _.
    simpl in H1. discriminate H1.
  - rewrite !append_cons in Heq. injection Heq as <- Heq.
    simpl in H1, H2. apply andb_true_iff in H1 as [_ H1].
    apply andb_true_iff in H2 as [_ H2].
    f_equal. exact (IH n2 H1 H2 Heq).
Qed.

(** The numeral of an occurrence is determined by where it starts. *)
Lemma numbered_at_unique (s n1 n2 : string) :
  numbered_at s n1 -> numbered_at s n2 -> n1 = n2.
Proof.
  intros (ws1 & c1 & p1 & E1 & _ & D1 & _) (ws2 & c2 & p2 & E2 & _ & D2 & _).
  rewrite E1 in E2. exact (digits_then_period _ _ _ _ D1 D2 E2).
Qed.

(** The numeral found in a line is that of the first occurrence of the
    pattern in the line. *)
Lemma line_number_first (line num : string) :
  line_number line = Some num <-> first_numbered line num.
Proof.
  unfold line_number. split.
  - destruct (Rx.exec re_numbered line) as [[whole [num0 c]]|] eqn:Hex; [|discriminate].
    intros [= ->].
    destruct (exec_found _ _ _ _ Hex) as (pre & suf & rest & others & Hline & Hsuf & Hearly).
    exists pre, suf. split; [exact Hline|]. split.
    + apply (re_numbered_sound suf num rest c). rewrite Hsuf. left. reflexivity.
    + intros pre' suf' num' Heq Hlen Hat.
      apply (re_numbered_complete _ _ Hat). exact (Hearly pre' suf' Heq Hlen).
  - intros (pre & suf & -> & Hat & Hearly).
    destruct (re_numbered suf) as [|[[num0 c] rest] others] eqn:Hsuf.
    + destruct (re_numbered_complete _ _ Hat Hsuf).
    + assert (Hnum : num0 = num).
      { apply (numbered_at_unique suf); [|exact Hat].
        apply (re_numbered_sound suf num0 rest c). rewrite Hsuf. left. reflexivity. }
      subst num0.
      destruct (exec_first re_numbered pre suf rest (num, c) others Hsuf) as [whole Hex].
      * intros pre' suf' Heq Hlen.
        destruct (re_numbered suf') as [|[[n' c'] rest'] others'] eqn:Hsuf'; [reflexivity|].
        exfalso. apply (Hearly pre' suf' n' Heq Hlen).
        apply (re_numbered_sound suf' n' rest' c'). rewrite Hsuf'. left. reflexivity.
      * rewrite Hex. reflexivity.
Qed.

Lemma found_has_In (found : list string) (num : string) :
  found_has found num = true <-> In num found.
Proof.
  unfold found_has. rewrite existsb_exists. split.
  - intros (x & Hin & Heq). apply String.eqb_eq in Heq. subst x. exact Hin.
  - intros Hin. exists num. split; [exact Hin|apply String.eqb_refl].
Qed.

Lemma numbered_step_In (found : list string) (line x : string) :
  In x (numbered_step found line) <->
  In x found \/ (line_number line = Some x /\ in_1_20 x).
Proof.
  unfold numbered_step, line_number, in_1_20.
  destruct (Rx.exec re_numbered line) as [[whole [num c]]|]; [|split; [auto|intros [H|[[=] _]]; exact H]].
  destruct (found_has found num) eqn:Hhas; cbn [negb andb].
  - apply found_has_In in Hhas. split; [auto|].
    intros [H|[[= ->] _]]; assumption.
  - destruct (1 <=? JS.parseInt_digits num) eqn:Hlo; cbn [andb];
      [destruct (JS.parseInt_digits num <=? 20) eqn:Hhi|].
    + apply Z.leb_le in Hlo, Hhi. rewrite in_app_iff. split.
      * intros [H|[<-|[]]]; [auto|]. right. split; [reflexivity|lia].
      * intros [H|[[= ->] _]]; [auto|]. right. left. reflexivity.
    + apply Z.leb_gt in Hhi. split; [auto|]. intros [H|[[= ->] Hr]]; [exact H|lia].
    + apply Z.leb_gt in Hlo. split; [auto|]. intros [H|[[= ->] Hr]]; [exact H|lia].
Qed.

Lemma numbered_step_NoDup (found : list string) (line : string) :
  NoDup found -> NoDup (numbered_step found line).
Proof.
  intros Hnd. unfold numbered_step.
  destruct (Rx.exec re_numbered line) as [[whole [num c]]|]; [|exact Hnd].
  destruct (found_has found num) eqn:Hhas; cbn [negb andb]; [exact Hnd|].
  destruct (_ && _); [|exact Hnd].
  apply NoDup_app. split; [exact Hnd|]. split; [|apply NoDup_singleton].
  intros x Hx Hx'. apply list_elem_of_In in Hx. apply list_elem_of_In in Hx'.
  destruct Hx' as [<-|[]]. apply found_has_In in Hx. congruence.
Qed.

Lemma numbered_fold (lines : list string) (found : list string) :
  NoDup found ->
  NoDup (fold_left numbered_step lines found)
  /\ forall x : string,
       In x (fold_left numbered_step lines found) <->
       In x found \/ exists line : string,
                       In line lines /\ line_number line = Some x /\ in_1_20 x.
Proof.
  revert found. induction lines as [|line lines IH]; intros found Hnd.
  - simpl. split; [exact Hnd|]. intros x. split; [auto|].
    intros [H|(line & [] & _)]. exact H.
  - cbn [fold_left].
    destruct (IH _ (numbered_step_NoDup found line Hnd)) as (Hnd' & Hin).
    split; [exact Hnd'|]. intros x. rewrite Hin, numbered_step_In. split.
    + intros [[H|H]|(l & Hl & H)]; [auto| |].
      * right. exists line. split; [left; reflexivity|exact H].
      * right. exists l. split; [right; exact Hl|exact H].
    + intros [H|(l & [<-|Hl] & H)]; [auto|auto|].
      right. exists l. auto.
Qed.
End NumberedFacts.

Section SortFacts.
Import OptionParser.
Context {A : Type} (key : A -> Z).

Local Abbreviation key_le := (fun a b : A => key a <=? key b).
Local Abbreviation ascending := (fun a b : A => key a <= key b).

Lemma insert_by_perm (x : A) (l : list A) : insert_by key_le x l ≡ₚ x :: l.
Proof.
  induction l as [|y ys IH]; [reflexivity|]. cbn [insert_by].
  destruct (key x <=? key y); [reflexivity|].
  rewrite IH. apply Permutation_swap.
Qed.

Lemma sort_by_perm (l : list A) : sort_by key_le l ≡ₚ l.
Proof.
  induction l as [|x l IH]; [reflexivity|].
  unfold sort_by in *. cbn [fold_right]. rewrite insert_by_perm, IH. reflexivity.
Qed.

Lemma insert_by_sorted (x : A) (l : list A) :
  StronglySorted ascending l -> StronglySorted ascending (insert_by key_le x l).
Proof.
  induction l as [|y ys IH]; intros Hs; cbn [insert_by].
  - constructor; [constructor|constructor].
  - apply StronglySorted_inv in Hs as [Hys Hy].
    destruct (key x <=? key y) eqn:Hcmp.
    + apply Z.leb_le in Hcmp. constructor; [constructor; assumption|].
      constructor; [exact Hcmp|].
      eapply Forall_impl; [exact Hy|]. simpl. intros z Hz. lia.
    + apply Z.leb_gt in Hcmp. constructor; [exact (IH Hys)|].
      apply Forall_forall. intros z Hz. rewrite insert_by_perm in Hz.
      apply elem_of_cons in Hz as [->|Hz]; [lia|].
      rewrite Forall_forall in Hy. exact (Hy z Hz).
Qed.

Lemma sort_by_sorted (l : list A) : StronglySorted ascending (sort_by key_le l).
Proof.
  induction l as [|x l IH]; [constructor|].
  unfold sort_by in *. cbn [fold_right]. apply insert_by_sorted. exact IH.
Qed.
End SortFacts.

Section NumberedMatcher.
Import OptionParser Props.

(** C4, refuted as stated.  Numbers that do not begin their lines are
    collected; numbers with no period after them are not; and one
    number written in two ways gives two choices. *)
Lemma C4_numbered_not_as_specified :
  extract_numbered window_not_leading = Some [mkChoice "1" "1"; mkChoice "2" "2"]
  /\ spec_numbered window_not_leading = None
  /\ extract_numbered window_no_period = None
  /\ spec_numbered window_no_period = Some [mkChoice "1" "1"; mkChoice "2" "2"]
  /\ extract_numbered window_same_number
     = Some [mkChoice "1" "1"; mkChoice "01" "01"]
  /\ JS.parseInt_digits "1" = JS.parseInt_digits "01"
  /\ ~ (forall text : string, extract_numbered text = spec_numbered text).
Proof.
  repeat split; try (vm_compute; reflexivity).
  intros H. specialize (H window_not_leading). vm_compute in H. discriminate H.
Qed.

(** C4, amended.  The numbered-list matcher takes from each line of the
    window the numeral of the first occurrence, anywhere in the line,
    of digits followed by a period, white space and an uppercase
    letter; it collects the distinct numerals whose value is in 1..20,
    sorts them by ascending value and makes each a choice whose label
    and value are both the numeral; it returns a choice set exactly
    when at least two distinct numerals were collected. *)
Theorem C4_numbered_matcher (text : string) :
  let keys := numbered_found text in
  NoDup keys
  /\ (forall num : string,
        In num keys <->
        exists line : string,
          In line (JS.split_nl text) /\ first_numbered line num /\ in_1_20 num)
  /\ exists sorted : list string,
       sorted ≡ₚ keys
       /\ StronglySorted by_value sorted
       /\ ((2 <= length keys)%nat ->
           extract_numbered text = Some (map (fun num => mkChoice num num) sorted))
       /\ ((length keys < 2)%nat -> extract_numbered text = None).
Proof.
  intros keys. subst keys. unfold numbered_found.
  destruct (numbered_fold (JS.split_nl text) [] (NoDup_nil_2 (A:=string))) as (Hnd & Hin).
  split; [exact Hnd|]. split.
  - intros num. rewrite Hin. split.
    + intros [[]|(line & Hl & Hnum & Hr)]. exists line.
      split; [exact Hl|]. split; [apply line_number_first; exact Hnum|exact Hr].
    + intros (line & Hl & Hnum & Hr). right. exists line.
      split; [exact Hl|]. split; [apply line_number_first; exact Hnum|exact Hr].
  - exists (sort_by num_le (fold_left numbered_step (JS.split_nl text) [])).
    pose proof (sort_by_perm JS.parseInt_digits
                  (fold_left numbered_step (JS.split_nl text) [])) as Hperm.
    split; [exact Hperm|]. split; [apply (sort_by_sorted JS.parseInt_digits)|].
    unfold extract_numbered, numbered_found. rewrite length_map.
    fold (@sort_by string num_le). unfold num_le in *.
    rewrite (Permutation_length Hperm).
    split; intros Hlen.
    + destruct (2 <=? _) eqn:Hcmp; [reflexivity|]. apply Z.leb_gt in Hcmp. lia.
    + destruct (2 <=? _) eqn:Hcmp; [|reflexivity]. apply Z.leb_le in Hcmp. lia.
Qed.
End NumberedMatcher.

(* ===================================================================== *)
(** ** Session manager: further properties *)
(* ===================================================================== *)

Section ManagerLaws.
Import PtyManager Props Laws.

Variable Buffer_from : string -> list Byte.byte.

Lemma step_bufferSize (m : PTYManager) (c : Call) :
  bufferSize (step Buffer_from m c) = bufferSize m.
Proof.
  destruct c as [command args spawned|data|c r|signal|data|code signal]; cbn [step].
  - unfold spawn. destruct (running m); [reflexivity|]. destruct spawned; reflexivity.
  - unfold write. destruct (pty m); [destruct (running m)|]; reflexivity.
  - unfold resize. destruct (pty m); [destruct (running m)|]; reflexivity.
  - unfold kill. destruct (pty m); [destruct (running m)|]; reflexivity.
  - unfold onData. cbn [fst]. apply appendToBuffer_bufferSize.
  - reflexivity.
Qed.

Lemma step_ok (m : PTYManager) (c : Call) :
  0 <= bufferSize m -> manager_ok m -> manager_ok (step Buffer_from m c).
Proof.
  intros Hcap [Hpty Hbuf]. unfold manager_ok.
  destruct c as [command args spawned|data|c r|signal|data|code signal]; cbn [step].
  - unfold spawn. destruct (running m) eqn:Hrun; [auto|].
    destruct spawned as [h|e]; cbn [fst running pty buffer bufferSize length].
    + split; [eauto|]. simpl. lia.
    + rewrite Hrun. auto.
  - destruct m as [p bs b e run c0 r0]. unfold write. cbn in *.
    destruct p; [destruct run|]; cbn; auto.
  - destruct m as [p bs b e run c0 r0]. unfold resize. cbn in *.
    destruct p; [destruct run|]; cbn; auto.
  - destruct m as [p bs b e run c0 r0]. unfold kill. cbn in *.
    destruct p; [destruct run|]; cbn; auto; try (split; [discriminate|exact Hbuf]).
  - unfold onData. cbn [fst]. split.
    + unfold _appendToBuffer. destruct (_ <? _); exact Hpty.
    + rewrite appendToBuffer_bufferSize, appendToBuffer_buffer by exact Hcap.
      rewrite suffix_length by exact Hcap. lia.
  - cbn [onExit fst running pty buffer bufferSize]. split; [discriminate|exact Hbuf].
Qed.

Lemma calls_ok (calls : list Call) (m : PTYManager) :
  0 <= bufferSize m -> manager_ok m ->
  manager_ok (fold_left (step Buffer_from) calls m)
  /\ bufferSize (fold_left (step Buffer_from) calls m) = bufferSize m.
Proof.
  revert m. induction calls as [|c calls IH]; intros m Hcap Hok; [auto|].
  cbn [fold_left]. destruct (IH (step Buffer_from m c)) as [Hok' Hsz].
  - rewrite step_bufferSize. exact Hcap.
  - apply step_ok; assumption.
  - split; [exact Hok'|]. rewrite Hsz. apply step_bufferSize.
Qed.

(** X1. Whatever calls and callbacks a manager built with a non-negative
    capacity has gone through (spawn, write, resize, kill, data, exit, in
    any order and with any outcome), a running session has its
    pseudo-terminal object, the buffer holds no more bytes than the
    capacity, and the capacity is the one given at construction. *)
Theorem manager_invariant (o_bufferSize o_cols o_rows : option Z) (calls : list Call) :
  0 <= JS.or_default o_bufferSize (100 * 1024) ->
  let m := after_calls Buffer_from o_bufferSize o_cols o_rows calls in
  (running m = true -> is_Some (pty m))
  /\ Z.of_nat (length (buffer m)) <= bufferSize m
  /\ bufferSize m = JS.or_default o_bufferSize (100 * 1024).
Proof.
  intros Hcap m. subst m. unfold after_calls.
  destruct (calls_ok calls (constructor o_bufferSize o_cols o_rows)) as [[H1 H2] H3].
  - exact Hcap.
  - split; [discriminate|]. cbn [constructor buffer bufferSize length]. simpl. lia.
  - auto.
Qed.

Lemma running_has_pty (calls : list Call) (m : PTYManager) :
  (running m = true -> is_Some (pty m)) ->
  running (fold_left (step Buffer_from) calls m) = true ->
  is_Some (pty (fold_left (step Buffer_from) calls m)).
Proof.
  revert m. induction calls as [|c calls IH]; intros m Hm; [exact Hm|].
  cbn [fold_left]. apply IH.
  destruct c as [command args spawned|data|c r|signal|data|code signal]; cbn [step].
  - unfold spawn. destruct (running m) eqn:Hrun; [auto|].
    destruct spawned as [h|e]; cbn [fst running pty]; [eauto|]. rewrite Hrun. discriminate.
  - destruct m as [p bs b e run c0 r0]. unfold write. cbn in *.
    destruct p; [destruct run|]; cbn; auto.
  - destruct m as [p bs b e run c0 r0]. unfold resize. cbn in *.
    destruct p; [destruct run|]; cbn; auto.
  - destruct m as [p bs b e run c0 r0]. unfold kill. cbn in *.
    destruct p; [destruct run|]; cbn; auto; try discriminate.
  - unfold onData, _appendToBuffer. cbn [fst]. destruct (_ <? _); exact Hm.
  - cbn [onExit fst running]. discriminate.
Qed.

(** X2. In every state a manager can reach, the guarded operations act
    exactly when the session is running: [write] forwards the data and
    otherwise throws ['PTY not running'], [kill] signals the subprocess
    and otherwise does nothing, [resize] stores the geometry in both
    cases and propagates it only to a running session; [write] never
    changes the manager. *)
Theorem guarded_operations (o_bufferSize o_cols o_rows : option Z) (calls : list Call)
    (data signal : string) (c r : Z) :
  let m := after_calls Buffer_from o_bufferSize o_cols o_rows calls in
  write m data
    = (if running m then (m, [PtyWrite data], Return tt)
       else (m, [], Throw "PTY not running"))
  /\ kill m signal
     = (if running m then (set_running m false, [PtyKill signal]) else (m, []))
  /\ snd (resize m c r) = (if running m then [PtyResize c r] else [])
  /\ cols (fst (resize m c r)) = c /\ rows (fst (resize m c r)) = r.
Proof.
  intros m.
  assert (Hpty : running m = true -> is_Some (pty m)).
  { subst m. unfold after_calls. apply running_has_pty. discriminate. }
  unfold write, kill, resize. destruct (running m) eqn:Hrun.
  - destruct (Hpty eq_refl) as [h Hh]. rewrite Hh. repeat split; reflexivity.
  - destruct (pty m); repeat split; reflexivity.
Qed.

(** X3. A successful start empties the buffer: whatever the buffer held
    from an earlier session, after [spawn] and any sequence of chunks it
    holds the last [bufferSize] bytes of those chunks only. *)
Theorem spawn_starts_afresh (m : PTYManager) (command : string) (args : list string)
    (h : nat) (chunks : list string) :
  running m = false -> 0 <= bufferSize m ->
  let started := spawn m command args (Return h) in
  snd started = Return true
  /\ running (fst (fst started)) = true
  /\ exitCode (fst (fst started)) = None
  /\ buffer (drain Buffer_from (fst (fst started)) chunks)
     = suffix (bufferSize m) (stream Buffer_from chunks).
Proof.
  intros Hrun Hcap started. subst started. unfold spawn. rewrite Hrun.
  cbn [fst snd running exitCode]. repeat split.
  rewrite drain_buffer; cbn [bufferSize buffer length]; [reflexivity|exact Hcap|].
  simpl. lia.
Qed.

(** X4. [kill] makes room for a new session at once: after [kill] on a
    running session a [spawn] is accepted without waiting for the exit
    notification; when the notification of the old subprocess then
    arrives, the manager records the new session as not running, with
    the old exit code, while keeping the new pseudo-terminal object. *)
Theorem kill_then_spawn (m : PTYManager) (signal command : string)
    (args : list string) (h : nat) (code : Z) (sig : option Z) :
  running m = true -> is_Some (pty m) ->
  let killed := fst (kill m signal) in
  let started := spawn killed command args (Return h) in
  let late := fst (onExit (fst (fst started)) code sig) in
  snd started = Return true
  /\ running (fst (fst started)) = true
  /\ pty (fst (fst started)) = Some h
  /\ running late = false
  /\ exitCode late = Some code
  /\ pty late = Some h.
Proof.
  intros Hrun [h0 Hpty] killed started late. subst killed started late.
  unfold kill, spawn. rewrite Hpty, Hrun. cbn. repeat split; reflexivity.
Qed.
End ManagerLaws.

Section ManagerLawsExamples.
Import PtyManager Props Laws.

Lemma manager_invariant_witness :
  let m := after_calls ascii_bytes (Some 4) None None
             [CallSpawn "claude" [] (Return 1%nat); OnData "hello"; CallKill "SIGTERM"] in
  (running m = true -> is_Some (pty m))
  /\ Z.of_nat (length (buffer m)) <= bufferSize m
  /\ bufferSize m = 4.
Proof.
  apply (manager_invariant ascii_bytes (Some 4) None None
           [CallSpawn "claude" [] (Return 1%nat); OnData "hello"; CallKill "SIGTERM"]).
  vm_compute. discriminate.
Defined.

Lemma spawn_starts_afresh_witness :
  buffer (drain ascii_bytes
            (fst (fst (spawn (set_running running_manager false) "claude" []
                         (Return 9%nat))))
            ["xy"; "z"])
  = ascii_bytes "xyz".
Proof.
  destruct (spawn_starts_afresh ascii_bytes (set_running running_manager false)
              "claude" [] 9%nat ["xy"; "z"]) as (_ & _ & _ & H).
  - reflexivity.
  - vm_compute. discriminate.
  - rewrite H. vm_compute. reflexivity.
Defined.

Lemma kill_then_spawn_witness :
  running (fst (onExit (fst (fst (spawn (fst (kill running_manager "SIGTERM"))
                                    "claude" [] (Return 8%nat)))) 0 None))
  = false.
Proof.
  destruct (kill_then_spawn running_manager "SIGTERM" "claude" [] 8%nat 0 None)
    as (_ & _ & _ & H & _).
  - reflexivity.
  - eexists. reflexivity.
  - exact H.
Defined.
End ManagerLawsExamples.

(* ===================================================================== *)
(** ** Broadcast / access layer: further properties *)
(* ===================================================================== *)

Section AdmissionLaws.
Import PtyManager WatcherLib Server Props Laws.

(** X5. A connection is accepted exactly when its address is not
    banned, its session is valid and fewer than [WS_RATE_LIMIT]
    connections of the address were accepted within the last
    [WS_WINDOW]; the accepted socket starts with no violation and no
    timestamp, and the time is added to those of the address.  The
    refusals come in this order: ban (4403), session (4001), rate
    (4029). *)
Theorem admission_decision (s : Srv) (ip : string) (token : option string)
    (t_ban t_session now : Z) :
  let ok_session := fst (validateSession (sessions s) token t_session) in
  let seen := recent WS_WINDOW now (default [] (wsConnections s !! ip)) in
  let out := on_connection s ip token t_ban t_session now in
  (banned_at s ip t_ban = true -> snd out = Rejected 4403 "Temporarily banned")
  /\ (banned_at s ip t_ban = false -> ok_session = false ->
      snd out = Rejected 4001 "Unauthorized")
  /\ (banned_at s ip t_ban = false -> ok_session = true ->
      WS_RATE_LIMIT <= Z.of_nat (length seen) ->
      snd out = Rejected 4029 "Rate limited")
  /\ (banned_at s ip t_ban = false -> ok_session = true ->
      Z.of_nat (length seen) < WS_RATE_LIMIT ->
      snd out = Accepted (mkSocket ip 0 [] None)
      /\ wsConnections (fst out) !! ip = Some (seen ++ [now]))
  /\ ((exists ws, snd out = Accepted ws) <->
      banned_at s ip t_ban = false /\ ok_session = true
      /\ Z.of_nat (length seen) < WS_RATE_LIMIT).
Proof.
  intros ok_session seen out. subst ok_session seen out.
  unfold on_connection, banned_at, recent.
  destruct (match bannedIps s !! ip with Some e => t_ban <? e | None => false end) eqn:Hban.
  { cbn [snd]. split; [reflexivity|]. split; [discriminate|]. split; [discriminate|].
    split; [discriminate|]. split; [intros [ws [=]]|intros (H & _); discriminate H]. }
  destruct (fst (validateSession (sessions s) token t_session)) eqn:Hval; cbn [negb].
  2:{ cbn [snd]. split; [discriminate|]. split; [reflexivity|].
      split; [intros _ H; discriminate H|]. split; [intros _ H; discriminate H|].
      split; [intros [ws [=]]|intros (_ & H & _); discriminate H]. }
  unfold set_sessions at 1 2. cbn [wsConnections].
  destruct (WS_RATE_LIMIT <=? _) eqn:Hrate; cbn [fst snd].
  - apply Z.leb_le in Hrate. split; [discriminate|]. split; [intros _ H; discriminate H|].
    split; [reflexivity|]. split; [intros _ _ H; lia|].
    split; [intros [ws [=]]|intros (_ & _ & H); lia].
  - apply Z.leb_gt in Hrate. split; [discriminate|]. split; [intros _ H; discriminate H|].
    split; [intros _ _ H; lia|]. split.
    + intros _ _ _. split; [reflexivity|].
      unfold set_wsConnections. cbn [wsConnections]. apply lookup_insert_eq.
    + split; [intros _; auto|]. intros _. eexists. reflexivity.
Qed.

(** X6. A refused connection leaves the bans and the recorded
    connections as they are, for every reason of refusal; an accepted
    one changes the record of its own address only, and that record
    never holds more than [WS_RATE_LIMIT] times.  The bans are never
    changed by a connection attempt. *)
Theorem admission_frame (s : Srv) (ip : string) (token : option string)
    (t_ban t_session now : Z) :
  let out := on_connection s ip token t_ban t_session now in
  bannedIps (fst out) = bannedIps s
  /\ ((forall code reason, snd out = Rejected code reason ->
       wsConnections (fst out) = wsConnections s))
  /\ (forall other : string, other <> ip ->
        wsConnections (fst out) !! other = wsConnections s !! other)
  /\ (forall ws, snd out = Accepted ws ->
        exists ts : list Z,
          wsConnections (fst out) !! ip = Some ts
          /\ Z.of_nat (length ts) <= WS_RATE_LIMIT)
  /\ ptyManager (fst out) = ptyManager s /\ watcher (fst out) = watcher s
  /\ broadcasts (fst out) = broadcasts s.
Proof.
  intros out. subst out. unfold on_connection.
  destruct (match bannedIps s !! ip with Some e => t_ban <? e | None => false end).
  { cbn [fst snd]. repeat split; try reflexivity. intros ws [=]. }
  destruct (negb _).
  { cbn [fst snd]. repeat split; try reflexivity. intros ws [=]. }
  unfold set_sessions, set_wsConnections. cbn [wsConnections].
  destruct (WS_RATE_LIMIT <=? _) eqn:Hrate; cbn [fst snd bannedIps wsConnections
    ptyManager watcher broadcasts].
  - repeat split; try reflexivity. intros ws [=].
  - apply Z.leb_gt in Hrate. repeat split; try reflexivity.
    + intros code reason [=].
    + intros other Hne. apply lookup_insert_ne. congruence.
    + intros ws _. eexists. split; [apply lookup_insert_eq|].
      rewrite length_app. cbn [length]. unfold WS_RATE_LIMIT in *. lia.
Qed.
End AdmissionLaws.

Section MessageLaws.
Import PtyManager WatcherLib Server Props Laws.

Lemma recent_app (w now : Z) (a b : list Z) :
  recent w now (a ++ b) = recent w now a ++ recent w now b.
Proof. unfold recent. apply List.filter_app. Qed.

Lemma recent_length (w now : Z) (l : list Z) :
  (length (recent w now l) <= length l)%nat.
Proof.
  unfold recent. induction l as [|t l IH]; [reflexivity|].
  cbn [List.filter]. destruct (now - t <? w); cbn [length]; lia.
Qed.

(** What the window forgot by [now] stays forgotten later. *)
Lemma recent_recent (w now now' : Z) (l : list Z) :
  now <= now' -> recent w now' (recent w now l) = recent w now' l.
Proof.
  intros Hle. unfold recent. induction l as [|t l IH]; [reflexivity|].
  cbn [List.filter]. destruct (now - t <? w) eqn:H1.
  - cbn [List.filter]. rewrite IH. reflexivity.
  - rewrite IH. destruct (now' - t <? w) eqn:H2; [|reflexivity].
    apply Z.ltb_lt in H2. apply Z.ltb_ge in H1. lia.
Qed.

Lemma last_time_cons (t : Z) (a : Arrival) (msgs : list Arrival) :
  last_time t (a :: msgs) = last_time (at_time a) msgs.
Proof. reflexivity. Qed.

Lemma last_time_ge (msgs : list Arrival) (t : Z) :
  monotone_from t msgs -> t <= last_time t msgs.
Proof.
  revert t. induction msgs as [|a msgs IH]; intros t Hm; [unfold last_time; simpl; lia|].
  destruct Hm as [Hle Hm]. rewrite last_time_cons. specialize (IH _ Hm). lia.
Qed.

(** The socket's window and the list of all dispatched arrivals agree on
    what is recent, now and later. *)
Lemma receive_window (msgs : list Arrival) (s : Srv) (ws : Socket)
    (before : list Z) (t : Z) :
  (forall now, t <= now ->
     recent MESSAGE_WINDOW now before = recent MESSAGE_WINDOW now (messageTimestamps ws)) ->
  Z.of_nat (length (messageTimestamps ws)) <= MESSAGE_RATE_LIMIT ->
  monotone_from t msgs ->
  let r := receive s ws msgs in
  (forall now, last_time t msgs <= now ->
     recent MESSAGE_WINDOW now (before ++ snd r)
     = recent MESSAGE_WINDOW now (messageTimestamps (snd (fst r))))
  /\ Z.of_nat (length (messageTimestamps (snd (fst r)))) <= MESSAGE_RATE_LIMIT.
Proof.
  revert s ws before t. induction msgs as [|a msgs IH]; intros s ws before t Hagree Hlen Hmono.
  - cbn [receive fst snd]. rewrite app_nil_r. split; [exact Hagree|exact Hlen].
  - destruct Hmono as [Hle Hmono]. cbn [receive]. rewrite last_time_cons.
    set (out := on_message s ws (size a) (at_time a) (ban_time a)).
    assert (Hout :
      (forall now, at_time a <= now ->
         recent MESSAGE_WINDOW now
           (before ++ match snd out with Dispatched => [at_time a] | _ => [] end)
         = recent MESSAGE_WINDOW now (messageTimestamps (snd (fst out))))
      /\ Z.of_nat (length (messageTimestamps (snd (fst out)))) <= MESSAGE_RATE_LIMIT).
    { subst out. unfold on_message.
      destruct (65536 <? size a).
      { cbn [fst snd messageTimestamps]. rewrite app_nil_r.
        split; [|exact Hlen]. intros now Hnow. apply Hagree. lia. }
      fold (recent MESSAGE_WINDOW (at_time a) (messageTimestamps ws)).
      pose proof (recent_length MESSAGE_WINDOW (at_time a) (messageTimestamps ws)) as Hrl.
      destruct (MESSAGE_RATE_LIMIT <=? _) eqn:Hceil.
      - assert (Hsame : forall now, at_time a <= now ->
                  recent MESSAGE_WINDOW now before
                  = recent MESSAGE_WINDOW now
                      (recent MESSAGE_WINDOW (at_time a) (messageTimestamps ws))).
        { intros now Hnow. rewrite recent_recent by exact Hnow. apply Hagree. lia. }
        destruct (MAX_VIOLATIONS <=? violations ws + 1);
          cbn [fst snd messageTimestamps]; rewrite app_nil_r;
          (split; [exact Hsame|lia]).
      - apply Z.leb_gt in Hceil. cbn [fst snd messageTimestamps]. split.
        + intros now Hnow. rewrite !recent_app, recent_recent by exact Hnow.
          f_equal. apply Hagree. lia.
        + rewrite length_app. cbn [length]. lia. }
    destruct Hout as [Hagree' Hlen'].
    destruct (IH (fst (fst out)) (snd (fst out))
                 (before ++ match snd out with Dispatched => [at_time a] | _ => [] end)
                 (at_time a) Hagree' Hlen' Hmono) as [Hfin Hlenfin].
    cbn [fst snd]. split; [|exact Hlenfin].
    intros now Hnow. rewrite <- (Hfin now Hnow). f_equal.
    destruct (snd out); rewrite <- ?app_assoc; reflexivity.
Qed.

(** X7. However many messages a connection sends, and whatever their
    sizes, at most [MESSAGE_RATE_LIMIT] of those that arrived within the
    last [MESSAGE_WINDOW] milliseconds were dispatched to the message
    handler, at every arrival (the clock not going back).  The others
    were dropped or closed the connection. *)
Theorem message_rate_bound (s : Srv) (ip : string) (msgs : list Arrival) (t0 : Z) :
  monotone_from t0 msgs ->
  let dispatched := snd (receive s (mkSocket ip 0 [] None) msgs) in
  Z.of_nat (length (recent MESSAGE_WINDOW (last_time t0 msgs) dispatched))
    <= MESSAGE_RATE_LIMIT.
Proof.
  intros Hmono dispatched. subst dispatched.
  destruct (receive_window msgs s (mkSocket ip 0 [] None) [] t0) as [Hagree Hlen].
  - intros now _. reflexivity.
  - cbn. unfold MESSAGE_RATE_LIMIT. lia.
  - exact Hmono.
  - specialize (Hagree (last_time t0 msgs) (Z.le_refl _)). rewrite app_nil_l in Hagree.
    rewrite Hagree.
    pose proof (recent_length MESSAGE_WINDOW (last_time t0 msgs)
                  (messageTimestamps
                     (snd (fst (receive s (mkSocket ip 0 [] None) msgs))))) as Hrl.
    lia.
Qed.

(** X9. The ban sweep keeps exactly the bans that have not expired at
    the time of the sweep, and it makes no difference to any connection
    attempt made at that time or later. *)
Theorem sweep_bans_spec (s : Srv) (now : Z) :
  (forall (ip : string) (expiry : Z),
      bannedIps (sweep_bans s now) !! ip = Some expiry <->
      bannedIps s !! ip = Some expiry /\ now <= expiry)
  /\ (forall (ip : string) (token : option string) (t_ban t_session t : Z),
        now <= t_ban ->
        snd (on_connection (sweep_bans s now) ip token t_ban t_session t)
        = snd (on_connection s ip token t_ban t_session t)).
Proof.
  assert (Hlook : forall (ip : string) (expiry : Z),
      bannedIps (sweep_bans s now) !! ip = Some expiry <->
      bannedIps s !! ip = Some expiry /\ now <= expiry).
  { intros ip expiry. unfold sweep_bans, set_bannedIps. cbn [bannedIps].
    rewrite map_lookup_filter_Some. cbn [snd]. split; intros [H1 H2]; (split; [exact H1|lia]). }
  split; [exact Hlook|].
  intros ip token t_ban t_session t Hle.
  assert (Hban : match bannedIps (sweep_bans s now) !! ip with
                 | Some e => t_ban <? e | None => false end
               = match bannedIps s !! ip with
                 | Some e => t_ban <? e | None => false end).
  { destruct (bannedIps (sweep_bans s now) !! ip) as [e|] eqn:Hs.
    - apply Hlook in Hs as [-> _]. reflexivity.
    - destruct (bannedIps s !! ip) as [e|] eqn:Ho; [|reflexivity].
      destruct (Z_le_gt_dec now e) as [Hne|Hgt].
      + assert (Some e = None) by (rewrite <- Hs; symmetry; apply Hlook; auto). discriminate.
      + symmetry. apply Z.ltb_ge. lia. }
  unfold on_connection. rewrite Hban.
  destruct (match bannedIps s !! ip with Some e => t_ban <? e | None => false end);
    [reflexivity|].
  unfold sweep_bans at 1 2 3. unfold set_bannedIps. cbn [sessions].
  destruct (negb _); [reflexivity|].
  unfold set_sessions. cbn [wsConnections].
  destruct (WS_RATE_LIMIT <=? _); reflexivity.
Qed.
End MessageLaws.

Section MessageLawsExamples.
Import Server Props Laws.

Lemma message_rate_bound_witness :
  let msgs := map (fun t => mkArrival 10 t t) (seq_Z_times 40) in
  Z.of_nat (length (recent MESSAGE_WINDOW 1039
                      (snd (receive idle_server (mkSocket "10.0.0.9" 0 [] None) msgs))))
    <= MESSAGE_RATE_LIMIT.
Proof.
  apply (message_rate_bound idle_server "10.0.0.9"
           (map (fun t => mkArrival 10 t t) (seq_Z_times 40)) 1000).
  vm_compute. repeat split; discriminate.
Defined.
End MessageLawsExamples.

(* ===================================================================== *)
(** ** Sessions and cookies: properties *)
(* ===================================================================== *)

Section AuthLaws.
Import Server Props Laws.

Lemma validateSession_some (ss : gmap string Z) (tok : string) (now : Z) :
  tok <> "" ->
  validateSession ss (Some tok) now
  = match ss !! tok with
    | None => (false, ss)
    | Some created =>
        if SESSION_DURATION <? now - created then (false, delete tok ss) else (true, ss)
    end.
Proof. intros Hne. destruct tok; [congruence|reflexivity]. Qed.

(** X10. A session created at [t0] is valid at every check up to
    [SESSION_DURATION] later, and the check leaves the table as it is;
    the first check after that deletes it, and from then on the token is
    refused at any clock value.  A request with no token, with the empty
    token or with an unknown token is refused and changes nothing. *)
Theorem session_lifetime (ss : gmap string Z) (tok : string) (t0 t : Z) :
  tok <> "" ->
  let ss1 := fst (Auth.createSession ss tok t0) in
  (t - t0 <= SESSION_DURATION -> validateSession ss1 (Some tok) t = (true, ss1))
  /\ (SESSION_DURATION < t - t0 ->
      validateSession ss1 (Some tok) t = (false, delete tok ss1)
      /\ forall t' : Z, fst (validateSession (delete tok ss1) (Some tok) t') = false)
  /\ validateSession ss None t = (false, ss)
  /\ validateSession ss (Some "") t = (false, ss)
  /\ (ss !! tok = None -> validateSession ss (Some tok) t = (false, ss)).
Proof.
  intros Hne ss1. subst ss1. unfold Auth.createSession. cbn [fst].
  rewrite !validateSession_some by exact Hne. rewrite lookup_insert_eq.
  split; [|split; [|split; [reflexivity|split; [reflexivity|]]]].
  - intros Hle. apply Z.ltb_ge in Hle. rewrite Hle. reflexivity.
  - intros Hgt. apply Z.ltb_lt in Hgt. rewrite Hgt. split; [reflexivity|].
    intros t'. rewrite validateSession_some by exact Hne.
    rewrite lookup_delete_eq. reflexivity.
  - intros Hnone. rewrite validateSession_some by exact Hne. rewrite Hnone. reflexivity.
Qed.

(** X11. The session sweep removes exactly the sessions that have
    expired at the time of the sweep, and it changes the answer of no
    check made at that time or later. *)
Theorem cleanup_spec (ss : gmap string Z) (now : Z) :
  (forall (tok : string) (created : Z),
      Auth.cleanup ss now !! tok = Some created <->
      ss !! tok = Some created /\ now - created <= SESSION_DURATION)
  /\ (forall (token : option string) (t : Z),
        now <= t ->
        fst (validateSession (Auth.cleanup ss now) token t)
        = fst (validateSession ss token t)).
Proof.
  assert (Hlook : forall (tok : string) (created : Z),
      Auth.cleanup ss now !! tok = Some created <->
      ss !! tok = Some created /\ now - created <= SESSION_DURATION).
  { intros tok created. unfold Auth.cleanup. rewrite map_lookup_filter_Some. cbn [snd].
    split; intros [H1 H2]; (split; [exact H1|lia]). }
  split; [exact Hlook|].
  intros [[|c tok]|] t Hle; try reflexivity.
  rewrite !validateSession_some by discriminate.
  destruct (Auth.cleanup ss now !! String c tok) as [created|] eqn:Hs.
  - apply Hlook in Hs as [-> _]. destruct (SESSION_DURATION <? t - created); reflexivity.
  - destruct (ss !! String c tok) as [created|] eqn:Ho; [|reflexivity].
    destruct (Z_le_gt_dec (now - created) SESSION_DURATION) as [Hin|Hout].
    + assert (Some created = None) by (rewrite <- Hs; symmetry; apply Hlook; auto).
      discriminate.
    + assert (Hexp : (SESSION_DURATION <? t - created) = true) by (apply Z.ltb_lt; lia).
      rewrite Hexp. reflexivity.
Qed.

(** The first match of a greedy class is the longest run. *)
Lemma plus_head_max (p : ascii -> bool) (m rest : string) :
  all_chars p m = true -> m <> "" ->
  match rest with String c _ => p c = false | EmptyString => True end ->
  exists others, Rx.plus p (m +:+ rest) = (m, rest) :: others.
Proof.
  induction m as [|x m IH]; intros Hall Hne Hstop; [congruence|].
  cbn [all_chars] in Hall. apply andb_true_iff in Hall as [Hx Hall].
  rewrite append_cons. cbn [Rx.plus]. rewrite Hx. destruct m as [|y m].
  - rewrite append_nil. destruct rest as [|c rest]; [eexists; reflexivity|].
    cbn [Rx.plus]. rewrite Hstop. eexists. reflexivity.
  - destruct IH as [others Ho]; [exact Hall|discriminate|exact Hstop|].
    rewrite Ho. eexists. reflexivity.
Qed.

Lemma plus_head_stop (p : ascii -> bool) (s m rest : string)
    (others : list (string * string)) :
  Rx.plus p s = (m, rest) :: others ->
  match rest with String c _ => p c = false | EmptyString => True end.
Proof.
  revert m rest others. induction s as [|x s IH]; intros m rest others; [discriminate|].
  cbn [Rx.plus]. destruct (p x); [|discriminate].
  destruct (Rx.plus p s) as [|[m0 r0] o0] eqn:Hs.
  - intros [= <- <-]. destruct s as [|c s]; [exact I|].
    cbn [Rx.plus] in Hs. destruct (p c); [|reflexivity].
    destruct (map _ _); discriminate Hs.
  - cbn [map app fst snd]. intros [= <- <-]. exact (IH _ _ _ eq_refl).
Qed.

Lemma append_nil_r (s : string) : s +:+ "" = s.
Proof. induction s as [|x s IH]; [reflexivity|]. rewrite append_cons, IH. reflexivity. Qed.

Lemma re_session_at (mid : string) :
  Auth.re_session ("session=" +:+ mid)
  = Rx.plus (fun c => negb (Ascii.eqb c ";")) mid.
Proof.
  unfold Auth.re_session, Rx.seq, Rx.bind. rewrite lit_complete.
  cbn [flat_map fst snd]. apply app_nil_r.
Qed.

(** X12. The session token read from a [Cookie] header is the text that
    follows the first occurrence of ["session="] that has at least one
    character other than a semicolon after it, up to the next semicolon
    or the end of the header: it is never empty and holds no semicolon.
    Without a header there is no token. *)
Theorem session_cookie (cookie tok : string) :
  Auth.getSessionFromRequest None = None
  /\ (Auth.getSessionFromRequest (Some cookie) = Some tok ->
      exists pre rest : string,
        cookie = pre +:+ "session=" +:+ tok +:+ rest
        /\ tok <> ""
        /\ all_chars (fun c => negb (Ascii.eqb c ";")) tok = true
        /\ match rest with String c _ => c = ";"%char | EmptyString => True end).
Proof.
  split; [reflexivity|].
  unfold Auth.getSessionFromRequest. cbn [default]. unfold id.
  destruct (Rx.exec Auth.re_session cookie) as [[whole tok0]|] eqn:Hex; [|discriminate].
  intros [= ->].
  destruct (exec_found _ _ _ _ Hex) as (pre & suf & rest & others & Hcookie & Hsuf & _).
  assert (Hin : In (tok, rest) (Auth.re_session suf)) by (rewrite Hsuf; left; reflexivity).
  unfold Auth.re_session, Rx.seq in Hin. apply bind_spec in Hin as (u & mid & Hlit & _).
  apply lit_sound in Hlit. subst suf. rewrite re_session_at in Hsuf.
  assert (Hin : In (tok, rest) (Rx.plus (fun c => negb (Ascii.eqb c ";")) mid))
    by (rewrite Hsuf; left; reflexivity).
  apply plus_sound in Hin as (-> & Hne & Hall).
  exists pre, rest. split; [exact Hcookie|]. split; [exact Hne|]. split; [exact Hall|].
  pose proof (plus_head_stop _ _ _ _ _ Hsuf) as Hstop.
  destruct rest as [|c rest]; [exact I|].
  apply negb_false_iff in Hstop. apply Ascii.eqb_eq in Hstop. exact Hstop.
Qed.

Lemma session_cookie_leading (tok rest : string) :
  tok <> "" -> all_chars (fun c => negb (Ascii.eqb c ";")) tok = true ->
  match rest with String c _ => c = ";"%char | EmptyString => True end ->
  Auth.getSessionFromRequest (Some ("session=" +:+ tok +:+ rest)) = Some tok.
Proof.
  intros Hne Hall Hrest. unfold Auth.getSessionFromRequest. cbn [default]. unfold id.
  rewrite exec_unfold, re_session_at.
  destruct (plus_head_max (fun c => negb (Ascii.eqb c ";")) tok rest Hall Hne) as [others Ho].
  - destruct rest as [|c rest]; [exact I|]. subst c. reflexivity.
  - rewrite Ho. reflexivity.
Qed.

(** X13. Log-in, use, log-out: a request whose [Cookie] header starts
    with ["session=<token>"] for a token just created passes
    [requireAuth] for [SESSION_DURATION]; after [/api/logout] with the
    same header it is refused, whatever the time. *)
Theorem login_logout (ss : gmap string Z) (tok rest : string) (t0 t t' : Z) :
  tok <> "" -> all_chars (fun c => negb (Ascii.eqb c ";")) tok = true ->
  match rest with String c _ => c = ";"%char | EmptyString => True end ->
  t - t0 <= SESSION_DURATION ->
  let cookie := Some ("session=" +:+ tok +:+ rest) in
  let ss1 := fst (Auth.createSession ss tok t0) in
  Auth.requireAuth ss1 cookie t = (true, ss1)
  /\ Auth.logout ss1 cookie = delete tok ss1
  /\ fst (Auth.requireAuth (Auth.logout ss1 cookie) cookie t') = false.
Proof.
  intros Hne Hall Hrest Hle cookie ss1. subst cookie ss1.
  unfold Auth.requireAuth, Auth.logout.
  rewrite (session_cookie_leading tok rest Hne Hall Hrest).
  split.
  { unfold Auth.createSession. cbn [fst].
    rewrite validateSession_some by exact Hne. rewrite lookup_insert_eq.
    apply Z.ltb_ge in Hle. rewrite Hle. reflexivity. }
  destruct tok as [|c tok]; [congruence|]. split; [reflexivity|].
  rewrite validateSession_some by discriminate. rewrite lookup_delete_eq. reflexivity.
Qed.
End AuthLaws.

Section AuthLawsExamples.
Import Server Props Laws.

Lemma session_lifetime_witness :
  validateSession (fst (Auth.createSession ∅ "a1b2" 1000)) (Some "a1b2") 2000
  = (true, fst (Auth.createSession ∅ "a1b2" 1000)).
Proof.
  destruct (session_lifetime ∅ "a1b2" 1000 2000) as (H & _).
  - discriminate.
  - apply H. vm_compute. discriminate.
Defined.

Lemma login_logout_witness :
  Auth.requireAuth (fst (Auth.createSession ∅ "a1b2" 1000))
    (Some "session=a1b2; theme=dark") 2000
  = (true, fst (Auth.createSession ∅ "a1b2" 1000)).
Proof.
  destruct (login_logout ∅ "a1b2" "; theme=dark" 1000 2000 3000) as (H & _).
  - discriminate.
  - reflexivity.
  - reflexivity.
  - vm_compute. discriminate.
  - exact H.
Defined.
End AuthLawsExamples.

(* ===================================================================== *)
(** ** Argument whitelist: properties *)
(* ===================================================================== *)

Section ArgsLaws.
Import PtyManager Args Props Laws.

Lemma split_eq_join (arg : string) :
  JS.includes "=" arg = true ->
  fst (split_eq arg) +:+ "=" +:+ snd (split_eq arg) = arg.
Proof.
  induction arg as [|c arg IH]; cbn [JS.includes String.prefix split_eq].
  - discriminate.
  - destruct (Ascii.eqb c "=") eqn:Hc.
    + apply Ascii.eqb_eq in Hc. subst c. intros _. reflexivity.
    + destruct (ascii_dec "=" c) as [Heq|Hne].
      * subst c. rewrite Ascii.eqb_refl in Hc. discriminate.
      * cbn [orb fst snd]. intros H. rewrite append_cons, (IH H). reflexivity.
Qed.

(** No inherited property name begins with a hyphen. *)
Lemma inherited_no_hyphen (arg : string) :
  lookup arg = Inherited -> String.prefix "-" arg = false.
Proof.
  unfold lookup. destruct (own ALLOWED_CLAUDE_ARGS arg) as [[p|]|]; try discriminate.
  destruct (existsb (String.eqb arg) inherited_names) eqn:Hin; [|discriminate].
  intros _. apply existsb_exists in Hin as (x & Hx & Heq).
  apply String.eqb_eq in Heq. subst x. unfold inherited_names in Hx.
  repeat (destruct Hx as [<-|Hx]; [reflexivity|]). destruct Hx.
Qed.

Lemma lookup_own (arg : string) :
  lookup arg = Null \/ (exists p, lookup arg = Regex p) ->
  is_Some (own ALLOWED_CLAUDE_ARGS arg).
Proof.
  unfold lookup. destruct (own ALLOWED_CLAUDE_ARGS arg) as [[p|]|]; [eauto|eauto|].
  destruct (existsb _ _); intros [H|[p H]]; discriminate.
Qed.

(** What one turn of the loop does. *)
Lemma loop_step (el : Element) (rest : list Element) (validated : list string) :
  Z.of_nat (length validated) < MAX_ARGS ->
  loop (el :: rest) validated = loop rest validated
  \/ (exists x : string,
        single_push x /\ loop (el :: rest) validated = loop rest (validated ++ [x]))
  \/ (exists (x y n : string) (rest' : list Element),
        rest = Return n :: rest' /\ pair_push x y
        /\ loop (el :: rest) validated = loop rest' (validated ++ [x; y]))
  \/ (exists a : string,
        el = Return a
        /\ lookup (fst (split_eq (JS.trim a))) = Inherited
        /\ JS.includes "=" (JS.trim a) = true
        /\ loop (el :: rest) validated = Throw "pattern.test is not a function")
  \/ (exists e : string,
        In (Throw e) (el :: rest) /\ loop (el :: rest) validated = Throw e).
Proof.
  intros Hlen. cbn [loop]. apply Z.leb_gt in Hlen. rewrite Hlen.
  destruct el as [a|e]; [|do 4 right; exists e; split; [left; reflexivity|reflexivity]].
  destruct (String.eqb (JS.trim a) "") eqn:Hempty; [auto|].
  destruct (is_dangerous (JS.trim a)) eqn:Hdanger; [auto|].
  destruct (JS.includes "=" (JS.trim a)) eqn:Heq.
  - destruct (lookup (fst (split_eq (JS.trim a)))) as [|p| |] eqn:Hlook; auto.
    + destruct (p (snd (split_eq (JS.trim a)))) eqn:Hp; [|auto].
      right. left. eexists. split; [|reflexivity]. split.
      * rewrite (split_eq_join _ Heq). exact Hdanger.
      * left. exists (fst (split_eq (JS.trim a))), (snd (split_eq (JS.trim a))), p. auto.
    + right. right. right. left. exists a. auto.
  - destruct (String.prefix "-" (JS.trim a)) eqn:Hdash; [|auto].
    destruct (lookup (JS.trim a)) as [|p| |] eqn:Hlook; auto.
    + assert (Hsingle : single_push (JS.trim a)).
      { split; [exact Hdanger|]. right. apply lookup_own. eauto. }
      destruct rest as [|[n|e] rest']; [right; left; eauto| |].
      2:{ do 4 right. exists e. split; [right; left; reflexivity|reflexivity]. }
      destruct (negb (String.prefix "-" (JS.trim n)) && negb (is_dangerous (JS.trim n)))
        eqn:Hnext; [|right; left; eauto].
      destruct (p (JS.trim n)) eqn:Hp; [|right; left; eauto].
      apply andb_true_iff in Hnext as [H1 H2].
      apply negb_true_iff in H1. apply negb_true_iff in H2.
      right. right. left. exists (JS.trim a), (JS.trim n), n, rest'.
      split; [reflexivity|]. split; [|reflexivity].
      repeat split; try assumption. eauto.
    + right. left. exists (JS.trim a). split; [|reflexivity].
      split; [exact Hdanger|]. right. apply lookup_own. auto.
    + rewrite (inherited_no_hyphen _ Hlook) in Hdash. discriminate.
Qed.

(** A property of the list built so far that every addition keeps holds
    of the result. *)
Lemma loop_preserves (I : list string -> Prop) :
  (forall (v : list string) (x : string),
      Z.of_nat (length v) < MAX_ARGS -> I v -> single_push x -> I (v ++ [x])) ->
  (forall (v : list string) (x y : string),
      Z.of_nat (length v) < MAX_ARGS -> I v -> pair_push x y -> I (v ++ [x; y])) ->
  forall (n : nat) (args : list Element) (validated out : list string),
    (length args <= n)%nat -> I validated ->
    loop args validated = Return out -> I out.
Proof.
  intros Hone Htwo. induction n as [|n IH]; intros args validated out Hn Hv Hloop.
  - destruct args; [|simpl in Hn; lia]. injection Hloop as <-. exact Hv.
  - destruct args as [|a rest]; [injection Hloop as <-; exact Hv|].
    cbn [length] in Hn.
    destruct (Z_lt_ge_dec (Z.of_nat (length validated)) MAX_ARGS) as [Hlt|Hge].
    2:{ cbn [loop] in Hloop. apply Z.ge_le in Hge. apply Z.leb_le in Hge.
        rewrite Hge in Hloop. injection Hloop as <-. exact Hv. }
    destruct (loop_step a rest validated Hlt)
      as [Hs|[(x & Hx & Hs)|[(x & y & m & rest' & -> & Hxy & Hs)
          |[(b & _ & _ & _ & Hs)|(e & _ & Hs)]]]];
      rewrite Hs in Hloop.
    + apply (IH rest validated out); [lia|exact Hv|exact Hloop].
    + apply (IH rest (validated ++ [x]) out); [lia|auto|exact Hloop].
    + apply (IH rest' (validated ++ [x; y]) out); [cbn [length] in Hn; lia|auto|exact Hloop].
    + discriminate.
    + discriminate.
Qed.

(** The same for [validateArgs]. *)
Lemma validateArgs_preserves (I : list string -> Prop) :
  I [] ->
  (forall (v : list string) (x : string),
      Z.of_nat (length v) < MAX_ARGS -> I v -> single_push x -> I (v ++ [x])) ->
  (forall (v : list string) (x y : string),
      Z.of_nat (length v) < MAX_ARGS -> I v -> pair_push x y -> I (v ++ [x; y])) ->
  forall (args : Value) (out : list string), validateArgs args = Return out -> I out.
Proof.
  intros Hnil Hone Htwo [|elements] out H; cbn [validateArgs] in H.
  - injection H as <-. exact Hnil.
  - apply (loop_preserves I Hone Htwo (length elements) elements [] out);
      [reflexivity|exact Hnil|exact H].
Qed.

(** X14. No argument that [validateArgs] lets through contains one of
    the dangerous characters. *)
Theorem validateArgs_safe (args : Value) (out : list string) :
  validateArgs args = Return out ->
  Forall (fun a => is_dangerous a = false) out.
Proof.
  apply (validateArgs_preserves (Forall (fun a => is_dangerous a = false))).
  - constructor.
  - intros v x _ Hv [Hx _]. apply Forall_app. split; [exact Hv|]. constructor; [exact Hx|constructor].
  - intros v x y _ Hv (Hx & Hy & _). apply Forall_app. split; [exact Hv|].
    constructor; [exact Hx|]. constructor; [exact Hy|constructor].
Qed.

Lemma Shape_app (a b : list string) : Shape a -> Shape b -> Shape (a ++ b).
Proof.
  intros Ha Hb. induction Ha as [|f l Hf Hl IH|f v p l Hf Hp Hd Hl IH|f v p l Hf Hp Hl IH];
    cbn [app].
  - exact Hb.
  - apply shape_flag; assumption.
  - apply (shape_pair f v p); assumption.
  - apply (shape_eq f v p); assumption.
Qed.

(** X15. The list [validateArgs] returns is made of flags of the table
    standing on their own, of value-taking flags followed by a value
    that their pattern accepts and that does not begin with a hyphen,
    and of [flag=value] forms of a value-taking flag with an accepted
    value: nothing else gets through.  A value-taking flag is added
    before its value is looked at, so it also gets through without a
    value, or with the value refused: [--model] alone is returned as it
    is, and [--max-turns] followed by [abc] gives [--max-turns]. *)
Theorem validateArgs_shape (args : Value) (out : list string) :
  (validateArgs args = Return out -> Shape out)
  /\ validateArgs (strings ["--model"]) = Return ["--model"]
  /\ validateArgs (strings ["--max-turns"; "abc"]) = Return ["--max-turns"].
Proof.
  split; [|split; vm_compute; reflexivity].
  apply (validateArgs_preserves Shape).
  - constructor.
  - intros v x _ Hv [_ [(f & w & p & -> & Hf & Hp)|Hown]]; apply Shape_app; try exact Hv.
    + apply (shape_eq f w p); [assumption|assumption|constructor].
    + apply shape_flag; [assumption|constructor].
  - intros v x y _ Hv (_ & _ & Hd & p & Hf & Hp). apply Shape_app; [exact Hv|].
    apply (shape_pair x y p); [assumption|assumption|assumption|constructor].
Qed.

(** X16. [validateArgs] returns at most [MAX_ARGS] + 1 arguments: the
    limit is tested before an argument is read, and a flag may bring
    its value along.  Eleven is reached. *)
Theorem validateArgs_count (args : Value) (out : list string) :
  (validateArgs args = Return out -> Z.of_nat (length out) <= MAX_ARGS + 1)
  /\ validateArgs (strings eleven_args) = Return eleven_args.
Proof.
  split; [|vm_compute; reflexivity].
  apply (validateArgs_preserves (fun v => Z.of_nat (length v) <= MAX_ARGS + 1)).
  - cbn. unfold MAX_ARGS. lia.
  - intros v x Hlt _ _. rewrite length_app. cbn [length]. lia.
  - intros v x y Hlt _ _. rewrite length_app. cbn [length]. lia.
Qed.

(** X17. [validateArgs] returns the empty list for a value that is no
    array, and on an array it throws in two cases only.  Either the
    conversion [String(element)] of an element throws (an object with
    an own [toString] property), and that error goes through.  Or an
    argument has the form [name=...] with a name that every object
    inherits ([constructor], [toString], ...): the [in] test finds the
    name, the value found is not a regular expression, and calling its
    [test] throws.  An array without such elements is validated.  Both
    cases are reached. *)
Theorem validateArgs_throws (args : list Element) :
  validateArgs NotArray = Return []
  /\ (forall e : string,
        validateArgs (Array args) = Throw e ->
        In (Throw e) args
        \/ (e = "pattern.test is not a function"
            /\ exists a : string,
                 In (Return a) args /\ JS.includes "=" (JS.trim a) = true
                 /\ In (fst (split_eq (JS.trim a))) inherited_names))
  /\ ((forall e : string, ~ In (Throw e) args) ->
      (forall a : string,
          In (Return a) args -> lookup (fst (split_eq (JS.trim a))) <> Inherited) ->
      exists out : list string, validateArgs (Array args) = Return out)
  /\ validateArgs (Array [Return "-y"; Throw "Cannot convert object to primitive value"])
     = Throw "Cannot convert object to primitive value"
  /\ validateArgs (strings ["-y"; "constructor=1"])
     = Throw "pattern.test is not a function".
Proof.
  assert (Hgen : forall (n : nat) (l : list Element) (validated : list string),
    (length l <= n)%nat ->
    (exists out, loop l validated = Return out)
    \/ (exists e, In (Throw e) l /\ loop l validated = Throw e)
    \/ (loop l validated = Throw "pattern.test is not a function"
        /\ exists a, In (Return a) l /\ JS.includes "=" (JS.trim a) = true
                     /\ lookup (fst (split_eq (JS.trim a))) = Inherited)).
  { induction n as [|n IH]; intros l validated Hn.
    - destruct l; [|simpl in Hn; lia]. left. eexists. reflexivity.
    - destruct l as [|el rest]; [left; eexists; reflexivity|]. cbn [length] in Hn.
      destruct (Z_lt_ge_dec (Z.of_nat (length validated)) MAX_ARGS) as [Hlt|Hge].
      2:{ left. cbn [loop]. apply Z.ge_le in Hge. apply Z.leb_le in Hge. rewrite Hge.
          eexists. reflexivity. }
      assert (Hlift : forall (rest1 : list Element) (v : list string),
                (forall x, In x rest1 -> In x (el :: rest)) ->
                (length rest1 <= n)%nat ->
                loop (el :: rest) validated = loop rest1 v ->
                (exists out, loop (el :: rest) validated = Return out)
                \/ (exists e, In (Throw e) (el :: rest)
                              /\ loop (el :: rest) validated = Throw e)
                \/ (loop (el :: rest) validated = Throw "pattern.test is not a function"
                    /\ exists a, In (Return a) (el :: rest)
                                 /\ JS.includes "=" (JS.trim a) = true
                                 /\ lookup (fst (split_eq (JS.trim a))) = Inherited)).
      { intros rest1 v Hsub Hlen1 Hs. rewrite Hs.
        destruct (IH rest1 v Hlen1) as [H|[(e & He & H)|(H & a & Ha & Hrest)]].
        - left. exact H.
        - right. left. exists e. split; [apply Hsub; exact He|exact H].
        - right. right. split; [exact H|]. exists a. split; [apply Hsub; exact Ha|exact Hrest]. }
      destruct (loop_step el rest validated Hlt)
        as [Hs|[(x & Hx & Hs)|[(x & y & m & rest' & Hr & Hxy & Hs)
            |[(a & Hel & Hi & Heq & Hs)|(e & He & Hs)]]]].
      + apply (Hlift rest validated); [intros x Hx; right; exact Hx|lia|exact Hs].
      + apply (Hlift rest (validated ++ [x])); [intros z Hz; right; exact Hz|lia|exact Hs].
      + subst rest. apply (Hlift rest' (validated ++ [x; y]));
          [intros z Hz; right; right; exact Hz|cbn [length] in Hn; lia|exact Hs].
      + right. right. split; [exact Hs|]. exists a. subst el.
        split; [left; reflexivity|]. split; [exact Heq|exact Hi].
      + right. left. exists e. split; [exact He|exact Hs]. }
  assert (Hnames : forall k, lookup k = Inherited -> In k inherited_names).
  { intros k. unfold lookup. destruct (own ALLOWED_CLAUDE_ARGS k) as [[p|]|]; try discriminate.
    destruct (existsb (String.eqb k) inherited_names) eqn:Hin; [|discriminate].
    intros _. apply existsb_exists in Hin as (x & Hx & Heq).
    apply String.eqb_eq in Heq. subst x. exact Hx. }
  split; [reflexivity|]. split; [|split; [|split; vm_compute; reflexivity]].
  - intros e He. cbn [validateArgs] in He.
    destruct (Hgen (length args) args [] (Nat.le_refl _))
      as [[out Ho]|[(e' & Hin & Ho)|(Ho & a & Ha & Heq & Hi)]];
      rewrite Ho in He.
    + discriminate.
    + injection He as <-. left. exact Hin.
    + injection He as <-. right. split; [reflexivity|].
      exists a. split; [exact Ha|]. split; [exact Heq|]. exact (Hnames _ Hi).
  - intros Hconv Hnone. cbn [validateArgs].
    destruct (Hgen (length args) args [] (Nat.le_refl _))
      as [H|[(e & Hin & _)|(_ & a & Ha & _ & Hi)]]; [exact H| |].
    + destruct (Hconv e Hin).
    + destruct (Hnone a Ha Hi).
Qed.
End ArgsLaws.

Section ArgsLawsExamples.
Import PtyManager Args Props Laws.

Lemma validateArgs_safe_witness :
  Forall (fun a => is_dangerous a = false) ["--model"; "opus"; "--max-turns=12"].
Proof.
  apply (validateArgs_safe (strings ["--model"; "opus"; "rm;"; "--max-turns=12"; "$(x)"])).
  vm_compute. reflexivity.
Defined.

Lemma validateArgs_shape_witness :
  Shape ["--model"; "opus"; "--max-turns=12"].
Proof.
  apply (validateArgs_shape (strings ["--model"; "opus"; "rm;"; "--max-turns=12"; "$(x)"])).
  vm_compute. reflexivity.
Defined.
End ArgsLawsExamples.

(* ===================================================================== *)
(** ** Notification dispatch: properties *)
(* ===================================================================== *)

Section NotifierLaws.
Import NotifierLib Props Laws.

Lemma notify_begin_topic (n : Notifier) (prompt : string) (title : option string)
    (priority : string) (force : bool) (now : Z) :
  truthy (topic n) = true ->
  (negb force
   && bool_decide (Some (_hashString prompt) = lastNotificationHash n)
   && (now - lastNotificationTime n <? 1000 * debounceSeconds n) = true ->
   notify_begin n prompt title priority force now = (bump_debounced n, inl Debounced))
  /\ (negb force
      && bool_decide (Some (_hashString prompt) = lastNotificationHash n)
      && (now - lastNotificationTime n <? 1000 * debounceSeconds n) = false ->
      exists req : Request,
        notify_begin n prompt title priority force now = (n, inr req)
        /\ promptHash req = _hashString prompt /\ started req = now).
Proof.
  intros Htopic. unfold notify_begin. rewrite Htopic. cbn [negb].
  split; intros ->; [reflexivity|]. eexists. split; [reflexivity|]. split; reflexivity.
Qed.

(** X18. Once a notification for a prompt was sent at [t0], a further
    [notify] for a prompt with the same hash is suppressed while fewer
    than [debounceSeconds] seconds have passed, and counted as
    debounced; it is sent again after that time, at any time when
    forced, at any time after [resetDebounce()], and a prompt with
    another hash is never suppressed. *)
Theorem notifier_debounce (n : Notifier) (prompt other : string) (title : option string)
    (priority : string) (t0 now : Z) :
  truthy (topic n) = true ->
  let n1 := fst (notify n prompt title priority true t0 Ok) in
  snd (notify n prompt title priority true t0 Ok) = Success
  /\ (now - t0 < 1000 * debounceSeconds n ->
      notify_begin n1 prompt title priority false now = (bump_debounced n1, inl Debounced))
  /\ (1000 * debounceSeconds n <= now - t0 ->
      exists req, notify_begin n1 prompt title priority false now = (n1, inr req))
  /\ (exists req, notify_begin n1 prompt title priority true now = (n1, inr req))
  /\ (exists req, notify_begin (resetDebounce n1) prompt title priority false now
                  = (resetDebounce n1, inr req))
  /\ (_hashString other <> _hashString prompt ->
      exists req, notify_begin n1 other title priority false now = (n1, inr req)).
Proof.
  intros Htopic n1.
  assert (Hn1 : n1 = mkNotifier (server n) (topic n) (token n) (debounceSeconds n)
                       (clickUrl n) (Some (_hashString prompt)) t0
                       (mkStats (sent (stats n) + 1) (debounced (stats n))
                          (failed (stats n)))
                /\ snd (notify n prompt title priority true t0 Ok) = Success).
  { subst n1. unfold notify.
    destruct (notify_begin_topic n prompt title priority true t0 Htopic) as [_ H].
    destruct (H eq_refl) as (req & -> & Hh & Hs). cbn [notify_complete fst snd].
    rewrite Hh, Hs. split; reflexivity. }
  destruct Hn1 as [Hn1 Hres]. split; [exact Hres|].
  assert (Htopic1 : truthy (topic n1) = true) by (rewrite Hn1; exact Htopic).
  assert (Hreset : truthy (topic (resetDebounce n1)) = true) by exact Htopic1.
  destruct (notify_begin_topic n1 prompt title priority false now Htopic1) as [Hdeb Hsend].
  destruct (notify_begin_topic n1 prompt title priority true now Htopic1) as [_ Hforce].
  destruct (notify_begin_topic (resetDebounce n1) prompt title priority false now Hreset)
    as [_ Hafter].
  destruct (notify_begin_topic n1 other title priority false now Htopic1) as [_ Hother].
  assert (Hhash : lastNotificationHash n1 = Some (_hashString prompt)) by (rewrite Hn1; reflexivity).
  assert (Htime : lastNotificationTime n1 = t0) by (rewrite Hn1; reflexivity).
  assert (Hsec : debounceSeconds n1 = debounceSeconds n) by (rewrite Hn1; reflexivity).
  rewrite Hhash, Htime, Hsec in Hdeb, Hsend, Hother.
  split; [|split; [|split; [|split]]].
  - intros Hlt. apply Hdeb. cbn [negb andb].
    rewrite bool_decide_eq_true_2 by reflexivity. apply Z.ltb_lt. exact Hlt.
  - intros Hge. destruct Hsend as (req & Hreq & _); [|eauto]. cbn [negb andb].
    rewrite bool_decide_eq_true_2 by reflexivity. apply Z.ltb_ge. exact Hge.
  - destruct Hforce as (req & Hreq & _); [reflexivity|eauto].
  - destruct Hafter as (req & Hreq & _); [|eauto]. cbn [negb andb].
    rewrite bool_decide_eq_false_2; [reflexivity|]. cbn. discriminate.
  - intros Hne. destruct Hother as (req & Hreq & _); [|eauto]. cbn [negb andb].
    rewrite bool_decide_eq_false_2; [reflexivity|]. intros [= H]. exact (Hne H).
Qed.

(** The number of calls the statistics account for. *)
Lemma stats_total_after_complete (n : Notifier) (req : Request) (resp : Response) :
  let s' := stats (fst (notify_complete n req resp)) in
  sent s' + debounced s' + failed s' = sent (stats n) + debounced (stats n) + failed (stats n) + 1.
Proof. destruct resp; cbn; lia. Qed.

(** X19. Without a topic [notify] returns [no_topic] and changes
    nothing, statistics included.  With a topic every call adds one to
    exactly one of the counters [sent], [debounced] and [failed],
    according to its result, and only a successful send changes the
    debounce memory. *)
Theorem notifier_stats (n : Notifier) (prompt : string) (title : option string)
    (priority : string) (force : bool) (now : Z) (resp : Response) :
  let out := notify n prompt title priority force now resp in
  let s := stats n in
  let s' := stats (fst out) in
  (truthy (topic n) = false -> out = (n, NoTopic))
  /\ (truthy (topic n) = true ->
      snd out <> NoTopic
      /\ sent s' = sent s + match snd out with Success => 1 | _ => 0 end
      /\ debounced s' = debounced s + match snd out with Debounced => 1 | _ => 0 end
      /\ sent s' + debounced s' + failed s' = sent s + debounced s + failed s + 1
      /\ (snd out <> Success ->
          lastNotificationHash (fst out) = lastNotificationHash n
          /\ lastNotificationTime (fst out) = lastNotificationTime n)
      /\ (snd out = Success ->
          lastNotificationHash (fst out) = Some (_hashString prompt)
          /\ lastNotificationTime (fst out) = now)).
Proof.
  intros out s s'. subst out s s'. unfold notify, notify_begin.
  destruct (truthy (topic n)) eqn:Htopic; cbn [negb].
  2:{ split; [reflexivity|discriminate]. }
  split; [discriminate|]. intros _.
  destruct (negb force && _ && _).
  - cbn. repeat split; try discriminate; try lia.
  - destruct resp; cbn; repeat split; try discriminate; try lia; try congruence.
Qed.

Lemma length_append (a b : string) :
  String.length (a +:+ b) = (String.length a + String.length b)%nat.
Proof.
  induction a as [|x a IH]; [reflexivity|]. rewrite append_cons. cbn [String.length].
  rewrite IH. reflexivity.
Qed.

Lemma length_take (k : nat) (s : string) :
  String.length (JS.take k s) = Nat.min k (String.length s).
Proof.
  revert s. induction k as [|k IH]; intros [|x s]; cbn [JS.take String.length]; try reflexivity.
  rewrite IH. reflexivity.
Qed.

Lemma take_drop (k : nat) (s : string) : JS.take k s +:+ JS.drop k s = s.
Proof.
  revert s. induction k as [|k IH]; intros [|x s]; cbn [JS.take JS.drop]; try reflexivity.
  rewrite append_cons, IH. reflexivity.
Qed.

(** X20. For a limit of at least 3, [_truncate] returns its argument
    when it is within the limit; otherwise it returns exactly [maxLength]
    characters: the first [maxLength - 3] of the argument followed by
    three periods.  The result is never longer than the limit. *)
Theorem truncate_spec (str : string) (maxLength : Z) :
  3 <= maxLength ->
  JS.strlen (_truncate str maxLength) <= maxLength
  /\ (JS.strlen str <= maxLength -> _truncate str maxLength = str)
  /\ (maxLength < JS.strlen str ->
      JS.strlen (_truncate str maxLength) = maxLength
      /\ exists (kept cut : string),
           str = kept +:+ cut
           /\ JS.strlen kept = maxLength - 3
           /\ _truncate str maxLength = kept +:+ "...").
Proof.
  intros Hmax. unfold _truncate, JS.strlen.
  destruct (Z.of_nat (String.length str) <=? maxLength) eqn:Hcmp.
  - apply Z.leb_le in Hcmp. split; [exact Hcmp|]. split; [reflexivity|]. intros H. lia.
  - apply Z.leb_gt in Hcmp.
    assert (Hlen : Z.of_nat (String.length (JS.take (Z.to_nat (maxLength - 3)) str))
                   = maxLength - 3).
    { rewrite length_take. lia. }
    rewrite length_append. cbn [String.length]. split; [lia|]. split; [intros H; lia|].
    intros _. split; [lia|].
    exists (JS.take (Z.to_nat (maxLength - 3)) str), (JS.drop (Z.to_nat (maxLength - 3)) str).
    split; [symmetry; apply take_drop|]. split; [exact Hlen|reflexivity].
Qed.
End NotifierLaws.

Section NotifierLawsExamples.
Import NotifierLib Props Laws.

Lemma notifier_debounce_witness :
  notify_begin (fst (notify ntfy_notifier "Select option:" None "high" true 1000 Ok))
    "Select option:" None "high" false 5000
  = (bump_debounced (fst (notify ntfy_notifier "Select option:" None "high" true 1000 Ok)),
     inl Debounced).
Proof.
  destruct (notifier_debounce ntfy_notifier "Select option:" "" None "high" 1000 5000)
    as (_ & H & _).
  - reflexivity.
  - apply H. vm_compute. reflexivity.
Defined.

Lemma truncate_spec_witness :
  JS.strlen (_truncate "Do you want to proceed?" 10) = 10.
Proof.
  destruct (truncate_spec "Do you want to proceed?" 10) as (_ & _ & H).
  - vm_compute. discriminate.
  - destruct H as (H & _); [vm_compute; reflexivity|exact H].
Defined.
End NotifierLawsExamples.

(* ===================================================================== *)
(** ** Trigger detector: further properties *)
(* ===================================================================== *)

Section WatcherLaws.
Import OptionParser WatcherLib Props Laws.

Variable stripAnsiModule : string -> string.
Variable patterns : list Pattern.

Lemma push_lines_filter (newLines ls : list string) :
  push_lines ls newLines = ls ++ List.filter nonblank newLines.
Proof.
  unfold push_lines. revert ls. induction newLines as [|l newLines IH]; intros ls.
  - cbn. rewrite app_nil_r. reflexivity.
  - cbn [fold_left List.filter]. rewrite IH. unfold nonblank.
    destruct (0 <? JS.strlen (JS.trim l)); [rewrite <- app_assoc|]; reflexivity.
Qed.

Lemma split_nl_lines (s : string) :
  Forall (fun l => all_chars (fun c => negb (JS.charCode c =? 10)) l = true) (JS.split_nl s).
Proof.
  induction s as [|c s IH]; cbn [JS.split_nl].
  - constructor; [reflexivity|constructor].
  - destruct (JS.charCode c =? 10) eqn:Hc.
    + constructor; [reflexivity|exact IH].
    + destruct (JS.split_nl s) as [|l ls]; [constructor; [|constructor]|].
      * cbn [all_chars]. rewrite Hc. reflexivity.
      * apply Forall_cons in IH as [Hl Hls]. constructor; [|exact Hls].
        cbn [all_chars]. rewrite Hc, Hl. reflexivity.
Qed.

Lemma arr_slice_suffix {A} (l : list A) (start : Z) :
  exists dropped : list A, l = dropped ++ JS.arr_slice l start.
Proof.
  unfold JS.arr_slice. eexists. symmetry. apply firstn_skipn.
Qed.

(** X21. The rolling window after a chunk is a suffix of the window
    before it followed by the non-blank lines of the stripped chunk; for
    a line limit of at least one it never holds more than [maxLines]
    lines, and when the lines it held were non-blank and free of line
    feeds, so are the lines it holds now.  The limit itself never
    changes. *)
Theorem window_invariant (w : Watcher) (data : string) (now : Z) :
  1 <= maxLines w ->
  Forall tidy (lines w) ->
  let w' := next (process stripAnsiModule patterns w data now) in
  maxLines w' = maxLines w
  /\ Z.of_nat (length (lines w')) <= maxLines w
  /\ Forall tidy (lines w')
  /\ exists dropped : list string,
       lines w ++ List.filter nonblank (JS.split_nl (stripAnsi stripAnsiModule data))
       = dropped ++ lines w'.
Proof.
  intros Hmax Htidy w'. subst w'. rewrite process_maxLines, process_lines.
  unfold window. rewrite push_lines_filter.
  set (ls := lines w ++ List.filter nonblank (JS.split_nl (stripAnsi stripAnsiModule data))).
  assert (Hls : Forall tidy ls).
  { subst ls. apply Forall_app. split; [exact Htidy|].
    pose proof (split_nl_lines (stripAnsi stripAnsiModule data)) as Hnl.
    induction Hnl as [|l rest Hl _ IH]; [constructor|].
    cbn [List.filter]. destruct (nonblank l) eqn:Hb; [|exact IH].
    constructor; [split; assumption|exact IH]. }
  split; [reflexivity|].
  destruct (maxLines w <? Z.of_nat (length ls)) eqn:Hcmp.
  - apply Z.ltb_lt in Hcmp. destruct (arr_slice_suffix ls (- maxLines w)) as [dropped Hd].
    split; [|split].
    + unfold JS.arr_slice, JS.slice_from.
      destruct (- maxLines w <? 0) eqn:Hneg; [|apply Z.ltb_ge in Hneg; lia].
      rewrite length_skipn. lia.
    + rewrite Hd in Hls. apply Forall_app in Hls as [_ H]. exact H.
    + exists dropped. exact Hd.
  - apply Z.ltb_ge in Hcmp. split; [exact Hcmp|]. split; [exact Hls|].
    exists []. reflexivity.
Qed.

Lemma process_quiet (w : Watcher) (data : string) (now : Z) :
  lastTrigger w = None ->
  parseOptionsWith patterns (JS.join_nl (window stripAnsiModule w data)) = None ->
  returned (process stripAnsiModule patterns w data now) = None
  /\ onTrigger (process stripAnsiModule patterns w data now) = None
  /\ lastTrigger (next (process stripAnsiModule patterns w data now)) = None.
Proof.
  intros Hnone Hparse. unfold process. rewrite Hparse. cbn. auto.
Qed.

(** X22. Between two resets the detector reports at most one trigger,
    whatever chunks arrive and whatever patterns are registered: from a
    detector that holds no trigger, a sequence of chunks produces no
    event or one, and it produces one exactly when the detector holds a
    trigger at the end; a detector that holds a trigger produces none. *)
Theorem at_most_one_event (chunks : list (string * Z)) (w : Watcher) :
  (lastTrigger w = None ->
     let run := feed stripAnsiModule patterns w chunks in
     (events (snd run) <= 1)%nat
     /\ (events (snd run) = 1%nat <-> lastTrigger (fst run) = Some held_hash)
     /\ (events (snd run) = 0%nat <-> lastTrigger (fst run) = None))
  /\ (lastTrigger w = Some held_hash ->
      events (snd (feed stripAnsiModule patterns w chunks)) = 0%nat).
Proof.
  split; [|intros Hheld; exact (proj1 (feed_awaiting stripAnsiModule patterns chunks w Hheld))].
  revert w. induction chunks as [|[data now] rest IH]; intros w Hnone run; subst run.
  - cbn. rewrite Hnone. repeat split; auto; try lia; discriminate.
  - cbn [feed fst snd].
    destruct (parseOptionsWith patterns (JS.join_nl (window stripAnsiModule w data)))
      as [r|] eqn:Hparse.
    + destruct (process_idle stripAnsiModule patterns w data now r Hnone Hparse)
        as (Hret & _ & Hheld & _).
      destruct (feed_awaiting stripAnsiModule patterns rest _ Hheld) as (Hev & Hlast & _).
      rewrite Hret. unfold events in *. cbn [List.filter length]. rewrite Hev, Hlast.
      repeat split; auto; try lia; discriminate.
    + destruct (process_quiet w data now Hnone Hparse) as (Hret & _ & Hstill).
      specialize (IH _ Hstill). cbn zeta in IH.
      rewrite Hret. unfold events in *. cbn [List.filter]. exact IH.
Qed.

Lemma held_hash_value : held_hash = "-5524989f".
Proof. vm_compute. reflexivity. Qed.

(** X23. The trigger in a state snapshot agrees with the event: right
    after [process] returned an [options] event, [getLastTrigger]
    returns the same prompt, choices and pattern name, stamped with the
    time of the detection.  A detector that holds no trigger reports
    none, even when its window shows a prompt; after [reset()] the
    snapshot has no trigger and the window text is empty. *)
Theorem snapshot_agrees (w : Watcher) (data : string) (now : Z) :
  (forall t : Trigger,
      returned (process stripAnsiModule patterns w data now) = Some t ->
      getLastTrigger patterns (next (process stripAnsiModule patterns w data now))
      = Some (mkLastTrigger "options" (t_prompt t) (t_options t) (t_patternName t) now))
  /\ (lastTrigger w = None -> getLastTrigger patterns w = None)
  /\ getLastTrigger patterns (reset w) = None
  /\ getBuffer (reset w) = "".
Proof.
  split; [|split; [|split; reflexivity]].
  - intros t. unfold process.
    destruct (parseOptionsWith patterns (JS.join_nl (window stripAnsiModule w data)))
      as [r|] eqn:Hparse; [|discriminate].
    destruct (negb _); [|discriminate].
    cbn [returned next]. intros [= <-]. unfold getLastTrigger.
    cbn [lastTrigger lines lastTriggerTime]. rewrite Hparse.
    rewrite (parseOptionsWith_prompt _ _ _ Hparse).
    change (_hashPrompt "Select option:") with held_hash. rewrite held_hash_value.
    reflexivity.
  - intros Hnone. unfold getLastTrigger. rewrite Hnone. reflexivity.
Qed.
End WatcherLaws.

Section HashLaws.
Import WatcherLib Props Laws.

Lemma toInt32_offset (z : Z) : exists k : Z, JS.toInt32 z = z + k * 2 ^ 32.
Proof.
  unfold JS.toInt32. cbv zeta.
  pose proof (Z.div_mod z (2 ^ 32) ltac:(lia)) as Hdm.
  destruct (2 ^ 31 <=? z mod 2 ^ 32).
  - exists (- (z / 2 ^ 32) - 1). lia.
  - exists (- (z / 2 ^ 32)). lia.
Qed.

Lemma toInt32_congruent (a b k : Z) : a = b + k * 2 ^ 32 -> JS.toInt32 a = JS.toInt32 b.
Proof.
  intros ->. unfold JS.toInt32. rewrite Z.mod_add by lia. reflexivity.
Qed.

Lemma toInt32_range (z : Z) : - 2 ^ 31 <= JS.toInt32 z < 2 ^ 31.
Proof.
  unfold JS.toInt32. cbv zeta.
  pose proof (Z.mod_pos_bound z (2 ^ 32) ltac:(lia)) as Hb.
  destruct (2 ^ 31 <=? z mod 2 ^ 32) eqn:Hc;
    [apply Z.leb_le in Hc|apply Z.leb_gt in Hc]; lia.
Qed.

(** One turn of the loop multiplies by 31, adds the code unit and wraps
    to 32 bits. *)
Lemma hash_step_31 (hash : Z) (c : ascii) :
  hash_step hash c = JS.toInt32 (31 * hash + JS.charCode c).
Proof.
  unfold hash_step, JS.and32, JS.shl32. cbv zeta. rewrite Z.land_diag.
  change (5 mod 32) with 5. rewrite Z.shiftl_mul_pow2 by lia.
  destruct (toInt32_offset hash) as [k0 H0].
  destruct (toInt32_offset (JS.toInt32 hash * 2 ^ 5)) as [k1 H1].
  destruct (toInt32_offset (JS.toInt32 (JS.toInt32 hash * 2 ^ 5) - hash + JS.charCode c))
    as [k2 H2].
  apply (toInt32_congruent _ _ (32 * k0 + k1 + k2)). lia.
Qed.

Lemma hash_fold (l : list ascii) (a b : Z) :
  JS.toInt32 a = JS.toInt32 b ->
  JS.toInt32 (fold_left hash_step l a)
  = JS.toInt32 (fold_left (fun acc c => 31 * acc + JS.charCode c) l b).
Proof.
  revert a b. induction l as [|c l IH]; intros a b Hab; [exact Hab|].
  cbn [fold_left]. apply IH. rewrite hash_step_31.
  destruct (toInt32_offset (31 * a + JS.charCode c)) as [k Hk].
  destruct (toInt32_offset a) as [ka Ha]. destruct (toInt32_offset b) as [kb Hb].
  rewrite Hk. apply (toInt32_congruent _ _ (k + 31 * (kb - ka))). lia.
Qed.

Lemma hash_fold_range (l : list ascii) (a : Z) :
  - 2 ^ 31 <= a < 2 ^ 31 -> - 2 ^ 31 <= fold_left hash_step l a < 2 ^ 31.
Proof.
  revert a. induction l as [|c l IH]; intros a Ha; [exact Ha|].
  cbn [fold_left]. apply IH. rewrite hash_step_31. apply toInt32_range.
Qed.

Lemma toInt32_id (z : Z) : - 2 ^ 31 <= z < 2 ^ 31 -> JS.toInt32 z = z.
Proof.
  intros Hz. destruct (toInt32_offset z) as [k Hk].
  pose proof (toInt32_range z) as Hr. lia.
Qed.

(** X24. The fingerprint is the polynomial hash with multiplier 31 of
    the code units, wrapped to a signed 32-bit integer and written in
    base 16: the shift-and-subtract of the loop multiplies by 31.  The
    detector and the notifier compute the same fingerprint. *)
Theorem hash_is_poly31 (prompt : string) :
  let h := fold_left hash_step (list_ascii_of_string prompt) 0 in
  h = JS.toInt32 (poly31 prompt)
  /\ - 2 ^ 31 <= h < 2 ^ 31
  /\ _hashPrompt prompt = JS.toString16 (JS.toInt32 (poly31 prompt))
  /\ NotifierLib._hashString prompt = _hashPrompt prompt.
Proof.
  intros h.
  assert (Hrange : - 2 ^ 31 <= h < 2 ^ 31) by (apply hash_fold_range; lia).
  assert (Hh : h = JS.toInt32 (poly31 prompt)).
  { rewrite <- (toInt32_id h Hrange). subst h. unfold poly31. apply hash_fold. reflexivity. }
  split; [exact Hh|]. split; [exact Hrange|]. split; [|reflexivity].
  unfold _hashPrompt. fold h. rewrite Hh. reflexivity.
Qed.
End HashLaws.

(* ===================================================================== *)
(** ** Pattern library: further properties *)
(* ===================================================================== *)

Section PatternOrder.
Import OptionParser Props Laws.

Lemma insert_prio_perm (x : Pattern) (l : list Pattern) :
  insert_by prio_le x l ≡ₚ x :: l.
Proof.
  induction l as [|y ys IH]; [reflexivity|]. cbn [insert_by].
  destruct (prio_le x y); [reflexivity|]. rewrite IH. apply Permutation_swap.
Qed.

Lemma sort_patterns_perm (ps : list Pattern) : sort_patterns ps ≡ₚ ps.
Proof.
  unfold sort_patterns, sort_by. induction ps as [|x ps IH]; [reflexivity|].
  cbn [fold_right]. rewrite insert_prio_perm, IH. reflexivity.
Qed.

Lemma insert_prio_sorted (x : Pattern) (l : list Pattern) :
  StronglySorted prio_desc l -> StronglySorted prio_desc (insert_by prio_le x l).
Proof.
  induction l as [|y ys IH]; intros Hs; cbn [insert_by].
  - constructor; [constructor|constructor].
  - apply StronglySorted_inv in Hs as [Hys Hy]. unfold prio_le at 1.
    destruct (priority y <=? priority x) eqn:Hcmp.
    + apply Z.leb_le in Hcmp. constructor; [constructor; assumption|].
      constructor; [exact Hcmp|].
      eapply Forall_impl; [exact Hy|]. unfold prio_desc. simpl. intros z Hz. lia.
    + apply Z.leb_gt in Hcmp. constructor; [exact (IH Hys)|].
      apply Forall_forall. intros z Hz. rewrite insert_prio_perm in Hz.
      apply elem_of_cons in Hz as [->|Hz]; [unfold prio_desc; lia|].
      rewrite Forall_forall in Hy. exact (Hy z Hz).
Qed.

Lemma sort_patterns_sorted (ps : list Pattern) : StronglySorted prio_desc (sort_patterns ps).
Proof.
  unfold sort_patterns, sort_by. induction ps as [|x ps IH]; [constructor|].
  cbn [fold_right]. apply insert_prio_sorted. exact IH.
Qed.

Lemma insert_prio_stable (k : Z) (x : Pattern) (l : list Pattern) :
  with_priority k (insert_by prio_le x l) = with_priority k (x :: l).
Proof.
  unfold with_priority. induction l as [|y ys IH]; [reflexivity|]. cbn [insert_by].
  unfold prio_le at 1. destruct (priority y <=? priority x) eqn:Hcmp; [reflexivity|].
  apply Z.leb_gt in Hcmp. cbn [List.filter] in *. rewrite IH.
  destruct (priority x =? k) eqn:Hx; [|reflexivity].
  apply Z.eqb_eq in Hx.
  destruct (priority y =? k) eqn:Hy; [apply Z.eqb_eq in Hy; lia|reflexivity].
Qed.

Lemma sort_patterns_stable (k : Z) (ps : list Pattern) :
  with_priority k (sort_patterns ps) = with_priority k ps.
Proof.
  unfold sort_patterns, sort_by. induction ps as [|x ps IH]; [reflexivity|].
  cbn [fold_right]. rewrite insert_prio_stable. unfold with_priority in *.
  cbn [List.filter]. rewrite IH. reflexivity.
Qed.

(** X25. [addPattern] throws when the pattern has no name (or an empty
    one), no [regex] or no [extract], and then leaves the table and the
    active order as they are.  Otherwise it appends the pattern to the
    table, with priority 5 when none (or 0) is given, and re-sorts: the
    active order holds exactly the registered patterns, in descending
    priority, and patterns of equal priority stay in the order of their
    registration.  The same holds of the initial order. *)
Theorem addPattern_order (table sorted : list Pattern) (pattern : PatternArg) :
  let out := addPattern table sorted pattern in
  (snd out <> None <->
   a_name pattern = None \/ a_name pattern = Some ""
   \/ a_regex pattern = None \/ a_extract pattern = None)
  /\ (snd out <> None ->
      out = (table, sorted, Some "Pattern must have name, regex, and extract properties"))
  /\ (forall (n : string) (re : string -> option (list string))
             (ex : list string -> string -> option (list Choice)),
        a_name pattern = Some n -> n <> "" ->
        a_regex pattern = Some re -> a_extract pattern = Some ex ->
        let p := mkPattern n re ex (JS.or_default (a_priority pattern) 5) in
        out = (table ++ [p], sort_patterns (table ++ [p]), None))
  /\ (forall ps : list Pattern,
        sort_patterns ps ≡ₚ ps
        /\ StronglySorted prio_desc (sort_patterns ps)
        /\ forall k : Z, with_priority k (sort_patterns ps) = with_priority k ps)
  /\ map name sortedPatterns
     = ["numbered-options"; "yes-no-always"; "yes-no"; "press-enter"; "letter-in-parens"].
Proof.
  intros out. subst out.
  assert (Hsort : forall ps : list Pattern,
        sort_patterns ps ≡ₚ ps
        /\ StronglySorted prio_desc (sort_patterns ps)
        /\ forall k : Z, with_priority k (sort_patterns ps) = with_priority k ps).
  { intros ps. split; [apply sort_patterns_perm|].
    split; [apply sort_patterns_sorted|]. intros k. apply sort_patterns_stable. }
  split; [|split; [|split; [|split; [exact Hsort|reflexivity]]]].
  - destruct pattern as [[[|c n]|] [re|] [ex|] prio]; cbn; split; intros H;
      first [ solve [auto 6]
            | discriminate
            | exfalso; apply H; reflexivity
            | destruct H as [H|[H|[H|H]]]; discriminate ].
  - destruct pattern as [[[|c n]|] [re|] [ex|] prio]; cbn; intros H;
      first [ reflexivity | exfalso; apply H; reflexivity ].
  - intros n re ex Hn Hne Hre Hex.
    destruct pattern as [on ore oex prio]. cbn [a_name a_regex a_extract a_priority] in *.
    subst on ore oex. destruct n as [|c n]; [destruct (Hne eq_refl)|].
    unfold addPattern, JS.or_default. cbn. destruct prio as [q|]; reflexivity.
Qed.

(** The loop of [parseOptions] returns the result of the first pattern
    of the list that qualifies. *)
Lemma first_match_spec (ps : list Pattern) (t : string) (r : ParseResult) :
  first_match ps t = Some r ->
  exists (before after : list Pattern) (p : Pattern) (m : list string),
    ps = before ++ p :: after
    /\ (forall q, In q before -> ~ qualifies q t)
    /\ OptionParser.regex p t = Some m
    /\ extract p m t = Some (options r)
    /\ options r <> []
    /\ r = mkResult "Select option:" (options r) (name p).
Proof.
  induction ps as [|p ps IH]; cbn [first_match]; [discriminate|].
  assert (Hskip : ~ qualifies p t -> first_match ps t = Some r ->
          exists before after p0 m, p :: ps = before ++ p0 :: after
            /\ (forall q, In q before -> ~ qualifies q t)
            /\ OptionParser.regex p0 t = Some m /\ extract p0 m t = Some (options r)
            /\ options r <> [] /\ r = mkResult "Select option:" (options r) (name p0)).
  { intros Hnq Hrest. destruct (IH Hrest) as (before & after & p0 & m & -> & Hb & H).
    exists (p :: before), after, p0, m. split; [reflexivity|]. split; [|exact H].
    intros q [<-|Hq]; [exact Hnq|exact (Hb q Hq)]. }
  destruct (OptionParser.regex p t) as [m|] eqn:Hre.
  - destruct (extract p m t) as [[|o os]|] eqn:Hex.
    + apply Hskip. intros (m' & o & os & Hm & He). congruence.
    + intros [= <-]. exists [], ps, p, m. cbn [options].
      split; [reflexivity|]. split; [intros q []|]. split; [exact Hre|].
      split; [exact Hex|]. split; [discriminate|reflexivity].
    + apply Hskip. intros (m' & o & os & Hm & He). congruence.
  - apply Hskip. intros (m' & o & os & Hm & He). congruence.
Qed.

Lemma first_match_none (ps : list Pattern) (t : string) :
  first_match ps t = None <-> forall q, In q ps -> ~ qualifies q t.
Proof.
  induction ps as [|p ps IH]; cbn [first_match].
  - split; [intros _ q []|reflexivity].
  - destruct (OptionParser.regex p t) as [m|] eqn:Hre.
    + destruct (extract p m t) as [[|o os]|] eqn:Hex.
      * rewrite IH. split.
        -- intros H q [<-|Hq]; [|exact (H q Hq)]. intros (m' & o & os & Hm & He). congruence.
        -- intros H q Hq. apply H. right. exact Hq.
      * split; [discriminate|]. intros H. exfalso. apply (H p); [left; reflexivity|].
        exists m, o, os. auto.
      * rewrite IH. split.
        -- intros H q [<-|Hq]; [|exact (H q Hq)]. intros (m' & o & os & Hm & He). congruence.
        -- intros H q Hq. apply H. right. exact Hq.
    + rewrite IH. split.
      * intros H q [<-|Hq]; [|exact (H q Hq)]. intros (m' & o & os & Hm & He). congruence.
      * intros H q Hq. apply H. right. exact Hq.
Qed.

(** X26. [parseOptions] returns the choices of one pattern only, a
    registered pattern that recognises the last fifty lines and extracts
    at least one choice from them, and no registered pattern of higher
    priority does so; it returns [null] exactly when the text is empty
    or no registered pattern qualifies. *)
Theorem highest_priority_wins (table : list Pattern) (text : string) :
  (forall r : ParseResult,
      parseOptionsWith (sort_patterns table) text = Some r ->
      exists (p : Pattern) (m : list string),
        In p table
        /\ OptionParser.regex p (recentLines_of text) = Some m
        /\ extract p m (recentLines_of text) = Some (options r)
        /\ options r <> []
        /\ patternName r = name p
        /\ forall q : Pattern,
             In q table -> priority p < priority q -> ~ qualifies q (recentLines_of text))
  /\ (parseOptionsWith (sort_patterns table) text = None <->
      text = "" \/ forall q : Pattern, In q table -> ~ qualifies q (recentLines_of text)).
Proof.
  split.
  - intros r. unfold parseOptionsWith. destruct text as [|c text]; [discriminate|].
    fold (recentLines_of (String c text)). intros Hfm.
    destruct (first_match_spec _ _ _ Hfm) as (before & after & p & m & Hsplit & Hb & Hre & Hex & Hne & Hr).
    pose proof (sort_patterns_perm table) as Hperm.
    pose proof (sort_patterns_sorted table) as Hsorted.
    rewrite Hsplit in Hperm, Hsorted.
    exists p, m. split.
    { apply list_elem_of_In. rewrite <- Hperm. apply list_elem_of_In.
      apply in_or_app. right. left. reflexivity. }
    split; [exact Hre|]. split; [exact Hex|]. split; [exact Hne|].
    split; [rewrite Hr; reflexivity|].
    intros q Hq Hprio.
    assert (Hq' : In q (before ++ p :: after)).
    { apply list_elem_of_In. rewrite Hperm. apply list_elem_of_In. exact Hq. }
    apply in_app_or in Hq' as [Hq'|[<-|Hq']]; [exact (Hb q Hq')|lia|].
    apply StronglySorted_app in Hsorted as (_ & _ & Hs).
    apply StronglySorted_inv in Hs as [_ Hall].
    rewrite Forall_forall in Hall. apply list_elem_of_In in Hq'.
    specialize (Hall q Hq'). unfold prio_desc in Hall. lia.
  - unfold parseOptionsWith. destruct text as [|c text].
    + split; [auto|reflexivity].
    + fold (recentLines_of (String c text)). rewrite first_match_none. split.
      * intros H. right. intros q Hq. apply H.
        apply list_elem_of_In. rewrite sort_patterns_perm. apply list_elem_of_In. exact Hq.
      * intros [Hempty|H]; [discriminate|]. intros q Hq. apply H.
        apply list_elem_of_In. rewrite <- (sort_patterns_perm table).
        apply list_elem_of_In. exact Hq.
Qed.
End PatternOrder.

Section BuiltinPatterns.
Import OptionParser Props Laws.

Lemma scan_sound {A} (re : Rx.t A) (s : string) (k : nat) (whole : string) (a : A) :
  In (whole, a) (Rx.scan re k s) ->
  exists (pre suf rest : string) (others : list (A * string)),
    s = pre +:+ suf /\ re suf = (a, rest) :: others.
Proof.
  revert k. induction s as [|x s IH]; intros k.
  - destruct k; cbn [Rx.scan]; [|intros []].
    destruct (re "") as [|[a0 rest] others] eqn:Hre; [intros []|].
    intros [[= _ <-]|[]]. exists "", "", rest, others. auto.
  - assert (Htail : forall k', In (whole, a) (Rx.scan re k' s) ->
              exists pre suf rest others, String x s = pre +:+ suf /\ re suf = (a, rest) :: others).
    { intros k' Hin. destruct (IH k' Hin) as (pre & suf & rest & others & -> & Hsuf).
      exists (String x pre), suf, rest, others. auto. }
    destruct k; cbn [Rx.scan]; [|apply Htail].
    destruct (re (String x s)) as [|[a0 rest] others] eqn:Hre; [apply Htail|].
    intros [[= _ <-]|Hin]; [|exact (Htail _ Hin)].
    exists "", (String x s), rest, others. auto.
Qed.

Lemma alpha_cases (c : ascii) :
  JS.is_alpha c = true ->
  JS.is_lower (JS.lower_char c) = true
  /\ JS.is_upper (JS.upper_char (JS.lower_char c)) = true.
Proof.
  destruct c as [b0 b1 b2 b3 b4 b5 b6 b7].
  destruct b0, b1, b2, b3, b4, b5, b6, b7; vm_compute; intros H;
    first [discriminate H | split; reflexivity].
Qed.

Lemma re_letter_sound (s rest word : string) (c : ascii) :
  In ((c, word), rest) (re_letter_in_parens s) ->
  s = "(" +:+ String c (")" +:+ word +:+ rest)
  /\ JS.is_alpha c = true /\ word <> "" /\ all_chars JS.is_alpha word = true.
Proof.
  unfold re_letter_in_parens, Rx.seq. rewrite bind_spec.
  intros (u & s1 & Hopen & Hrest).
  apply bind_spec in Hrest as (c0 & s2 & Hc & Hrest).
  apply bind_spec in Hrest as (u' & s3 & Hclose & Hrest).
  apply bind_spec in Hrest as (w & s4 & Hw & Hret).
  destruct Hret as [[= <- <- <-]|[]].
  apply lit_sound in Hopen as ->. apply cls_spec in Hc as (-> & Halpha).
  apply lit_sound in Hclose as ->. apply plus_sound in Hw as (-> & Hne & Hall).
  auto.
Qed.

Lemma extract_letters_spec (text : string) (os : list Choice) :
  extract_letters text = Some os ->
  (2 <= length os)%nat /\ Forall (letter_choice text) os.
Proof.
  unfold extract_letters. destruct (2 <=? _) eqn:Hlen; [|discriminate].
  intros [= <-]. apply Z.leb_le in Hlen. split; [lia|].
  apply Forall_forall. intros o Ho. apply list_elem_of_In in Ho.
  apply in_map_iff in Ho as ([whole [c word]] & <- & Hin).
  destruct (scan_sound _ _ _ _ _ Hin) as (pre & suf & rest & others & Htext & Hsuf).
  assert (Hm : In ((c, word), rest) (re_letter_in_parens suf)) by (rewrite Hsuf; left; reflexivity).
  apply re_letter_sound in Hm as (-> & Halpha & Hne & Hall).
  destruct (alpha_cases c Halpha) as [Hlow Hup].
  exists c, word, pre, rest. cbn [fst snd value label]. repeat split; auto.
Qed.

Lemma extract_numbered_spec (text : string) (os : list Choice) :
  extract_numbered text = Some os ->
  (2 <= length os)%nat /\ Forall numbered_choice os.
Proof.
  unfold extract_numbered. destruct (2 <=? _) eqn:Hlen; [|discriminate].
  intros [= <-]. apply Z.leb_le in Hlen. split; [lia|].
  apply Forall_forall. intros o Ho. apply list_elem_of_In in Ho.
  apply in_map_iff in Ho as (num & <- & Hin). split; [reflexivity|].
  cbn [value]. apply list_elem_of_In in Hin.
  rewrite (sort_by_perm JS.parseInt_digits (numbered_found text)) in Hin.
  apply list_elem_of_In in Hin. unfold numbered_found in Hin.
  destruct (numbered_fold (JS.split_nl text) [] (NoDup_nil_2 (A:=string))) as (_ & Hfold).
  apply Hfold in Hin as [[]|(line & _ & _ & Hr)]. exact Hr.
Qed.

(** X27. With the built-in patterns, a result of [parseOptions] is one
    of five kinds: at least two numbered choices, each with its numeral
    (of value 1..20) as label and value; Yes/No/Always; Yes/No; the
    single choice OK with the empty value; or at least two letter
    choices, each taken from an occurrence of ["(c)word"] in the last
    fifty lines, with the lower-case letter as value and the upper-case
    letter followed by the word as label. *)
Theorem builtin_results (text : string) (r : ParseResult) :
  parseOptions text = Some r ->
  (patternName r = "numbered-options"
   /\ (2 <= length (options r))%nat /\ Forall numbered_choice (options r))
  \/ (patternName r = "yes-no-always"
      /\ options r = [mkChoice "Yes" "y"; mkChoice "No" "n"; mkChoice "Always" "a"])
  \/ (patternName r = "yes-no"
      /\ options r = [mkChoice "Yes" "y"; mkChoice "No" "n"])
  \/ (patternName r = "press-enter" /\ options r = [mkChoice "OK" ""])
  \/ (patternName r = "letter-in-parens"
      /\ (2 <= length (options r))%nat
      /\ Forall (letter_choice (recentLines_of text)) (options r)).
Proof.
  unfold parseOptions, parseOptionsWith. destruct text as [|c0 text]; [discriminate|].
  fold (recentLines_of (String c0 text)). generalize (recentLines_of (String c0 text)).
  intros t. change sortedPatterns with
    [mkPattern "numbered-options" (match1 re_numbered) (fun _ text => extract_numbered text) 15;
     mkPattern "yes-no-always" (match1 re_yes_no_always)
       (fun _ _ => Some [mkChoice "Yes" "y"; mkChoice "No" "n"; mkChoice "Always" "a"]) 11;
     mkPattern "yes-no" (match1 re_yes_no)
       (fun _ _ => Some [mkChoice "Yes" "y"; mkChoice "No" "n"]) 10;
     mkPattern "press-enter" (match1 re_press_enter) (fun _ _ => Some [mkChoice "OK" ""]) 9;
     mkPattern "letter-in-parens" (matchG re_letter_in_parens)
       (fun _ text => extract_letters text) 8].
  cbn [first_match OptionParser.regex extract name].
  assert (Hnum : forall os, extract_numbered t = Some os ->
            forall o os', os = o :: os' ->
            Some (mkResult "Select option:" (o :: os') "numbered-options") = Some r ->
            patternName r = "numbered-options"
            /\ (2 <= length (options r))%nat /\ Forall numbered_choice (options r)).
  { intros os Hos o os' -> [= <-]. cbn [patternName options].
    split; [reflexivity|]. apply (extract_numbered_spec t). exact Hos. }
  assert (Hlet : forall os, extract_letters t = Some os ->
            forall o os', os = o :: os' ->
            Some (mkResult "Select option:" (o :: os') "letter-in-parens") = Some r ->
            patternName r = "letter-in-parens"
            /\ (2 <= length (options r))%nat /\ Forall (letter_choice t) (options r)).
  { intros os Hos o os' -> [= <-]. cbn [patternName options].
    split; [reflexivity|]. apply (extract_letters_spec t). exact Hos. }
  destruct (match1 re_numbered t) as [m1|];
    [destruct (extract_numbered t) as [[|o os]|] eqn:Hen;
       [| intros H; left; exact (Hnum _ eq_refl _ _ eq_refl H) |]|];
    (destruct (match1 re_yes_no_always t);
       [intros [= <-]; right; left; split; reflexivity|]);
    (destruct (match1 re_yes_no t);
       [intros [= <-]; right; right; left; split; reflexivity|]);
    (destruct (match1 re_press_enter t);
       [intros [= <-]; right; right; right; left; split; reflexivity|]);
    (destruct (matchG re_letter_in_parens t); [|discriminate]);
    (destruct (extract_letters t) as [[|o' os']|] eqn:Hel; try discriminate);
    intros H; right; right; right; right; exact (Hlet _ eq_refl _ _ eq_refl H).
Qed.
End BuiltinPatterns.

Section BuiltinPatternsExamples.
Import OptionParser Props Laws.

Lemma builtin_results_witness :
  exists r : ParseResult,
    parseOptions "Would you like to (a)pply or (r)eject?" = Some r
    /\ patternName r = "letter-in-parens"
    /\ Forall (letter_choice "Would you like to (a)pply or (r)eject?") (options r).
Proof.
  eexists. split; [vm_compute; reflexivity|].
  destruct (builtin_results "Would you like to (a)pply or (r)eject?"
              (mkResult "Select option:"
                 [mkChoice "Apply" "a"; mkChoice "Reject" "r"] "letter-in-parens"))
    as [(H & _)|[(H & _)|[(H & _)|[(H & _)|(Hn & _ & Hall)]]]];
    try (vm_compute in H; discriminate H).
  - vm_compute. reflexivity.
  - split; [reflexivity|]. exact Hall.
Defined.
End BuiltinPatternsExamples.

Section StripLaws.
Import OptionParser WatcherLib Props Laws.

Lemma length_drop (k : nat) (s : string) :
  String.length (JS.drop k s) = (String.length s - k)%nat.
Proof.
  revert s. induction k as [|k IH]; intros [|x s]; cbn [JS.drop String.length]; try lia.
  rewrite IH. reflexivity.
Qed.

(** X30. [stripAnsi] hands the [strip-ansi] package the chunk itself
    when it has at most 100000 code units, and otherwise its last
    100000 code units only: what comes before them in a single chunk is
    never looked at. *)
Theorem stripAnsi_cap (strip : string -> string) (text : string) :
  exists dropped kept : string,
    text = dropped +:+ kept
    /\ stripAnsi strip text = strip kept
    /\ JS.strlen kept <= 100000
    /\ (JS.strlen text <= 100000 -> kept = text)
    /\ (100000 < JS.strlen text -> JS.strlen kept = 100000).
Proof.
  unfold stripAnsi. destruct (100000 <? JS.strlen text) eqn:Hcmp.
  - apply Z.ltb_lt in Hcmp. unfold JS.str_slice, JS.slice_from.
    change (-100000 <? 0) with true. cbv iota.
    exists (JS.take (Z.to_nat (Z.max (JS.strlen text + -100000) 0)) text),
           (JS.drop (Z.to_nat (Z.max (JS.strlen text + -100000) 0)) text).
    split; [symmetry; apply take_drop|]. split; [reflexivity|].
    unfold JS.strlen in *. rewrite length_drop. repeat split; lia.
  - apply Z.ltb_ge in Hcmp. exists "", text. repeat split; auto; lia.
Qed.
End StripLaws.

Section WatcherLawsExamples.
Import OptionParser WatcherLib Props Laws.

Lemma window_invariant_witness :
  Z.of_nat (length (lines (next (process (fun s => s) sortedPatterns two_line_watcher
                                   ("Do you want to proceed? (y/n)" +:+ JS.nl) 1000))))
  <= 2.
Proof.
  destruct (window_invariant (fun s => s) sortedPatterns two_line_watcher
              ("Do you want to proceed? (y/n)" +:+ JS.nl) 1000) as (_ & H & _).
  - vm_compute. discriminate.
  - repeat constructor.
  - exact H.
Defined.
End WatcherLawsExamples.

(* ===================================================================== *)
(** ** The server as a whole: what every handler keeps *)
(* ===================================================================== *)

Section ServerLaws.
Import PtyManager WatcherLib Server Props Laws.

Variable stripAnsiModule : string -> string.
Variable patterns : list OptionParser.Pattern.
Variable Buffer_from : string -> list Byte.byte.
Variable claude_opts : list string.

Local Abbreviation process := (WatcherLib.process stripAnsiModule patterns).
Local Abbreviation broadcastOutput := (Server.broadcastOutput stripAnsiModule patterns).
Local Abbreviation startClaude := (Server.startClaude claude_opts).
Local Abbreviation handleClientMessage :=
  (Server.handleClientMessage stripAnsiModule patterns claude_opts).
Local Abbreviation step := (Server.step stripAnsiModule patterns Buffer_from claude_opts).
Local Abbreviation run := (Server.run stripAnsiModule patterns Buffer_from claude_opts).

(** [process] calls [onTrigger] exactly when it returns a trigger, and
    with the same prompt. *)
Lemma process_callback (w : Watcher) (data : string) (now : Z) :
  match returned (process w data now), WatcherLib.onTrigger (process w data now) with
  | Some t, Some r => t_prompt t = OptionParser.prompt r
  | None, None => True
  | _, _ => False
  end.
Proof.
  unfold WatcherLib.process.
  destruct (OptionParser.parseOptionsWith _ _) as [r|]; [|exact I].
  destruct (negb _); [reflexivity|exact I].
Qed.

(** [process] never clears a held trigger. *)
Lemma process_keeps (w : Watcher) (data : string) (now : Z) :
  is_Some (lastTrigger w) -> is_Some (lastTrigger (next (process w data now))).
Proof.
  intros Hheld. unfold WatcherLib.process.
  destruct (OptionParser.parseOptionsWith _ _) as [r|]; [|exact Hheld].
  destruct (negb _); [eexists; reflexivity|exact Hheld].
Qed.

(** What [notify], up to its request, may change. *)
Lemma notify_begin_spec (n : NotifierLib.Notifier) (prompt : string) (now : Z) :
  let nb := NotifierLib.notify_begin n prompt None "high" false now in
  NotifierLib.topic (fst nb) = NotifierLib.topic n
  /\ NotifierLib.lastNotificationHash (fst nb) = NotifierLib.lastNotificationHash n
  /\ NotifierLib.lastNotificationTime (fst nb) = NotifierLib.lastNotificationTime n
  /\ (NotifierLib.truthy (NotifierLib.topic n) = false -> nb = (n, inl NotifierLib.NoTopic))
  /\ (NotifierLib.truthy (NotifierLib.topic n) = true ->
      (nb = (NotifierLib.bump_debounced n, inl NotifierLib.Debounced))
      \/ (exists req, nb = (n, inr req))).
Proof.
  unfold NotifierLib.notify_begin.
  destruct (NotifierLib.truthy (NotifierLib.topic n)) eqn:Htopic; cbn [negb].
  - match goal with |- context [if ?c then _ else _] => destruct c end.
    + cbn. repeat split; try reflexivity; try discriminate. intros _. left. reflexivity.
    + cbn [fst]. repeat split; try reflexivity; try discriminate.
      intros _. right. eexists. reflexivity.
  - cbn [fst]. repeat split; try reflexivity; discriminate.
Qed.

(** The [onTrigger] callback touches the notifier and the two logs of
    notifications only. *)
Lemma on_trigger_frame (s : Srv) (r : OptionParser.ParseResult) (now : Z) :
  let s' := on_trigger s r now in
  rest_of s' = rest_of s /\ access_of s' = access_of s
  /\ watcher s' = watcher s /\ broadcasts s' = broadcasts s
  /\ pushes s' = pushes s ++ [("Claude Code - Input Needed", OptionParser.prompt r)]
  /\ notifier s'
     = fst (NotifierLib.notify_begin (notifier s) (OptionParser.prompt r) None "high" false now)
  /\ requests s'
     = requests s
       ++ match snd (NotifierLib.notify_begin (notifier s) (OptionParser.prompt r)
                       None "high" false now) with
          | inr req => [req]
          | inl _ => []
          end.
Proof.
  unfold on_trigger.
  destruct (NotifierLib.notify_begin _ _ _ _ _ _) as [n' [res|req]]; cbn;
    rewrite ?app_nil_r; repeat split; reflexivity.
Qed.

(** One call of [broadcastOutput]. *)
Lemma broadcastOutput_spec (s : Srv) (data : string) (env : Env) :
  let p := process (watcher s) data (t_process env) in
  let s' := broadcastOutput s data env in
  watcher s' = next p
  /\ broadcasts s'
     = broadcasts s
       ++ MsgOutput data :: match returned p with Some t => [MsgOptions t] | None => [] end
  /\ rest_of s' = rest_of s /\ access_of s' = access_of s
  /\ match WatcherLib.onTrigger p with
     | Some r =>
         pushes s' = pushes s ++ [("Claude Code - Input Needed", OptionParser.prompt r)]
         /\ notifier s'
            = fst (NotifierLib.notify_begin (notifier s) (OptionParser.prompt r)
                     None "high" false (t_notify env))
         /\ requests s'
            = requests s
              ++ match snd (NotifierLib.notify_begin (notifier s) (OptionParser.prompt r)
                              None "high" false (t_notify env)) with
                 | inr req => [req]
                 | inl _ => []
                 end
     | None => pushes s' = pushes s /\ notifier s' = notifier s /\ requests s' = requests s
     end.
Proof.
  cbv zeta. unfold Server.broadcastOutput.
  pose proof (process_callback (watcher s) data (t_process env)) as Hcb.
  destruct (WatcherLib.onTrigger (process (watcher s) data (t_process env))) as [r|].
  - destruct (on_trigger_frame
                (set_watcher s (next (process (watcher s) data (t_process env)))) r
                (t_notify env)) as (Hr & Ha & Hw & Hb & Hp & Hn & Hq).
    destruct (returned (process (watcher s) data (t_process env))) as [t|]; [|destruct Hcb].
    cbn [watcher broadcasts broadcast pushes notifier requests rest_of access_of
         ptyManager sessions bannedIps wsConnections themeSent mockMode mockInputHandler
         ptyCalls] in *.
    rewrite Hw, Hb, Hp, Hn, Hq. cbn. rewrite <- app_assoc.
    unfold rest_of, access_of in *. cbn in *.
    repeat split; try reflexivity; try congruence.
  - destruct (returned (process (watcher s) data (t_process env))) as [t|]; [destruct Hcb|].
    cbn. repeat split; reflexivity.
Qed.

Lemma srv_ok_same (s s' : Srv) :
  running (ptyManager s') = running (ptyManager s) ->
  pty (ptyManager s') = pty (ptyManager s) ->
  mockMode s' = mockMode s ->
  srv_ok s -> srv_ok s'.
Proof. unfold srv_ok. intros -> -> ->. auto. Qed.

Lemma rest_of_ok (s s' : Srv) : rest_of s' = rest_of s -> srv_ok s -> srv_ok s'.
Proof.
  unfold rest_of. intros H. apply srv_ok_same; congruence.
Qed.

Lemma write_manager (m : PTYManager) (data : string) : fst (fst (write m data)) = m.
Proof. unfold write. destruct (pty m); [destruct (running m)|]; reflexivity. Qed.

Lemma onData_manager (m : PTYManager) (data : string) :
  running (fst (onData Buffer_from m data)) = running m
  /\ pty (fst (onData Buffer_from m data)) = pty m.
Proof.
  unfold onData, _appendToBuffer. cbn [fst].
  match goal with |- context [if ?c then _ else _] => destruct c end; split; reflexivity.
Qed.

Lemma broadcastOutput_ok (s : Srv) (data : string) (env : Env) :
  srv_ok s -> srv_ok (broadcastOutput s data env).
Proof.
  apply rest_of_ok. apply (broadcastOutput_spec s data env).
Qed.

Lemma startClaude_ok (s : Srv) (extraArgs : Args.Value)
    (customCwd : option (Completion string)) (env : Env) :
  srv_ok s -> srv_ok (fst (startClaude s extraArgs customCwd env)).
Proof.
  unfold srv_ok, Server.startClaude, startMockMode, spawn, isRunning.
  destruct s as [m w n ss bi wc th mock mh bc pc rq ps].
  destruct m as [p bs b ec run0 c r]. cbn. intros [H1 H2].
  destruct run0; cbn; [split; assumption|].
  destruct (Args.validateArgs extraArgs) as [validated|e]; cbn; [|split; assumption].
  destruct (working_directory customCwd) as [cwd|e]; cbn; [|split; assumption].
  destruct (mkdirError env) as [e|]; cbn; [split; assumption|].
  destruct mock; cbn; [split; assumption|].
  destruct (spawned env) as [h|e]; cbn; split; eauto; discriminate.
Qed.

Lemma kill_ok_srv (s : Srv) (signal : string) :
  srv_ok s ->
  srv_ok (set_ptyManager s (fst (kill (ptyManager s) signal))
            (snd (kill (ptyManager s) signal))).
Proof.
  unfold srv_ok, kill. intros [H1 H2].
  destruct s as [m w n ss bi wc th mock mh bc pc rq ps].
  destruct m as [p bs b ec run0 c r]. cbn in *.
  destruct p as [h|]; [destruct run0|]; cbn;
    (split; [intros Hr; try discriminate; auto
            |intros Hm; destruct (H2 Hm); split; congruence]).
Qed.

Lemma handleClientMessage_ok (s : Srv) (data : ClientMessage) (env : Env) :
  srv_ok s -> srv_ok (fst (handleClientMessage s data env)).
Proof.
  intros Hok. unfold Server.handleClientMessage, Server.originalHandleClientMessage.
  destruct data as [args cwd|d|c r| | |].
  - apply startClaude_ok. exact Hok.
  - destruct (mockMode s && mockInputHandler s).
    + cbn [fst]. apply broadcastOutput_ok. revert Hok. apply srv_ok_same; reflexivity.
    + unfold handle_input. destruct (isRunning (ptyManager s)); [|exact Hok].
      pose proof (write_manager (ptyManager s) d) as Hw.
      destruct (write (ptyManager s) d) as [[m calls] [u|e]]; [|exact Hok].
      cbn [fst] in Hw. subst m. revert Hok.
      destruct (String.eqb d JS.cr || JS.includes JS.cr d); apply srv_ok_same; reflexivity.
  - destruct ((c =? 0) || (r =? 0)); [exact Hok|]. cbn [fst]. revert Hok.
    unfold resize. apply srv_ok_same; cbn;
      destruct (pty (ptyManager s)); try destruct (running (ptyManager s)); reflexivity.
  - cbn [fst]. apply kill_ok_srv. exact Hok.
  - exact Hok.
  - exact Hok.
Qed.

Lemma step_ok_srv (s : Srv) (ev : Event) : srv_ok s -> srv_ok (step s ev).
Proof.
  intros Hok.
  destruct ev as [[data|] env|data menu env|code signal| |text wait env|req resp| ];
    cbn [Server.step].
  - apply handleClientMessage_ok. exact Hok.
  - exact Hok.
  - unfold Server.on_data.
    set (s1 := broadcastOutput
                 (set_ptyManager s (fst (onData Buffer_from (ptyManager s) data)) []) data env).
    assert (Hok1 : srv_ok s1).
    { subst s1. apply broadcastOutput_ok. revert Hok.
      destruct (onData_manager (ptyManager s) data) as [Hr Hp].
      apply srv_ok_same; [exact Hr|exact Hp|reflexivity]. }
    fold s1.
    destruct (negb (themeSent s1) && menu); [|exact Hok1].
    revert Hok1. apply srv_ok_same; cbn [ptyManager set_ptyManager set_themeSent mockMode];
      rewrite ?write_manager; reflexivity.
  - unfold on_exit, onExit, srv_ok in *. destruct Hok as [H1 H2]. cbn.
    split; [discriminate|]. intros Hm. destruct (H2 Hm) as [_ Hp]. auto.
  - unfold on_theme_timer. destruct (isRunning (ptyManager s)); [|exact Hok].
    revert Hok. apply srv_ok_same; cbn [ptyManager set_ptyManager mockMode];
      rewrite ?write_manager; reflexivity.
  - destruct (mockMode s); [|exact Hok]. unfold on_mock_timer.
    pose proof (broadcastOutput_ok s text env Hok) as Hok1.
    destruct wait; [|exact Hok1]. revert Hok1. apply srv_ok_same; reflexivity.
  - revert Hok. apply srv_ok_same; reflexivity.
  - apply kill_ok_srv. exact Hok.
Qed.

Lemma run_ok_srv (evs : list Event) (s : Srv) : srv_ok s -> srv_ok (run s evs).
Proof.
  revert s. induction evs as [|ev evs IH]; intros s Hok; [exact Hok|].
  cbn [Server.run fold_left]. apply IH. apply step_ok_srv. exact Hok.
Qed.

Lemma init_ok_srv (mock : bool) (n : NotifierLib.Notifier) : srv_ok (init mock n).
Proof. split; [discriminate|]. intros _. split; reflexivity. Qed.

Lemma broadcastOutput_mockMode (s : Srv) (data : string) (env : Env) :
  mockMode (broadcastOutput s data env) = mockMode s.
Proof.
  pose proof (broadcastOutput_spec s data env) as (_ & _ & Hr & _).
  unfold rest_of in Hr. congruence.
Qed.

Lemma step_mockMode (s : Srv) (ev : Event) : mockMode (step s ev) = mockMode s.
Proof.
  destruct ev as [[data|] env|data menu env|code signal| |text wait env|req resp| ];
    cbn [Server.step]; try reflexivity.
  - unfold Server.handleClientMessage, Server.originalHandleClientMessage.
    destruct data as [args cwd|d|c r| | |]; try reflexivity.
    + unfold Server.startClaude, startMockMode.
      destruct s as [m w n ss bi wc th mock mh bc pc rq ps]. cbn.
      destruct (isRunning m); [reflexivity|].
      destruct (Args.validateArgs args); [|reflexivity].
      destruct (working_directory cwd); [|reflexivity].
      destruct (mkdirError env); [reflexivity|].
      destruct mock; [reflexivity|].
      destruct (spawn _ _ _ _) as [[m' effs] [u|e]]; reflexivity.
    + destruct (mockMode s && mockInputHandler s).
      * cbn [fst]. rewrite broadcastOutput_mockMode. reflexivity.
      * unfold handle_input. destruct (isRunning (ptyManager s)); [|reflexivity].
        destruct (write (ptyManager s) d) as [[m calls] [u|e]]; [|reflexivity].
        destruct (String.eqb d JS.cr || JS.includes JS.cr d); reflexivity.
    + destruct ((c =? 0) || (r =? 0)); reflexivity.
  - unfold Server.on_data.
    match goal with |- context [if ?c then _ else _] => destruct c end;
      cbn [mockMode set_ptyManager set_themeSent];
      rewrite broadcastOutput_mockMode; reflexivity.
  - unfold on_theme_timer. destruct (isRunning (ptyManager s)); reflexivity.
  - destruct (mockMode s) eqn:Hm; [|exact Hm]. unfold on_mock_timer.
    destruct wait; cbn [mockMode set_mockInputHandler];
      rewrite broadcastOutput_mockMode; exact Hm.
Qed.

Lemma run_mockMode (evs : list Event) (s : Srv) : mockMode (run s evs) = mockMode s.
Proof.
  revert s. induction evs as [|ev evs IH]; intros s; [reflexivity|].
  transitivity (mockMode (step s ev)); [apply (IH (step s ev))|apply step_mockMode].
Qed.

Lemma includes_cr_or (data : string) :
  String.eqb data JS.cr || JS.includes JS.cr data = JS.includes JS.cr data.
Proof.
  destruct (String.eqb data JS.cr) eqn:Heq; [|reflexivity].
  apply String.eqb_eq in Heq. subst data. reflexivity.
Qed.

(** [startClaude] when no session runs resets the detector first. *)
Lemma startClaude_watcher (s : Srv) (extraArgs : Args.Value)
    (customCwd : option (Completion string)) (env : Env) :
  watcher (fst (startClaude s extraArgs customCwd env))
  = if isRunning (ptyManager s) then watcher s else reset (watcher s).
Proof.
  unfold Server.startClaude, startMockMode.
  destruct (isRunning (ptyManager s)); [reflexivity|].
  destruct (Args.validateArgs extraArgs); [|reflexivity].
  destruct (working_directory customCwd); [|reflexivity].
  destruct (mkdirError env); [reflexivity|].
  destruct (mockMode _); [reflexivity|].
  destruct (spawn _ _ _ _) as [[m effs] [u|e]]; reflexivity.
Qed.

(** An input message while the session runs. *)
Lemma handle_input_running (s : Srv) (data : string) :
  srv_ok s -> isRunning (ptyManager s) = true ->
  let s' := fst (handle_input s data) in
  ptyCalls s' = ptyCalls s ++ [PtyWrite data]
  /\ notifier s' = NotifierLib.resetDebounce (notifier s)
  /\ watcher s' = (if JS.includes JS.cr data then reset (watcher s) else watcher s)
  /\ broadcasts s'
     = (if JS.includes JS.cr data then broadcasts s ++ [MsgHideOptions] else broadcasts s).
Proof.
  intros [Hpty _] Hrun. unfold isRunning in Hrun. destruct (Hpty Hrun) as [h Hh].
  unfold handle_input, write, isRunning. rewrite Hrun, Hh, includes_cr_or.
  destruct (JS.includes JS.cr data); cbn; repeat split; reflexivity.
Qed.

Lemma held_None {A} (x : option A) : is_Some x -> (x = None <-> False).
Proof. intros [a ->]. split; [discriminate|intros []]. Qed.

(** One event clears a held trigger exactly when it is one of the two
    clearing events. *)
Lemma step_clears (s : Srv) (ev : Event) :
  srv_ok s -> is_Some (lastTrigger (watcher s)) ->
  (lastTrigger (watcher (step s ev)) = None <-> clears s ev).
Proof.
  intros Hok Hheld.
  assert (Hout : forall (s0 : Srv) (d : string) (env : Env),
            watcher s0 = watcher s ->
            (lastTrigger (watcher (broadcastOutput s0 d env)) = None <-> False)).
  { intros s0 d env Hw. apply held_None.
    destruct (broadcastOutput_spec s0 d env) as (-> & _). rewrite Hw.
    apply process_keeps. exact Hheld. }
  destruct ev as [[data|] env|data menu env|code signal| |text wait env|req resp| ];
    cbn [Server.step clears]; try (apply held_None; exact Hheld).
  - unfold Server.handleClientMessage, Server.originalHandleClientMessage.
    destruct data as [args cwd|d|c r| | |]; try (apply held_None; exact Hheld).
    + rewrite startClaude_watcher. destruct (isRunning (ptyManager s)).
      * rewrite (held_None _ Hheld). split; [intros []|discriminate].
      * split; reflexivity.
    + destruct (mockMode s && mockInputHandler s) eqn:Hmock.
      * cbn [fst]. rewrite (Hout (set_mockInputHandler s false) d env eq_refl).
        apply andb_true_iff in Hmock as [Hm _]. destruct Hok as [_ Hmk].
        destruct (Hmk Hm) as [Hr _]. unfold isRunning. rewrite Hr.
        split; [intros []|intros [H _]; discriminate H].
      * destruct (isRunning (ptyManager s)) eqn:Hrun.
        -- destruct (handle_input_running s d Hok Hrun) as (_ & _ & -> & _).
           destruct (JS.includes JS.cr d).
           ++ split; [auto|reflexivity].
           ++ rewrite (held_None _ Hheld). split; [intros []|intros [_ H]; discriminate H].
        -- unfold handle_input. rewrite Hrun. cbn [fst].
           rewrite (held_None _ Hheld). split; [intros []|intros [H _]; discriminate H].
    + destruct ((c =? 0) || (r =? 0)); apply held_None; exact Hheld.
  - unfold Server.on_data.
    match goal with |- context [if ?c then _ else _] => destruct c end;
      cbn [watcher set_ptyManager set_themeSent]; apply Hout; reflexivity.
  - unfold on_theme_timer. destruct (isRunning (ptyManager s)); apply held_None; exact Hheld.
  - destruct (mockMode s); [|apply held_None; exact Hheld]. unfold on_mock_timer.
    destruct wait; cbn [watcher set_mockInputHandler]; apply Hout; reflexivity.
Qed.

(** C9, refuted as stated: the subprocess exiting does not clear the
    held trigger. *)
Lemma C9_exit_keeps_trigger :
  ~ (forall (s : Srv) (code : Z) (signal : option Z),
        lastTrigger (watcher (on_exit s code signal)) = None).
Proof.
  intros H. specialize (H awaiting_server 0 None).
  vm_compute in H. discriminate H.
Qed.

(** C9, amended.  In every state the server can reach, a held trigger
    is cleared by an event exactly when the event is an input message
    with a carriage return that arrives while the session runs, or a
    start request that arrives while no session runs.  An input message
    (its data a string) handled while the session runs is written to
    the subprocess and clears the notifier's debounce memory; when its
    data contains a carriage return it also resets the detector and
    broadcasts [hideOptions], otherwise the detector is left as it is.
    Input that arrives while no session runs is not written and clears
    neither the held trigger nor the debounce memory: it changes
    nothing, unless the mock input handler is waiting in mock mode,
    which hands it to [broadcastOutput].  The subprocess exiting
    broadcasts [exit] and leaves the detector, held trigger included,
    as it is; a start request handled while no session runs resets
    it. *)
Theorem C9_trigger_cleared (mock : bool) (n : NotifierLib.Notifier) (evs : list Event) :
  let s := run (init mock n) evs in
  (forall ev : Event,
      is_Some (lastTrigger (watcher s)) ->
      (lastTrigger (watcher (step s ev)) = None <-> clears s ev))
  /\ (forall (data : string) (env : Env),
      isRunning (ptyManager s) = true ->
      let s' := fst (handleClientMessage s (Input data) env) in
      ptyCalls s' = ptyCalls s ++ [PtyWrite data]
      /\ notifier s' = NotifierLib.resetDebounce (notifier s)
      /\ (JS.includes JS.cr data = true ->
          watcher s' = reset (watcher s)
          /\ lastTrigger (watcher s') = None
          /\ lines (watcher s') = []
          /\ broadcasts s' = broadcasts s ++ [MsgHideOptions])
      /\ (JS.includes JS.cr data = false ->
          watcher s' = watcher s /\ broadcasts s' = broadcasts s))
  /\ (forall (data : string) (env : Env),
      isRunning (ptyManager s) = false ->
      let s' := fst (handleClientMessage s (Input data) env) in
      ptyCalls s' = ptyCalls s
      /\ NotifierLib.lastNotificationHash (notifier s')
         = NotifierLib.lastNotificationHash (notifier s)
      /\ NotifierLib.lastNotificationTime (notifier s')
         = NotifierLib.lastNotificationTime (notifier s)
      /\ (is_Some (lastTrigger (watcher s)) -> is_Some (lastTrigger (watcher s')))
      /\ s' = (if mockMode s && mockInputHandler s
               then broadcastOutput (set_mockInputHandler s false) data env
               else s))
  /\ (forall (code : Z) (signal : option Z),
      watcher (on_exit s code signal) = watcher s
      /\ broadcasts (on_exit s code signal) = broadcasts s ++ [MsgExit code signal]
      /\ running (ptyManager (on_exit s code signal)) = false
      /\ exitCode (ptyManager (on_exit s code signal)) = Some code)
  /\ (forall (args : Args.Value) (cwd : option (Completion string)) (env : Env),
      isRunning (ptyManager s) = false ->
      watcher (fst (startClaude s args cwd env)) = reset (watcher s)).
Proof.
  intros s.
  assert (Hok : srv_ok s) by (apply run_ok_srv, init_ok_srv).
  clearbody s.
  split; [|split; [|split; [|split]]].
  - intros ev Hheld. apply step_clears; assumption.
  - intros data env Hrun s'. subst s'.
    assert (Hmock : mockMode s && mockInputHandler s = false).
    { destruct (mockMode s) eqn:Hm; [|reflexivity]. destruct Hok as [_ Hmk].
      destruct (Hmk Hm) as [Hr _]. unfold isRunning in Hrun. congruence. }
    unfold Server.handleClientMessage, Server.originalHandleClientMessage. rewrite Hmock.
    destruct (handle_input_running s data Hok Hrun) as (Hc & Hn & Hw & Hb).
    split; [exact Hc|]. split; [exact Hn|]. rewrite Hw, Hb.
    split; intros ->; repeat split; reflexivity.
  - intros data env Hrun s'. subst s'.
    unfold Server.handleClientMessage, Server.originalHandleClientMessage.
    destruct (mockMode s && mockInputHandler s) eqn:Hmock.
    + cbn [fst].
      destruct (broadcastOutput_spec (set_mockInputHandler s false) data env)
        as (Hw & _ & Hr & _ & Hn).
      split; [unfold rest_of in Hr; cbn in Hr; congruence|].
      assert (Hmem : NotifierLib.lastNotificationHash
                       (notifier (broadcastOutput (set_mockInputHandler s false) data env))
                     = NotifierLib.lastNotificationHash (notifier s)
                     /\ NotifierLib.lastNotificationTime
                          (notifier (broadcastOutput (set_mockInputHandler s false) data env))
                        = NotifierLib.lastNotificationTime (notifier s)).
      { destruct (WatcherLib.onTrigger _) as [r|].
        - destruct Hn as (_ & -> & _).
          destruct (notify_begin_spec (notifier (set_mockInputHandler s false))
                      (OptionParser.prompt r) (t_notify env)) as (_ & H1 & H2 & _).
          split; [exact H1|exact H2].
        - destruct Hn as (_ & -> & _). split; reflexivity. }
      split; [exact (proj1 Hmem)|]. split; [exact (proj2 Hmem)|].
      split; [|reflexivity].
      intros Hheld. rewrite Hw. apply process_keeps. exact Hheld.
    + unfold handle_input. rewrite Hrun. cbn [fst]. repeat split; auto.
  - intros code signal. repeat split; reflexivity.
  - intros args cwd env Hrun. rewrite startClaude_watcher, Hrun. reflexivity.
Qed.

Lemma host_after_snoc (actions : list Action) (a : Action) :
  host_after (actions ++ [a]) = act (host_after actions) a.
Proof. unfold host_after. rewrite fold_left_app. reflexivity. Qed.

(** The session marked running is the last subprocess created, and it
    exists. *)
Lemma host_running (actions : list Action) :
  running (manager (host_after actions)) = true ->
  pty (manager (host_after actions)) = Some (created (host_after actions))
  /\ In (created (host_after actions)) (subprocesses (host_after actions)).
Proof.
  induction actions as [|a actions IH] using rev_ind; [discriminate|].
  rewrite host_after_snoc. destruct (host_after actions) as [m subs k].
  destruct m as [p bs b ec run0 c r]. cbn [manager created subprocesses running pty] in IH.
  destruct a as [command args fails|signal|h code signal]; cbn [act manager].
  - unfold spawn. cbn [running]. destruct run0; [exact IH|]. destruct fails as [e|]; cbn.
    + discriminate.
    + intros _. split; [reflexivity|]. apply in_or_app. right. left. reflexivity.
  - unfold kill. cbn. destruct p as [h|]; [destruct run0|]; cbn; try discriminate; exact IH.
  - cbn. destruct (existsb (Nat.eqb h) subs); cbn; [discriminate|exact IH].
Qed.

(** As long as [kill] is not called, the subprocesses that exist are
    the one of the running session, if a session runs. *)
Lemma host_quiet (actions : list Action) :
  forallb (fun a => negb (is_kill a)) actions = true ->
  subprocesses (host_after actions)
  = if running (manager (host_after actions)) then [created (host_after actions)] else [].
Proof.
  induction actions as [|a actions IH] using rev_ind; [reflexivity|].
  rewrite forallb_app. intros Hq. apply andb_true_iff in Hq as [Hq Ha].
  specialize (IH Hq). rewrite host_after_snoc.
  destruct (host_after actions) as [m subs k].
  destruct m as [p bs b ec run0 c r]. cbn [manager created subprocesses running] in IH.
  destruct a as [command args fails|signal|h code signal]; cbn [act manager]; [| discriminate Ha |].
  - unfold spawn. cbn [running]. destruct run0; [exact IH|]. destruct fails as [e|]; cbn.
    + exact IH.
    + rewrite IH. reflexivity.
  - cbn. destruct (existsb (Nat.eqb h) subs) eqn:Hin; cbn; [|exact IH].
    subst subs. destruct run0; [|discriminate Hin].
    cbn in Hin. rewrite orb_false_r in Hin. apply Nat.eqb_eq in Hin. subst h.
    cbn. rewrite Nat.eqb_refl. reflexivity.
Qed.

(** C6, amended.  While the running flag is set, [spawn] throws and
    changes nothing of the manager (running flag, buffer, exit code,
    geometry), emits no event and calls nothing on the pseudo-terminal;
    [startClaude] broadcasts an error and leaves the manager and the
    detector as they are: the request is not queued.  The session
    marked running has its subprocess, a subprocess is created only
    while the flag is clear, and as long as [kill] is not called at
    most one subprocess exists.  [kill] clears the flag at once and
    ends no subprocess by itself, so the next start is accepted while
    the subprocess killed may still exist.  In mock mode no
    pseudo-terminal is ever created and the flag stays clear: a start
    request is never refused as already running, and with valid
    arguments and a usable directory it is answered with [started]. *)
Theorem C6_start_while_running :
  (forall (m : PTYManager) (command : string) (args : list string)
          (spawned : Completion nat),
      running m = true ->
      spawn m command args spawned
        = (m, [], Throw "PTY already running. Call kill() first."))
  /\ (forall (s : Srv) (extraArgs : Args.Value) (customCwd : option (Completion string))
             (env : Env),
      isRunning (ptyManager s) = true ->
      startClaude s extraArgs customCwd env
        = (broadcast s (MsgError "Claude Code is already running"), Return tt)
      /\ ptyManager (fst (startClaude s extraArgs customCwd env)) = ptyManager s
      /\ watcher (fst (startClaude s extraArgs customCwd env)) = watcher s
      /\ ptyCalls (fst (startClaude s extraArgs customCwd env)) = ptyCalls s)
  /\ (forall actions : list Action,
      let w := host_after actions in
      (running (manager w) = true ->
       pty (manager w) = Some (created w) /\ In (created w) (subprocesses w))
      /\ (forall (command : string) (args : list string),
            subprocesses (act w (Spawn command args None))
            = if running (manager w) then subprocesses w
              else subprocesses w ++ [S (created w)])
      /\ (forallb (fun a => negb (is_kill a)) actions = true ->
          (length (subprocesses w) <= 1)%nat)
      /\ (forall signal : string,
            running (manager (act w (Kill signal))) = false
            /\ subprocesses (act w (Kill signal)) = subprocesses w))
  /\ (forall (n : NotifierLib.Notifier) (evs : list Event),
      let s := run (init true n) evs in
      isRunning (ptyManager s) = false
      /\ pty (ptyManager s) = None
      /\ forall (extraArgs : Args.Value) (customCwd : option (Completion string))
                (env : Env) (validated : list string) (cwd : string),
           Args.validateArgs extraArgs = Return validated ->
           working_directory customCwd = Return cwd ->
           mkdirError env = None ->
           startClaude s extraArgs customCwd env
           = (broadcast (set_watcher s (reset (watcher s))) (MsgStarted ["--mock"] None),
              Return tt)).
Proof.
  split; [|split; [|split]].
  - intros m command args spawned Hrun. unfold spawn. rewrite Hrun. reflexivity.
  - intros s extraArgs customCwd env Hrun. unfold Server.startClaude. rewrite Hrun.
    repeat split; reflexivity.
  - intros actions w. subst w.
    pose proof (host_running actions) as Hrun.
    split; [exact Hrun|]. split; [|split].
    + intros command args. cbn [act]. unfold spawn.
      destruct (running (manager (host_after actions))); reflexivity.
    + intros Hq. rewrite (host_quiet actions Hq).
      destruct (running (manager (host_after actions))); cbn; lia.
    + intros signal. cbn [act manager subprocesses]. split; [|reflexivity].
      unfold kill. destruct (running (manager (host_after actions))) eqn:Hr.
      * destruct (Hrun eq_refl) as [-> _]. reflexivity.
      * destruct (pty (manager (host_after actions))); exact Hr.
  - intros n evs s.
    assert (Hok : srv_ok s) by (apply run_ok_srv, init_ok_srv).
    assert (Hmock : mockMode s = true) by (subst s; rewrite run_mockMode; reflexivity).
    clearbody s. destruct Hok as [_ Hmk]. destruct (Hmk Hmock) as [Hr Hp].
    split; [exact Hr|]. split; [exact Hp|].
    intros extraArgs customCwd env validated cwd Hv Hc Hd.
    unfold Server.startClaude, startMockMode, isRunning.
    rewrite Hr, Hv, Hc, Hd. cbn [set_watcher mockMode]. rewrite Hmock. reflexivity.
Qed.


(** No message handler touches the tables of the access layer. *)
Lemma handleClientMessage_access (s : Srv) (data : ClientMessage) (env : Env) :
  access_of (fst (handleClientMessage s data env)) = access_of s.
Proof.
  unfold Server.handleClientMessage, Server.originalHandleClientMessage.
  destruct data as [args cwd|d|c r| | |]; try reflexivity.
  - unfold Server.startClaude, startMockMode.
    destruct s as [m w n ss bi wc th mock mh bc pc rq ps]. cbn.
    destruct (isRunning m); [reflexivity|].
    destruct (Args.validateArgs args); [|reflexivity].
    destruct (working_directory cwd); [|reflexivity].
    destruct (mkdirError env); [reflexivity|].
    destruct mock; [reflexivity|].
    destruct (spawn _ _ _ _) as [[m' effs] [u|e]]; reflexivity.
  - destruct (mockMode s && mockInputHandler s).
    + cbn [fst].
      destruct (broadcastOutput_spec (set_mockInputHandler s false) d env)
        as (_ & _ & _ & Ha & _). exact Ha.
    + unfold handle_input. destruct (isRunning (ptyManager s)); [|reflexivity].
      destruct (write (ptyManager s) d) as [[m calls] [u|e]]; [|reflexivity].
      destruct (String.eqb d JS.cr || JS.includes JS.cr d); reflexivity.
  - destruct ((c =? 0) || (r =? 0)); reflexivity.
Qed.

(** X8. One message never lowers the violation counter and raises it by
    at most one; it is dispatched exactly when it is within the size
    limit and the window is below the ceiling, whatever it holds; an
    oversized message closes the connection with 1009 without counting
    a violation or touching the window or the server; the only ban a
    message can set is that of the connection's own address, and the
    sessions and the recorded connections are never touched, also not
    by the handling of a dispatched message.  A message that is not
    dispatched leaves the session manager, the detector, the notifier
    and what was sent as they are; a dispatched one changes the server
    as [handleClientMessage] does, and not at all when it cannot be
    parsed. *)
Theorem message_frame (s : Srv) (ws : Socket) (size now t_ban : Z)
    (parsed : option ClientMessage) (env : Env) :
  let out := on_message_parsed stripAnsiModule patterns claude_opts
               s ws size now t_ban parsed env in
  let ws' := snd (fst out) in
  let s' := fst (fst out) in
  violations ws <= violations ws' <= violations ws + 1
  /\ ip ws' = ip ws
  /\ (snd out = Dispatched <->
      size <= 65536
      /\ Z.of_nat (length (recent MESSAGE_WINDOW now (messageTimestamps ws)))
         < MESSAGE_RATE_LIMIT)
  /\ (65536 < size ->
      snd out = Closed 1009 "Message too large"
      /\ violations ws' = violations ws
      /\ messageTimestamps ws' = messageTimestamps ws
      /\ s' = s)
  /\ (forall other : string, other <> ip ws ->
        bannedIps s' !! other = bannedIps s !! other)
  /\ sessions s' = sessions s /\ wsConnections s' = wsConnections s
  /\ (snd out <> Dispatched ->
      ptyManager s' = ptyManager s /\ watcher s' = watcher s
      /\ notifier s' = notifier s /\ broadcasts s' = broadcasts s
      /\ ptyCalls s' = ptyCalls s /\ requests s' = requests s /\ pushes s' = pushes s)
  /\ (snd out = Dispatched ->
      s' = match parsed with
           | Some data => fst (handleClientMessage s data env)
           | None => s
           end).
Proof.
  intros out ws' s'. subst out ws' s'. unfold on_message_parsed, on_message, recent.
  destruct (65536 <? size) eqn:Hbig.
  { apply Z.ltb_lt in Hbig. cbn [fst snd violations ip messageTimestamps].
    split; [lia|]. split; [reflexivity|]. split; [split; [discriminate|lia]|].
    split; [repeat split; reflexivity|]. split; [reflexivity|].
    split; [reflexivity|]. split; [reflexivity|].
    split; [intros _; repeat split; reflexivity|discriminate]. }
  apply Z.ltb_ge in Hbig.
  destruct (MESSAGE_RATE_LIMIT <=? _) eqn:Hceil.
  - apply Z.leb_le in Hceil.
    destruct (MAX_VIOLATIONS <=? violations ws + 1);
      cbn [fst snd violations ip messageTimestamps set_bannedIps bannedIps sessions
           wsConnections ptyManager watcher notifier broadcasts ptyCalls requests pushes];
      (split; [lia|]); (split; [reflexivity|]);
      (split; [split; [discriminate|lia]|]); (split; [lia|]);
      (split; [intros other Hne; try reflexivity; apply lookup_insert_ne; congruence|]);
      (split; [reflexivity|]); (split; [reflexivity|]);
      (split; [intros _; repeat split; reflexivity|discriminate]).
  - apply Z.leb_gt in Hceil.
    assert (Hacc : access_of (match parsed with
                              | Some data => fst (handleClientMessage s data env)
                              | None => s
                              end) = access_of s).
    { destruct parsed as [data|]; [apply handleClientMessage_access|reflexivity]. }
    unfold access_of in Hacc.
    destruct parsed as [data|]; cbn [fst snd violations ip messageTimestamps];
      (split; [lia|]); (split; [reflexivity|]); (split; [split; [lia|reflexivity]|]);
      (split; [lia|]);
      (split; [intros other _; congruence|]);
      (split; [congruence|]); (split; [congruence|]);
      (split; [intros H; destruct (H eq_refl)|reflexivity]).
Qed.

Lemma events_triggers (rs : list (option Trigger)) : events rs = length (triggers rs).
Proof.
  unfold events, triggers. induction rs as [|[t|] rs IH]; cbn; [reflexivity|lia|exact IH].
Qed.

Lemma triggers_cons (r : option Trigger) (rs : list (option Trigger)) :
  triggers (r :: rs) = triggers [r] ++ triggers rs.
Proof. unfold triggers. cbn [flat_map]. rewrite app_nil_r. reflexivity. Qed.

(** From a detector that holds no trigger at most one is reported. *)
Lemma feed_once (chunks : list (string * Z)) (w : Watcher) :
  lastTrigger w = None ->
  (events (snd (feed stripAnsiModule patterns w chunks)) <= 1)%nat.
Proof.
  revert w. induction chunks as [|[data now] rest IH]; intros w Hnone; [cbn; lia|].
  cbn [feed fst snd].
  destruct (OptionParser.parseOptionsWith patterns
              (JS.join_nl (window stripAnsiModule w data))) as [r|] eqn:Hparse.
  - destruct (process_idle stripAnsiModule patterns w data now r Hnone Hparse)
      as (Hret & _ & Hheld & _).
    destruct (feed_awaiting stripAnsiModule patterns rest _ Hheld) as (Hev & _).
    rewrite Hret. unfold events in *. cbn [List.filter length]. rewrite Hev. lia.
  - destruct (process_quiet stripAnsiModule patterns w data now Hnone Hparse)
      as (Hret & _ & Hstill).
    specialize (IH _ Hstill). rewrite Hret. unfold events in *. cbn [List.filter]. exact IH.
Qed.

(** What one call of [broadcastOutput] does to the notifier and to the
    logs of notifications. *)
Lemma broadcastOutput_notifies (s : Srv) (data : string) (env : Env) :
  let r := returned (process (watcher s) data (t_process env)) in
  let s' := broadcastOutput s data env in
  NotifierLib.topic (notifier s') = NotifierLib.topic (notifier s)
  /\ NotifierLib.lastNotificationHash (notifier s')
     = NotifierLib.lastNotificationHash (notifier s)
  /\ NotifierLib.lastNotificationTime (notifier s')
     = NotifierLib.lastNotificationTime (notifier s)
  /\ pushes s'
     = pushes s ++ map (fun t => ("Claude Code - Input Needed", t_prompt t)) (triggers [r])
  /\ (NotifierLib.truthy (NotifierLib.topic (notifier s)) = true ->
      attempts s' = attempts s + Z.of_nat (length (triggers [r])))
  /\ (NotifierLib.truthy (NotifierLib.topic (notifier s)) = false ->
      notifier s' = notifier s /\ requests s' = requests s)
  /\ (notifier s' = notifier s \/ notifier s' = NotifierLib.bump_debounced (notifier s)).
Proof.
  cbv zeta.
  destruct (broadcastOutput_spec s data env) as (_ & _ & _ & _ & Hn).
  pose proof (process_callback (watcher s) data (t_process env)) as Hcb.
  destruct (WatcherLib.onTrigger (process (watcher s) data (t_process env))) as [res|];
    destruct (returned (process (watcher s) data (t_process env))) as [t|];
    try contradiction.
  - destruct Hn as (Hp & Hnot & Hreq). unfold attempts.
    rewrite Hp, Hnot, Hreq. cbn [triggers flat_map app map length]. rewrite Hcb.
    destruct (notify_begin_spec (notifier s) (OptionParser.prompt res) (t_notify env))
      as (H1 & H2 & H3 & Hoff & Hon).
    split; [exact H1|]. split; [exact H2|]. split; [exact H3|].
    split; [reflexivity|]. split; [|split].
    + intros Htopic. destruct (Hon Htopic) as [->|[req ->]]; cbn; rewrite ?app_nil_r.
      * lia.
      * rewrite length_app. cbn. lia.
    + intros Htopic. rewrite (Hoff Htopic). cbn. rewrite app_nil_r. split; reflexivity.
    + destruct (NotifierLib.truthy (NotifierLib.topic (notifier s))) eqn:Htopic.
      * destruct (Hon eq_refl) as [->|[req ->]]; cbn [fst]; auto.
      * rewrite (Hoff eq_refl). cbn [fst]. auto.
  - destruct Hn as (Hp & Hnot & Hreq). unfold attempts. rewrite Hp, Hnot, Hreq.
    cbn. rewrite app_nil_r. repeat split; try reflexivity; auto. intros _. lia.
Qed.

(** X28. Relaying chunks, with nothing else happening in between: the
    messages broadcast are, chunk by chunk and in order, the [output]
    message of the chunk followed at once by the [options] message of
    the trigger the detector returned for that very chunk, if it
    returned one; the detector advances as [process] says.  Each
    trigger is handed to [sendWebPush] once and, when a topic is
    configured, makes one notification attempt (a request, or a call
    counted as debounced); without a topic the notifier is left alone,
    and with one it changes by its count of debounced calls only: the
    debounce memory is never written.  The session manager, the
    tables of the access layer, the flags and the calls on the
    pseudo-terminal stay as they are.  From a detector holding no
    trigger at most one trigger is reported. *)
Theorem relay_log (chunks : list (string * Env)) (s : Srv) :
  let s' := relay stripAnsiModule patterns s chunks in
  let fed := feed stripAnsiModule patterns (watcher s) (clocked chunks) in
  broadcasts s' = broadcasts s ++ chunk_log (map fst chunks) (snd fed)
  /\ watcher s' = fst fed
  /\ rest_of s' = rest_of s /\ access_of s' = access_of s
  /\ pushes s'
     = pushes s
       ++ map (fun t => ("Claude Code - Input Needed", t_prompt t)) (triggers (snd fed))
  /\ NotifierLib.lastNotificationHash (notifier s')
     = NotifierLib.lastNotificationHash (notifier s)
  /\ NotifierLib.lastNotificationTime (notifier s')
     = NotifierLib.lastNotificationTime (notifier s)
  /\ (NotifierLib.truthy (NotifierLib.topic (notifier s)) = true ->
      attempts s' = attempts s + Z.of_nat (length (triggers (snd fed))))
  /\ (NotifierLib.truthy (NotifierLib.topic (notifier s)) = false ->
      notifier s' = notifier s /\ requests s' = requests s)
  /\ (exists k : nat,
        (k <= length (triggers (snd fed)))%nat
        /\ notifier s' = Nat.iter k NotifierLib.bump_debounced (notifier s))
  /\ (lastTrigger (watcher s) = None -> (length (triggers (snd fed)) <= 1)%nat).
Proof.
  cbv zeta.
  assert (Hmain : forall s0 : Srv,
    broadcasts (relay stripAnsiModule patterns s0 chunks)
    = broadcasts s0
      ++ chunk_log (map fst chunks)
           (snd (feed stripAnsiModule patterns (watcher s0) (clocked chunks)))
    /\ watcher (relay stripAnsiModule patterns s0 chunks)
       = fst (feed stripAnsiModule patterns (watcher s0) (clocked chunks))
    /\ rest_of (relay stripAnsiModule patterns s0 chunks) = rest_of s0
    /\ access_of (relay stripAnsiModule patterns s0 chunks) = access_of s0
    /\ pushes (relay stripAnsiModule patterns s0 chunks)
       = pushes s0
         ++ map (fun t => ("Claude Code - Input Needed", t_prompt t))
              (triggers (snd (feed stripAnsiModule patterns (watcher s0) (clocked chunks))))
    /\ NotifierLib.topic (notifier (relay stripAnsiModule patterns s0 chunks))
       = NotifierLib.topic (notifier s0)
    /\ NotifierLib.lastNotificationHash (notifier (relay stripAnsiModule patterns s0 chunks))
       = NotifierLib.lastNotificationHash (notifier s0)
    /\ NotifierLib.lastNotificationTime (notifier (relay stripAnsiModule patterns s0 chunks))
       = NotifierLib.lastNotificationTime (notifier s0)
    /\ (NotifierLib.truthy (NotifierLib.topic (notifier s0)) = true ->
        attempts (relay stripAnsiModule patterns s0 chunks)
        = attempts s0
          + Z.of_nat (length (triggers
               (snd (feed stripAnsiModule patterns (watcher s0) (clocked chunks))))))
    /\ (NotifierLib.truthy (NotifierLib.topic (notifier s0)) = false ->
        notifier (relay stripAnsiModule patterns s0 chunks) = notifier s0
        /\ requests (relay stripAnsiModule patterns s0 chunks) = requests s0)
    /\ (exists k : nat,
          (k <= length (triggers
                  (snd (feed stripAnsiModule patterns (watcher s0) (clocked chunks)))))%nat
          /\ notifier (relay stripAnsiModule patterns s0 chunks)
             = Nat.iter k NotifierLib.bump_debounced (notifier s0))).
  { induction chunks as [|[data env] rest IH]; intros s0.
    - cbn. rewrite !app_nil_r. repeat split; try reflexivity; [intros _; lia|].
      exists 0%nat. split; [lia|reflexivity].
    - unfold relay in *. cbn [fold_left fst snd clocked map feed]. fold (clocked rest).
      destruct (IH (broadcastOutput s0 data env))
        as (I1 & I2 & I3 & I4 & I5 & I6 & I7 & I8 & I9 & I10 & k & Hk & I11).
      destruct (broadcastOutput_spec s0 data env) as (Hw & Hb & Hr & Ha & _).
      pose proof (process_callback (watcher s0) data (t_process env)) as Hcb.
      destruct (broadcastOutput_notifies s0 data env)
        as (Ht & Hh & Hl & Hp & Hon & Hoff & Hbump).
      rewrite Hw in *.
      split; [rewrite I1, Hb; cbn [chunk_log]; rewrite <- app_assoc; reflexivity|].
      split; [exact I2|]. split; [rewrite I3; exact Hr|]. split; [rewrite I4; exact Ha|].
      split; [rewrite I5, Hp, (triggers_cons _ (snd _)), map_app, app_assoc; reflexivity|].
      split; [rewrite I6; exact Ht|]. split; [rewrite I7; exact Hh|].
      split; [rewrite I8; exact Hl|]. split.
      + intros Htopic. rewrite I9 by (rewrite Ht; exact Htopic). rewrite (Hon Htopic).
        rewrite (triggers_cons _ (snd _)), length_app. lia.
      + split.
        * intros Htopic. destruct (Hoff Htopic) as [Hn Hq].
          destruct I10 as [J1 J2]; [rewrite Ht; exact Htopic|].
          rewrite J1, J2. split; assumption.
        * rewrite (triggers_cons _ (snd _)), length_app.
          destruct (returned (process (watcher s0) data (t_process env))) as [t|] eqn:Hret.
          -- destruct Hbump as [Hsame|Hbump].
             ++ exists k. split; [lia|]. rewrite I11, Hsame. reflexivity.
             ++ exists (k + 1)%nat. split; [cbn [triggers flat_map app length]; lia|].
                rewrite I11, Hbump, Nat.iter_add. reflexivity.
          -- exists k. split; [lia|]. rewrite I11.
             destruct (broadcastOutput_spec s0 data env) as (_ & _ & _ & _ & Hn).
             destruct (WatcherLib.onTrigger (process (watcher s0) data (t_process env)));
               [contradiction|].
             destruct Hn as (_ & -> & _). reflexivity. }
  destruct (Hmain s) as (I1 & I2 & I3 & I4 & I5 & _ & I7 & I8 & I9 & I10 & I11).
  repeat (split; [assumption|]).
  intros Hnone. rewrite <- events_triggers. apply feed_once. exact Hnone.
Qed.

(** X29. Starting when no session runs.  The detector is reset first,
    in every case.  If [validateArgs] throws, or the working directory
    cannot be resolved, the call ends there by an exception and nothing
    is broadcast.  Otherwise the working directory is [/workspace] or
    lies below it; if it cannot be created only an error is broadcast;
    in mock mode only [started] is broadcast; if the subprocess cannot
    be spawned the error is broadcast twice (as the manager's [error]
    event and as the failure of the start), the manager stays as it
    was, and a later start is again possible; if it is spawned the
    manager runs with an empty buffer and [started] is broadcast with
    the configured options followed by the validated arguments, and
    the directory. *)
Theorem startClaude_outcomes (s : Srv) (extraArgs : Args.Value)
    (customCwd : option (Completion string)) :
  isRunning (ptyManager s) = false ->
  let s1 := set_watcher s (reset (watcher s)) in
  (forall (env : Env) (e : string),
      Args.validateArgs extraArgs = Throw e ->
      startClaude s extraArgs customCwd env = (s1, Throw e))
  /\ (forall (env : Env) (validated : list string) (e : string),
        Args.validateArgs extraArgs = Return validated ->
        working_directory customCwd = Throw e ->
        startClaude s extraArgs customCwd env = (s1, Throw e))
  /\ (forall (validated : list string) (cwd : string),
        Args.validateArgs extraArgs = Return validated ->
        working_directory customCwd = Return cwd ->
        let args := filter_Boolean (claude_opts ++ validated) in
        (cwd = "/workspace" \/ String.prefix "/workspace/" cwd = true)
        /\ (forall (env : Env) (e : string),
              mkdirError env = Some e ->
              startClaude s extraArgs customCwd env
              = (broadcast s1 (MsgError ("Failed to create directory: " +:+ e)), Return tt))
        /\ (forall env : Env,
              mkdirError env = None -> mockMode s = true ->
              startClaude s extraArgs customCwd env
              = (broadcast s1 (MsgStarted ["--mock"] None), Return tt))
        /\ (forall (env : Env) (h : nat),
              mkdirError env = None -> mockMode s = false -> spawned env = Return h ->
              let s' := fst (startClaude s extraArgs customCwd env) in
              snd (startClaude s extraArgs customCwd env) = Return tt
              /\ running (ptyManager s') = true /\ pty (ptyManager s') = Some h
              /\ buffer (ptyManager s') = [] /\ exitCode (ptyManager s') = None
              /\ cols (ptyManager s') = cols (ptyManager s)
              /\ rows (ptyManager s') = rows (ptyManager s)
              /\ watcher s' = reset (watcher s)
              /\ broadcasts s' = broadcasts s ++ [MsgStarted args (Some cwd)])
        /\ (forall (env : Env) (e : string),
              mkdirError env = None -> mockMode s = false -> spawned env = Throw e ->
              let s' := fst (startClaude s extraArgs customCwd env) in
              snd (startClaude s extraArgs customCwd env) = Return tt
              /\ ptyManager s' = ptyManager s
              /\ watcher s' = reset (watcher s)
              /\ broadcasts s'
                 = broadcasts s ++ [MsgError e; MsgError ("Failed to start: " +:+ e)]
              /\ forall h : nat,
                   running (ptyManager
                              (fst (startClaude s' extraArgs customCwd
                                      (mkEnv (t_process env) (t_notify env) None
                                         (Return h)))))
                   = true)).
Proof.
  destruct s as [m w n ss bi wc th mock mh bc pc rq ps].
  destruct m as [p bs b ec run0 c r].
  cbn [isRunning ptyManager running]. intros ->. cbv zeta.
  unfold Server.startClaude, startMockMode, spawn, isRunning. cbn.
  split; [intros env e ->; reflexivity|].
  split; [intros env validated e -> ->; reflexivity|].
  intros validated cwd -> Hcwd. rewrite Hcwd.
  split.
  { unfold working_directory in Hcwd.
    destruct customCwd as [[normalized|e]|]; [|discriminate|injection Hcwd as <-; auto].
    destruct (String.eqb normalized "/workspace") eqn:Heq; cbn [orb] in Hcwd.
    - injection Hcwd as <-. apply String.eqb_eq in Heq. auto.
    - destruct (String.prefix "/workspace/" normalized) eqn:Hpre;
        injection Hcwd as <-; auto. }
  split; [intros env e ->; reflexivity|].
  split; [intros env -> ->; reflexivity|].
  split.
  - intros env h -> -> ->. cbn. repeat split; reflexivity.
  - intros env e -> -> ->. cbn. rewrite <- app_assoc.
    repeat split; reflexivity.
Qed.
End ServerLaws.

Section ServerLawsExamples.
Import PtyManager WatcherLib Server Props Laws.

(** C6, refuted as stated.  Stop, then start before the exit of the
    subprocess is notified: both starts are accepted, and the two
    subprocesses exist together.  In mock mode two start requests in a
    row are both accepted. *)
Lemma C6_two_sessions :
  let w := host_after [Spawn "claude" [] None; Kill "SIGTERM"; Spawn "claude" [] None] in
  let start := EvMessage (Some (Start (Args.Array []) None)) (fair 0 1) in
  let s := run (fun t => t) OptionParser.sortedPatterns ascii_bytes []
             (init true ntfy_notifier) [start; start] in
  subprocesses w = [1%nat; 2%nat]
  /\ ~ (forall actions : list Action, (length (subprocesses (host_after actions)) <= 1)%nat)
  /\ broadcasts s = [MsgStarted ["--mock"] None; MsgStarted ["--mock"] None].
Proof.
  cbv zeta. split; [reflexivity|]. split; [|vm_compute; reflexivity].
  intros H.
  specialize (H [Spawn "claude" [] None; Kill "SIGTERM"; Spawn "claude" [] None]).
  vm_compute in H. lia.
Qed.

(** C6 on a running manager, and on a session that exits by itself
    before the next one is started. *)
Lemma C6_start_while_running_witness :
  spawn running_manager "claude" [] (Return 8%nat)
    = (running_manager, [], Throw "PTY already running. Call kill() first.")
  /\ (length (subprocesses
                (host_after [Spawn "claude" [] None; Exited 1 0 None;
                             Spawn "claude" [] None])) <= 1)%nat.
Proof.
  destruct (C6_start_while_running (fun t => t) OptionParser.sortedPatterns ascii_bytes [])
    as (Hspawn & _ & Hhost & _).
  split.
  - apply (Hspawn running_manager "claude" [] (Return 8%nat)). reflexivity.
  - destruct (Hhost [Spawn "claude" [] None; Exited 1 0 None; Spawn "claude" [] None])
      as (_ & _ & Hquiet & _).
    apply Hquiet. reflexivity.
Defined.

(** C9 on a server that was started and then showed a prompt: the
    trigger is held; the input ["y\r"] clears it, the exit of the
    subprocess does not. *)
Lemma C9_trigger_cleared_witness :
  let evs := [EvMessage (Some (Start (Args.Array []) None)) (fair 0 7);
              EvData prompt_yes_no false (fair 1000 7)] in
  let s := run (fun t => t) OptionParser.sortedPatterns ascii_bytes []
             (init false ntfy_notifier) evs in
  lastTrigger (watcher s) = Some held_hash
  /\ lastTrigger (watcher (Server.step (fun t => t) OptionParser.sortedPatterns ascii_bytes [] s
                            (EvMessage (Some (Input ("y" +:+ JS.cr))) (fair 2000 7))))
     = None
  /\ watcher (on_exit s 0 None) = watcher s.
Proof.
  cbv zeta.
  destruct (C9_trigger_cleared (fun t => t) OptionParser.sortedPatterns ascii_bytes []
              false ntfy_notifier
              [EvMessage (Some (Start (Args.Array []) None)) (fair 0 7);
               EvData prompt_yes_no false (fair 1000 7)])
    as (Hexact & _ & _ & Hexit & _).
  split; [vm_compute; reflexivity|]. split.
  - apply Hexact.
    + eexists. vm_compute. reflexivity.
    + split; vm_compute; reflexivity.
  - destruct (Hexit 0 None) as (Hw & _). exact Hw.
Defined.

(** X29 on the idle server: a start with [--verbose] in a directory
    below [/workspace]. *)
Lemma startClaude_outcomes_witness :
  running (ptyManager (fst (startClaude [] idle_server (Args.strings ["--verbose"])
                              (Some (Return "/workspace/app")) (fair 0 3))))
  = true.
Proof.
  destruct (startClaude_outcomes [] idle_server (Args.strings ["--verbose"])
              (Some (Return "/workspace/app")))
    as (_ & _ & H).
  - reflexivity.
  - destruct (H ["--verbose"] "/workspace/app") as (_ & _ & _ & Hok & _);
      [reflexivity|reflexivity|].
    destruct (Hok (fair 0 3) 3%nat) as (_ & Hr & _); [reflexivity|reflexivity|reflexivity|].
    exact Hr.
Defined.
End ServerLawsExamples.
